(** * Carmen: energy and carbon computation pipeline

    A shallow embedding of the computation core of the carmen backend:
    the model-graph nodes of the Impact Framework profiles, the telemetry
    aligner of [ArgosService], the carbon-intensity lookup of
    [PaasCiMapper], the input builders and the output parser of [IFService],
    the chunked [run_engine] of the VM and Storage profiles, and the row
    helpers of the daemon.

    Conventions of the model
    - A Python [float] is an exact rational ([Qc], canonical fractions, so
      that equality of series is Leibniz equality).  Rounding error of IEEE
      doubles is not represented.
    - A Python [str] is a [string] of ASCII characters.
    - A raised exception is the left injection of [result].
    - The telemetry database and the evaluator are external: they enter as
      section variables ([exec_query], [run_if]).
    - Objects that are mutated in place are passed through functions that
      return their new state. *)

From Stdlib Require Import Ascii String QArith Qcanon Qround Lqa.
From stdpp Require Import base numbers list strings gmap pretty sorting.

Open Scope string_scope.
Open Scope Qc_scope.

Abbreviation float := Qc (only parsing).

(** ** Python runtime *)

Module Py.

(** backend/src/common/errors.py, the two codes raised by the core. *)
Inductive ErrorCode :=
| DATA_FETCH_FAILED
| DATA_FETCH_NO_RESULTS
| IF_EXECUTION_FAILED.

(** The exceptions that the modelled code raises or lets through. *)
Inductive exn :=
| KeyError (key : string)
| ValueError (msg : string)
| TypeError (msg : string)
| IndexError (msg : string)
| KnownException (code : ErrorCode) (details : option string)
| DataFetchError (code : ErrorCode) (source details : option string).

Definition result (A : Type) : Type := (exn + A)%type.

Definition raise {A} (e : exn) : result A := inl e.

#[global] Instance result_ret : MRet result := λ A x, inr x.
#[global] Instance result_bind : MBind result :=
  λ A B f m, match m with inl e => inl e | inr x => f x end.
#[global] Instance result_fmap : FMap result :=
  λ A B f m, match m with inl e => inl e | inr x => inr (f x) end.

(** [for x in xs: acc = body(acc, x)], stopping at the first exception. *)
Fixpoint for_each {A S} (body : S → A → result S) (xs : list A) (acc : S)
  : result S :=
  match xs with
  | [] => mret acc
  | x :: xs' => acc' ← body acc x; for_each body xs' acc'
  end.

(** [d[key]] on a dict. *)
Definition getitem {V} (d : gmap string V) (key : string) : result V :=
  match d !! key with
  | Some v => mret v
  | None => raise (KeyError key)
  end.

(** [d.get(key, dflt)] on a dict. *)
Definition get {V} (d : gmap string V) (key : string) (dflt : V) : V :=
  default dflt (d !! key).

(** [min(a, b)]: the first argument unless the second is strictly less. *)
Definition min (a b : float) : float := if decide (b < a) then b else a.

Definition is_lower (c : ascii) : bool :=
  bool_decide (97 ≤ nat_of_ascii c ≤ 122)%nat.
Definition is_digit (c : ascii) : bool :=
  bool_decide (48 ≤ nat_of_ascii c ≤ 57)%nat.

Definition upper_ascii (c : ascii) : ascii :=
  if is_lower c then ascii_of_nat (nat_of_ascii c - 32) else c.

(** [s.upper()] *)
Fixpoint upper (s : string) : string :=
  match s with
  | EmptyString => EmptyString
  | String c s' => String (upper_ascii c) (upper s')
  end.

Definition is_upper (c : ascii) : bool :=
  bool_decide (65 ≤ nat_of_ascii c ≤ 90)%nat.

Definition lower_ascii (c : ascii) : ascii :=
  if is_upper c then ascii_of_nat (nat_of_ascii c + 32) else c.

(** [s.lower()] *)
Fixpoint lower (s : string) : string :=
  match s with
  | EmptyString => EmptyString
  | String c s' => String (lower_ascii c) (lower s')
  end.

(** [needle in s] for two strings: [needle] starts at some position of
    [s]. *)
Fixpoint contains (needle s : string) : bool :=
  match s with
  | EmptyString => String.prefix needle EmptyString
  | String _ s' => String.prefix needle s || contains needle s'
  end.

(** [s.split(sep)] for a one-character separator. *)
Fixpoint split_on (sep : ascii) (s : string) : list string :=
  match s with
  | EmptyString => [EmptyString]
  | String c s' =>
      if decide (c = sep) then EmptyString :: split_on sep s'
      else match split_on sep s' with
           | [] => [String c EmptyString]
           | w :: ws => String c w :: ws
           end
  end.

(** [str(n)] for a non-negative int. *)
Definition str (n : nat) : string := pretty n.

(** A naive [datetime] is the number of seconds on its wall clock since the
    epoch; a [timedelta] is a number of seconds. *)
Abbreviation datetime := Qc (only parsing).

Definition hours (h : Z) : float := Q2Qc (inject_Z (3600 * h)).

Section LocalTime.
(** The UTC offset of the local time zone, in seconds: the zone in which
    [datetime.timestamp()] reads a naive datetime.  It is taken constant
    over the queried interval. *)
Variable utcoffset : float.

(** [t.timestamp()] *)
Definition timestamp (t : datetime) : float := t - utcoffset.
End LocalTime.

End Py.

Import Py.

(** ** numpy *)

Module np.

(** The segment search of [np.interp] for one abscissa [x], given the
    current sample [p] with [p.1 ≤ x] and the samples right of it: move right
    while the next abscissa is still [≤ x]; on the last sample, or on an exact
    hit, return the ordinate; otherwise interpolate linearly on the segment. *)
Fixpoint interp_from (x : float) (p : float * float)
    (rest : list (float * float)) : float :=
  match rest with
  | [] => p.2
  | q :: rest' =>
      if decide (q.1 ≤ x) then interp_from x q rest'
      else if decide (p.1 = x) then p.2
      else (q.2 - p.2) / (q.1 - p.1) * (x - p.1) + p.2
  end.

(** One abscissa of [np.interp]: left of the first sample the first
    ordinate is returned ([left] defaults to [fp[0]]), right of the last one
    the last ordinate. *)
Definition interp_at (x : float) (pts : list (float * float)) : float :=
  match pts with
  | [] => 0
  | p :: rest => if decide (x < p.1) then p.2 else interp_from x p rest
  end.

(** [np.interp(x, xp, fp)] for increasing [xp]. *)
Definition interp (x xp fp : list float) : result (list float) :=
  if decide (length xp ≠ length fp) then
    raise (ValueError "fp and xp are not of the same length.")
  else if decide (xp = []) then
    raise (ValueError "array of sample points is empty")
  else mret ((λ xi, interp_at xi (zip xp fp)) <$> x).

(** [np.array(rows)] for a list of lists of floats: the rows must have one
    common length. *)
Definition array (rows : list (list float)) : result (list (list float)) :=
  match rows with
  | [] => mret []
  | r :: _ =>
      if decide (Forall (λ r', length r' = length r) rows) then mret rows
      else raise (ValueError "inhomogeneous shape")
  end.

Definition add_rows (acc row : list float) : list float :=
  zip_with Qcplus acc row.

(** [np.sum(a, axis=0).tolist()] on a two-dimensional array with at least
    one row.  (On no row at all numpy yields the scalar [0.0], which is not a
    list; callers below never pass it.) *)
Definition sum_axis0 (a : list (list float)) : result (list float) :=
  match a with
  | [] => raise (TypeError "0-d result")
  | r :: rs => mret (foldl add_rows r rs)
  end.

(** [np.mean(a, axis=0).tolist()]: the column sums divided by the number
    of rows. *)
Definition mean_axis0 (a : list (list float)) : result (list float) :=
  s ← sum_axis0 a;
  mret ((λ v, v / Q2Qc (inject_Z (Z.of_nat (length a)))) <$> s).

End np.

(** ** backend/src/common/constants.py *)

Module constants.

(** A value stored in a constants table: a string or an int. *)
Inductive pyval :=
| Str (s : string)
| Int (z : Z).

Definition CARBON_INTENSITY_EUROPE : Z := 281.

Definition ZONES : gmap string string :=
  list_to_map
    [ ("EUS", "eastus"); ("WUS", "westus"); ("NE", "northeurope");
      ("EUN1", "northeurope"); ("IRL", "northeurope");
      ("FC", "francecentral"); ("SA", "southeastasia");
      ("GWC", "germanywestcentral"); ("ERD", "germanywestcentral");
      ("MUC", "germanywestcentral"); ("CDF", "germanywestcentral");
      ("CDFDEV", "germanywestcentral"); ("NLD", "westeurope");
      ("WE", "westeurope"); ("NGI", "northeurope"); ("NET", "westeurope");
      ("NCE", "francesouth") ].

Definition STORAGE_POWER_COEFFICIENT_MAPPING : gmap string float :=
  list_to_map
    [ ("SSD", Q2Qc 0.0000012); ("HDD", Q2Qc 0.00000065);
      ("UNKNOWN", Q2Qc 0.000000925) ].

Definition STORAGE_EMBODIED_COEFFICIENT_MAPPING : gmap string float :=
  list_to_map [ ("SSD", Q2Qc 160); ("HDD", Q2Qc 20); ("UNKNOWN", Q2Qc 90) ].

Definition STORAGE_REPLICATION_FACTORS : gmap string Z :=
  list_to_map
    [ ("LRS", 3%Z); ("ZRS", 3%Z); ("GRS", 6%Z); ("RA_GRS", 6%Z);
      ("GZRS", 6%Z); ("RA_GZRS", 6%Z) ].

Definition PUE_AZURE : float := Q2Qc 1.185.

Definition region (country key : string) (ci : Z) : gmap string pyval :=
  list_to_map [ ("country", Str country); (key, Int ci) ].

Definition REGION_TO_COUNTRY_CARBON_INTENSITY
  : gmap string (gmap string pyval) :=
  list_to_map
    [ ("australiaeast", region "New South Wales" "carbon_intensity" 552);
      ("centralus", region "Iowa" "carbon_intensity" 384);
      ("eastasia", region "Hong Kong" "carbon_intensity" 560);
      ("eastus", region "Virginia" "carbon_intensity" 384);
      ("eastus2", region "Virginia" "carbon_intensity" 384);
      ("francecentral", region "France" "carbon_intensity" 44);
      ("francesouth", region "France" "carbon" 44);
      ("germanywestcentral", region "Germany" "carbon_intensity" 344);
      ("northcentralus", region "Illinois" "carbon_intensity" 384);
      ("northeurope", region "Ireland" "carbon_intensity" 280);
      ("southeastasia", region "Singapore" "carbon_intensity" 499);
      ("swedencentral", region "Sweden" "carbon_intensity" 36);
      ("uaenorth", region "Dubai" "carbon_intensity" 493);
      ("uksouth", region "London" "carbon_intensity" 211);
      ("westeurope", region "Netherlands" "carbon_intensity" 253);
      ("westus", region "California" "carbon_intensity" 384);
      ("westus2", region "Washington" "carbon_intensity" 384);
      ("centralindia", region "India" "carbon_intensity" 708) ].

End constants.

(** ** backend/src/schemas *)

Module schemas.

(** [Resource] and [ComputeResource]: the identity of the resource, its time
    points, and its attributes by name, as [setattr] addresses them.  A
    [list[float]] attribute that was never assigned holds its declared
    default, the empty list; a float attribute its declared default. *)
Record Resource := mkResource {
  id : string;
  name : option string;
  time_points : list datetime;
  lists : gmap string (list float);
  floats : gmap string float
}.

Definition list_attr (r : Resource) (attr : string) : list float :=
  default [] (lists r !! attr).

Definition float_default (attr : string) : float :=
  if decide (attr = "pue") then 1 else 0.

Definition float_attr (r : Resource) (attr : string) : float :=
  default (float_default attr) (floats r !! attr).

Definition cpu_util (r : Resource) := list_attr r "cpu_util".
Definition requested_cpu (r : Resource) := list_attr r "requested_cpu".
Definition requested_memory (r : Resource) := list_attr r "requested_memory".
Definition storage_capacity (r : Resource) := list_attr r "storage_capacity".
Definition carbon_intensity (r : Resource) := float_attr r "carbon_intensity".
Definition pue (r : Resource) := float_attr r "pue".

(** [setattr(resource, attr, values)] for a list attribute. *)
Definition set_list (attr : string) (v : list float) (r : Resource)
  : Resource :=
  mkResource (id r) (name r) (time_points r) (<[attr := v]> (lists r))
             (floats r).

(** [setattr(resource, attr, value)] for a float attribute. *)
Definition set_float (attr : string) (v : float) (r : Resource) : Resource :=
  mkResource (id r) (name r) (time_points r) (lists r)
             (<[attr := v]> (floats r)).

(** schemas/pod.py *)
Record Pod := mkPod {
  pod_resource :> Resource;
  app : string;
  paas : string;
  namespace : string
}.

(** schemas/application.py and schemas/cluster.py: the same fields, under
    two classes. *)
Inductive resource_cls := Application | Cluster.

Record Group := mkGroup {
  cls : resource_cls;
  group_resource :> Resource;
  pods : list Pod
}.

(** schemas/storage_resource.py *)
Record StorageResource := mkStorageResource {
  storage_resource :> Resource;
  storage_type : string;
  replication_type : string;
  size_gb : float;
  duration_seconds : Z
}.

(** The classes that inherit from [Resource]: the [Resource] part of an
    object can be read and replaced. *)
Class IsResource (A : Type) := {
  resource_of : A → Resource;
  with_resource : Resource → A → A;
  resource_of_with_resource r a : resource_of (with_resource r a) = r
}.

#[global] Instance Resource_is_resource : IsResource Resource :=
  {| resource_of r := r; with_resource r _ := r;
     resource_of_with_resource _ _ := eq_refl |}.
#[global] Instance Pod_is_resource : IsResource Pod :=
  {| resource_of p := pod_resource p;
     with_resource r p := mkPod r (app p) (paas p) (namespace p);
     resource_of_with_resource _ _ := eq_refl |}.
#[global] Instance Group_is_resource : IsResource Group :=
  {| resource_of g := group_resource g;
     with_resource r g := mkGroup (cls g) r (pods g);
     resource_of_with_resource _ _ := eq_refl |}.
#[global] Instance StorageResource_is_resource : IsResource StorageResource :=
  {| resource_of s := storage_resource s;
     with_resource r s :=
       mkStorageResource r (storage_type s) (replication_type s) (size_gb s)
                         (duration_seconds s);
     resource_of_with_resource _ _ := eq_refl |}.

End schemas.

Import schemas.

(** ** The evaluator's builtins

    The evaluator ([npx if-run]) is an external process.  The two builtins
    that the node classes below configure are modelled the way the test
    helpers of the repository replicate them
    (tests/.../computation/computation_helpers.py): [Interpolation] with
    method [linear] is [np.interp] over the configured points, [Multiply] is
    the product of its input parameters.  An output parameter written
    [" = 'name' / d"] stores the result divided by [d] under [name]. *)

Module IF.

(** A value of one input record of the manifest. *)
Inductive value :=
| Num (q : float)
| Time (t : datetime).

Definition num (v : value) : result float :=
  match v with
  | Num q => mret q
  | Time _ => raise (TypeError "not a number")
  end.

(** [ModelUtilities]: the builtin a node selects, with its config. *)
Inductive ModelUtilities :=
| Interpolation (x y : list float) (input_parameter output_parameter : string)
| Multiply (input_parameters : list string) (output_parameter : string)
           (divisor : float).

Definition product (row : gmap string value) (acc : float) (param : string)
  : result float :=
  v ← getitem row param; q ← num v; mret (acc * q).

(** One node applied to one input record: the record with the output
    parameter added. *)
Definition evaluate (row : gmap string value) (node : ModelUtilities)
  : result (gmap string value) :=
  match node with
  | Interpolation x y input output =>
      v ← getitem row input;
      q ← num v;
      out ← np.interp [q] x y;
      mret (<[output := Num (default 0 (head out))]> row)
  | Multiply inputs output divisor =>
      p ← for_each (product row) inputs 1;
      mret (<[output := Num (p / divisor)]> row)
  end.

(** The nodes of a pipeline applied in order to one input record. *)
Definition run_pipeline (pipeline : list ModelUtilities)
    (row : gmap string value) : result (gmap string value) :=
  for_each evaluate pipeline row.

End IF.

(** ** impact_framework/models *)

Definition getindex {A} (l : list A) (i : nat) : result A :=
  match l !! i with
  | Some v => mret v
  | None => raise (IndexError "list index out of range")
  end.

Module TeadsCurve.

(** [TeadsCurve.__init__]: the teads-curve data points. *)
Definition config : IF.ModelUtilities :=
  IF.Interpolation
    [Q2Qc 0; Q2Qc 10; Q2Qc 50; Q2Qc 100]
    [Q2Qc 0.12; Q2Qc 0.32; Q2Qc 0.75; Q2Qc 1.02]
    "cpu/utilization" "tdp-ratio".

Definition fill_inputs (compute_resource : Resource) (time_index : nat)
  : result (gmap string IF.value) :=
  t ← getindex (time_points compute_resource) time_index;
  u ← getindex (cpu_util compute_resource) time_index;
  mret (<["cpu/utilization" := IF.Num (Py.min (u * Q2Qc 100) (Q2Qc 100))]>
          {[ "timestamp" := IF.Time t ]}).

End TeadsCurve.

Module PCpu.
Definition config : IF.ModelUtilities :=
  IF.Multiply ["tdp-ratio"; "cpu/thermal-design-power"] "cpu/power"
              (Q2Qc 1000).
End PCpu.

Module ECpu.
Definition config : IF.ModelUtilities :=
  IF.Multiply ["cpu/power"; "duration"] "cpu/energy" (Q2Qc 3600).
End ECpu.

Module PStorage.

Definition config : IF.ModelUtilities :=
  IF.Multiply ["storage/requested"; "power/coefficient"] "storage/power" 1.

Definition fill_inputs (storage_resource : StorageResource)
    (time_index : nat) : result (gmap string IF.value) :=
  unknown ← getitem constants.STORAGE_POWER_COEFFICIENT_MAPPING "UNKNOWN";
  let power_coefficient :=
    Py.get constants.STORAGE_POWER_COEFFICIENT_MAPPING
           (upper (storage_type storage_resource)) unknown in
  let replication_factor :=
    Py.get constants.STORAGE_REPLICATION_FACTORS
           (upper (replication_type storage_resource)) 1%Z in
  let effective_size :=
    size_gb storage_resource * Q2Qc (inject_Z replication_factor) in
  mret (<["power/coefficient" := IF.Num power_coefficient]>
          {[ "storage/requested" := IF.Num effective_size ]}).

End PStorage.

Module EStorage.

Definition config : IF.ModelUtilities :=
  IF.Multiply ["storage/power"; "duration/seconds"] "energy" (Q2Qc 3600).

Definition fill_inputs (storage_resource : StorageResource)
    (time_index : nat) : result (gmap string IF.value) :=
  mret {[ "duration/seconds" :=
            IF.Num (Q2Qc (inject_Z (duration_seconds storage_resource))) ]}.

End EStorage.

Module MStorage.

Definition config : IF.ModelUtilities :=
  IF.Multiply
    ["storage/requested"; "storage/embodied-coefficient"; "duration/seconds"]
    "carbon-embodied" (Q2Qc 126230400).

Definition fill_inputs (storage_resource : StorageResource)
    (time_index : nat) : result (gmap string IF.value) :=
  unknown ← getitem constants.STORAGE_EMBODIED_COEFFICIENT_MAPPING "UNKNOWN";
  let embodied_coefficient :=
    Py.get constants.STORAGE_EMBODIED_COEFFICIENT_MAPPING
           (upper (storage_type storage_resource)) unknown in
  mret {[ "storage/embodied-coefficient" := IF.Num embodied_coefficient ]}.

End MStorage.

Module SciO.
Definition fill_inputs (compute_resource : Resource) (time_index : nat)
  : result (gmap string IF.value) :=
  mret {[ "grid/carbon-intensity" :=
            IF.Num (carbon_intensity compute_resource) ]}.
End SciO.

Module SciEPue.
Definition fill_inputs (compute_resource : Resource) (time_index : nat)
  : result (gmap string IF.value) :=
  mret {[ "pue" := IF.Num (pue compute_resource) ]}.
End SciEPue.

Module SciMcpu.
Definition fill_inputs (pod : Pod) (time_index : nat)
  : result (gmap string IF.value) :=
  reserved ← getindex (requested_cpu pod) time_index;
  mret (<["resources-total" := IF.Num (Q2Qc 66)]>
          {[ "resources-reserved" := IF.Num reserved ]}).
End SciMcpu.

Module PMem.
Definition fill_inputs (pod : Pod) (time_index : nat)
  : result (gmap string IF.value) :=
  requested ← getindex (requested_memory pod) time_index;
  mret {[ "memory/requested" := IF.Num (requested / Q2Qc 1000000000) ]}.
End PMem.

(** The CPU chain of the compute profiles for one time index: the
    teads-curve input of the resource, completed with the thermal design power
    that the cloud-metadata lookup provides and the sampling duration, through
    the nodes teads-curve, p-cpu and e-cpu. *)
Definition cpu_chain (compute_resource : Resource) (time_index : nat)
    (thermal_design_power duration : float) : result (gmap string IF.value) :=
  row ← TeadsCurve.fill_inputs compute_resource time_index;
  IF.run_pipeline [TeadsCurve.config; PCpu.config; ECpu.config]
    (<["duration" := IF.Num duration]>
       (<["cpu/thermal-design-power" := IF.Num thermal_design_power]> row)).

(** The storage power node on one storage resource. *)
Definition storage_power (storage_resource : StorageResource)
    (time_index : nat) : result (gmap string IF.value) :=
  row ← PStorage.fill_inputs storage_resource time_index;
  IF.evaluate row PStorage.config.

(** ** Python slicing idiom shared by the executors and the cluster grouping *)

(** [range(start, stop, step)] for non-negative arguments; a zero step
    raises [ValueError]. *)
Definition range (start stop step : nat) : result (list nat) :=
  if decide (step = 0)%nat then
    raise (ValueError "range() arg 3 must not be zero")
  else
    mret ((λ k, start + k * step)%nat
            <$> seq 0 ((stop - start + step - 1) / step)).

(** [[l[x : x + n] for x in range(0, len(l), n)]] *)
Definition slices {A} (n : nat) (l : list A) : result (list (list A)) :=
  starts ← range 0 (length l) n;
  mret ((λ x, take n (drop x l)) <$> starts).

(** ** backend/src/utils *)

Module helpers.

(** [remove_unnecessary]: [re.sub(r"\d", "", s)]. *)
Fixpoint remove_unnecessary (string_with_digits : string) : string :=
  match string_with_digits with
  | EmptyString => EmptyString
  | String c s' =>
      if is_digit c then remove_unnecessary s'
      else String c (remove_unnecessary s')
  end.


(** common/enums.py *)
Inductive SamplingRate :=
| FIFTEEN_SECONDS | THIRTY_SECONDS | ONE_MINUTE | FIVE_MINUTES
| THIRTY_MINUTES | ONE_HOUR | SIX_HOURS | ONE_DAY.

(** common/constants.py, in seconds. *)
Definition RATE_TO_DURATION (rate : SamplingRate) : Z :=
  match rate with
  | FIFTEEN_SECONDS => 15
  | THIRTY_SECONDS => 30
  | ONE_MINUTE => 60
  | FIVE_MINUTES => 300
  | THIRTY_MINUTES => 1800
  | ONE_HOUR => 3600
  | SIX_HOURS => 21600
  | ONE_DAY => 86400
  end.

(** The [while current_timepoint <= interval_end] loop of
    [get_timestamps], run for at most [fuel] iterations. *)
Fixpoint timestamps_loop (fuel : nat) (current interval_end interval : float)
  : list datetime :=
  match fuel with
  | O => []
  | S fuel' =>
      if decide (current ≤ interval_end) then
        current :: timestamps_loop fuel' (current + interval) interval_end
                                   interval
      else []
  end.

(** [get_timestamps]; the loop leaves after
    [floor((end - start) / interval) + 1] iterations at the latest. *)
Definition get_timestamps (interval_start interval_end : datetime)
    (sampling_rate : SamplingRate) : list datetime :=
  let interval := Q2Qc (inject_Z (RATE_TO_DURATION sampling_rate)) in
  timestamps_loop
    (S (Z.to_nat (Qfloor ((interval_end - interval_start) / interval))))
    interval_start interval_end interval.

(** [group_clusters_by_level] *)
Definition group_clusters_by_level (cluster_list : list string)
    (grouping_level : nat) : result (list (list string)) :=
  slices grouping_level cluster_list.

End helpers.

Module PaasCiMapper.

(** [__extract_zone_from_paas]: [None] when no part names a zone. *)
Definition extract_zone_from_paas (paas : string) : option string :=
  let direct_loc := helpers.remove_unnecessary (upper paas) in
  match constants.ZONES !! direct_loc with
  | Some zone => Some zone
  | None =>
      let parts := split_on "-"%char (upper paas) in
      head (omap (λ part, constants.ZONES !! helpers.remove_unnecessary part)
                 parts)
  end.

(** [calculate_ci]; the zone is [None] when the extraction found none. *)
Definition calculate_ci (zone : option string) : result constants.pyval :=
  match zone ≫= (constants.REGION_TO_COUNTRY_CARBON_INTENSITY !!.) with
  | Some entry => getitem entry "carbon_intensity"
  | None => mret (constants.Int constants.CARBON_INTENSITY_EUROPE)
  end.

Definition get_ci_from_paas (paas : string) : result constants.pyval :=
  calculate_ci (extract_zone_from_paas paas).

End PaasCiMapper.


(** ** backend/src/services/argos_service.py *)

Module ArgosService.

Import helpers.

(** common/enums.py *)
Inductive HardwareConsumptionType :=
| REQUESTED_CORES | CPU_UTIL | REQUESTED_BYTES | STORAGE_CAPACITY_BYTES.

(** [config.carmen_api.labels] *)
Record Labels := {
  app_label : string;
  cluster_label : string;
  namespace_label : string;
  pod_label : string
}.

(** One series of a range-query response: [data["metric"]] and
    [data["values"]], each value a pair of an epoch timestamp and the sample
    already read as a float. *)
Record series_data := {
  metric : gmap string string;
  values : list (float * float)
}.

(** The insertion-ordered dict of pods by uid. *)
Abbreviation pod_dict := (list (string * Pod)) (only parsing).

(** [d.get(uid)] *)
Fixpoint lookup_pod (d : pod_dict) (uid : string) : option Pod :=
  match d with
  | [] => None
  | (k, pod) :: d' => if decide (k = uid) then Some pod else lookup_pod d' uid
  end.

(** [d.setdefault(uid, pod)] *)
Definition setdefault (d : pod_dict) (uid : string) (pod : Pod) : pod_dict :=
  if lookup_pod d uid is Some _ then d else (d ++ [(uid, pod)])%list.

(** [setattr(d[uid], attr, values_list)] *)
Definition assign (d : pod_dict) (uid attr : string) (v : list float)
  : pod_dict :=
  (λ kv, if decide (kv.1 = uid)
         then (kv.1, with_resource (set_list attr v (kv.2 : Pod)) kv.2)
         else kv) <$> d.

(** The attribute that [parse_pod_data] assigns for a consumption type. *)
Definition attribute (consumption_type : HardwareConsumptionType) : string :=
  match consumption_type with
  | CPU_UTIL => "cpu_util"
  | REQUESTED_CORES => "requested_cpu"
  | REQUESTED_BYTES => "requested_memory"
  | STORAGE_CAPACITY_BYTES => "storage_capacity"
  end.

Definition to_float (v : constants.pyval) : result float :=
  match v with
  | constants.Int z => mret (Q2Qc (inject_Z z))
  | constants.Str _ => raise (ValueError "Input should be a valid number")
  end.

Section Service.

(** The ambient configuration and the telemetry database. *)
Variable utcoffset : float.
Variable labels : Labels.
Variable CLUSTER_GROUPING_LEVEL : nat.
Variable exec_query :
  HardwareConsumptionType → option (list string) → list string →
  option (list string) → result (list series_data).

(** [interpolate_field_data] *)
Definition interpolate_field_data (desired_ts : list datetime)
    (pod_ts values : list float) : result (list float) :=
  let desired_ts_float :=
    (λ t, timestamp utcoffset (t + hours 1)) <$> desired_ts in
  np.interp desired_ts_float pod_ts values.

(** The alignment step of [parse_pod_data] on one raw series. *)
Definition align (desired_timestamps : list datetime)
    (raw : list (float * float)) : result (list float) :=
  let values_list := snd <$> raw in
  let time_points := fst <$> raw in
  if decide (length time_points < length desired_timestamps)%nat then
    interpolate_field_data desired_timestamps time_points values_list
  else mret values_list.

(** The body of the loop of [parse_pod_data]. *)
Definition parse_series (desired_timestamps : list datetime)
    (consumption_type : HardwareConsumptionType)
    (pod_telemetries : pod_dict) (data : series_data) : result pod_dict :=
  uid ← getitem (metric data) "uid";
  app ← getitem (metric data) (app_label labels);
  paas ← getitem (metric data) (cluster_label labels);
  namespace ← getitem (metric data) (namespace_label labels);
  pod ← getitem (metric data) (pod_label labels);
  ci ← PaasCiMapper.get_ci_from_paas paas;
  carbon_intensity ← to_float ci;
  let new_pod :=
    mkPod (mkResource uid (Some pod) desired_timestamps ∅
             (<["pue" := constants.PUE_AZURE]>
                {[ "carbon_intensity" := carbon_intensity ]}))
          app paas namespace in
  let pod_telemetries := setdefault pod_telemetries uid new_pod in
  values_list ← align desired_timestamps (values data);
  mret (assign pod_telemetries uid (attribute consumption_type)
               values_list).

Definition parse_pod_data (pod_data : list series_data)
    (pod_telemetries : pod_dict) (desired_timestamps : list datetime)
    (consumption_type : HardwareConsumptionType) : result pod_dict :=
  for_each (parse_series desired_timestamps consumption_type) pod_data
           pod_telemetries.

(** [groups[key(pod)].append(pod)] on the insertion-ordered defaultdict. *)
Fixpoint group_append (groups : list (string * list Pod)) (k : string)
    (pod : Pod) : list (string * list Pod) :=
  match groups with
  | [] => [(k, [pod])]
  | (k', g) :: groups' =>
      if decide (k' = k) then (k', (g ++ [pod])%list) :: groups'
      else (k', g) :: group_append groups' k pod
  end.

(** [create_resource] *)
Definition create_resource (resource_cls : resource_cls)
    (resource_key : string) (pods : list Pod) (idx : nat)
    (desired_timestamps : list datetime) : result Group :=
  let resource :=
    mkResource (str idx) (Some resource_key) desired_timestamps ∅ ∅ in
  a ← np.array ((λ pod : Pod, requested_cpu pod) <$> pods);
  cpu ← np.sum_axis0 a;
  a ← np.array ((λ pod : Pod, requested_memory pod) <$> pods);
  memory ← np.sum_axis0 a;
  a ← np.array ((λ pod : Pod, cpu_util pod) <$> pods);
  util ← np.mean_axis0 a;
  mret (mkGroup resource_cls
          (set_list "cpu_util" util
             (set_list "requested_memory" memory
                (set_list "requested_cpu" cpu resource)))
          pods).

(** [[factory(k, g, idx) for idx, (k, g) in enumerate(groups.items())]] *)
Fixpoint build {A} (factory : string → list Pod → nat → result A)
    (idx : nat) (groups : list (string * list Pod)) : result (list A) :=
  match groups with
  | [] => mret []
  | (k, g) :: groups' =>
      r ← factory k g idx;
      rs ← build factory (S idx) groups';
      mret (r :: rs)
  end.

(** [for pod in pods: groups[key(pod)].append(pod)] *)
Definition groups_of (key : Pod → string) (pods : list Pod)
  : list (string * list Pod) :=
  foldl (λ groups pod, group_append groups (key pod) pod) [] pods.

(** [split_pods_by_resource] *)
Definition split_pods_by_resource {A} (pods : list Pod)
    (key : Pod → string) (factory : string → list Pod → nat → result A)
  : result (list A) :=
  build factory 0 (groups_of key pods).

(** The three queries of [retrieve_telemetry_data], in order. *)
Definition tasks : list HardwareConsumptionType :=
  [CPU_UTIL; REQUESTED_CORES; REQUESTED_BYTES].

(** The [try] block for one cluster group: a [DataFetchError] of a query
    is logged and ends the block; what was parsed before stays in the
    dict.  Any other exception propagates. *)
Fixpoint fetch (desired_timestamps : list datetime)
    (applications : option (list string)) (cluster_group : list string)
    (namespaces : option (list string))
    (todo : list HardwareConsumptionType)
    (interp_pod_telemetries : pod_dict) : result pod_dict :=
  match todo with
  | [] => mret interp_pod_telemetries
  | consumption_type :: todo' =>
      match exec_query consumption_type applications cluster_group
                       namespaces with
      | inl (DataFetchError _ _ _) => mret interp_pod_telemetries
      | inl e => raise e
      | inr pod_data =>
          d ← parse_pod_data pod_data interp_pod_telemetries
                             desired_timestamps consumption_type;
          fetch desired_timestamps applications cluster_group namespaces
                todo' d
      end
  end.

(** The retrieval loop over the cluster groups. *)
Definition collect (desired_timestamps : list datetime)
    (clusters : list string) (applications namespaces : option (list string))
  : result pod_dict :=
  groups ← group_clusters_by_level clusters CLUSTER_GROUPING_LEVEL;
  for_each (λ d cluster_group,
              fetch desired_timestamps applications cluster_group
                    namespaces tasks d)
           groups [].

(** The filter after the retrieval: a pod stays when none of its three
    series is empty. *)
Definition filter_pods (interp_pod_telemetries : pod_dict) : list Pod :=
  filter (λ pod : Pod,
            requested_cpu pod ≠ [] ∧ requested_memory pod ≠ []
            ∧ cpu_util pod ≠ [])
         (interp_pod_telemetries.*2).

(** Truth value of an optional list argument. *)
Definition truthy {A} (l : option (list A)) : bool :=
  match l with
  | Some (_ :: _) => true
  | _ => false
  end.

(** The grouping key and class that [retrieve_telemetry_data] selects. *)
Definition grouping (applications : option (list string))
  : (Pod → string) * resource_cls :=
  if truthy applications then (app, Application) else (paas, Cluster).

(** The part of [retrieve_telemetry_data] after the retrieval loop. *)
Definition finish (desired_timestamps : list datetime)
    (applications : option (list string))
    (interp_pod_telemetries : pod_dict) : result (list Group) :=
  let pod_telemetries := filter_pods interp_pod_telemetries in
  if decide (pod_telemetries = []) then
    raise (DataFetchError DATA_FETCH_NO_RESULTS (Some "ArgosService")
             (Some "no pods found after filtering telemetry data"))
  else
    let '(key, resource_cls) := grouping applications in
    split_pods_by_resource pod_telemetries key
      (λ key pods idx,
         create_resource resource_cls key pods idx desired_timestamps).

Definition retrieve_telemetry_data (interval_start interval_end : datetime)
    (sampling_rate : SamplingRate) (clusters : list string)
    (applications namespaces : option (list string))
  : result (list Group) :=
  let desired_timestamps :=
    get_timestamps interval_start interval_end sampling_rate in
  d ← collect desired_timestamps clusters applications namespaces;
  finish desired_timestamps applications d.

End Service.

End ArgosService.

(** ** backend/src/utils/metrics_mapper.py *)

Module MetricsMapper.

(** One entry of the metrics dict built from the evaluator output: the
    aggregated value (absent for the initial ["timestamp"] entry) and the
    observations ([None] for ["timestamp"] and ["duration"]). *)
Record measurement := {
  aggregated : option float;
  observations : list (option float)
}.

(** metric key, attribute of the observations, attribute of the
    aggregated value. *)
Definition METRICS_MAPPER : list (string * (string * option string)) :=
  [ ("carbon", ("carbon_emitted", Some "total_carbon_emitted"));
    ("energy", ("energy_consumed", Some "total_energy_consumed"));
    ("carbon-embodied", ("carbon_embodied", Some "total_carbon_embodied"));
    ("carbon-operational",
      ("carbon_operational", Some "total_carbon_operational"));
    ("cpu/energy", ("cpu_energy", Some "total_cpu_energy"));
    ("cpu/power", ("cpu_power", None));
    ("resources-reserved", ("requested_cpu", None));
    ("memory/energy", ("memory_energy", Some "total_memory_energy"));
    ("storage/energy", ("storage_energy", Some "total_storage_energy"));
    ("storage-embodied",
      ("storage_embodied", Some "total_storage_embodied")) ].

(** [d.get(key)] on an insertion-ordered dict. *)
Fixpoint assoc {V} (d : list (string * V)) (key : string) : option V :=
  match d with
  | [] => None
  | (k, v) :: d' => if decide (k = key) then Some v else assoc d' key
  end.

(** [d[key] = v] on an insertion-ordered dict. *)
Fixpoint assoc_set {V} (d : list (string * V)) (key : string) (v : V)
  : list (string * V) :=
  match d with
  | [] => [(key, v)]
  | (k, v') :: d' =>
      if decide (k = key) then (k, v) :: d'
      else (k, v') :: assoc_set d' key v
  end.

(** The body of the loop of [map_metrics_to_resource].  The observations of
    a mapped metric hold no [None]: no key of the mapper is ["timestamp"] or
    ["duration"].  For the same reason [metrics[metric_key]["aggregated"]]
    finds its key: only the initial ["timestamp"] entry lacks it. *)
Definition map_metric (metrics : list (string * measurement))
    (resource : Resource) (entry : string * (string * option string))
  : result Resource :=
  let '(metric_key, (observations_attr, aggregated_attr)) := entry in
  match assoc metrics metric_key with
  | None => mret resource
  | Some m =>
      let resource :=
        set_list observations_attr (omap (λ o, o) (observations m)) resource in
      match aggregated_attr with
      | None => mret resource
      | Some attr =>
          match aggregated m with
          | Some v => mret (set_float attr v resource)
          | None => raise (KeyError "aggregated")
          end
      end
  end.

Definition map_metrics_to_resource (metrics : list (string * measurement))
    (resource : Resource) : result Resource :=
  for_each (map_metric metrics) METRICS_MAPPER resource.

End MetricsMapper.

(** ** impact_framework/service/if_service.py *)

Module IFService.

Import MetricsMapper.

Section Inputs.
Context {A : Type} `{IsResource A}.

(** The dict comprehension of [get_resource_inputs] for one time index:
    the inputs of the models in order, a key filled again by a later model
    taking the later value. *)
Definition combined_inputs
    (common_models : list (A → nat → result (gmap string IF.value)))
    (compute_resource : A) (time_index : nat)
  : result (gmap string IF.value) :=
  for_each (λ combined model,
              inputs ← model compute_resource time_index;
              mret (inputs ∪ combined))
           common_models ∅.

(** [IFService.get_resource_inputs]; [models] is empty where the source
    passes [None]. *)
Definition get_resource_inputs (compute_resource : A)
    (models : list (A → nat → result (gmap string IF.value)))
  : result (list (gmap string IF.value)) :=
  let common_models :=
    ([ (λ r, TeadsCurve.fill_inputs (resource_of r));
       (λ r, SciO.fill_inputs (resource_of r));
       (λ r, SciEPue.fill_inputs (resource_of r)) ] ++ models)%list in
  for_each (λ resource_inputs time_index,
              combined ← combined_inputs common_models compute_resource
                                         time_index;
              mret (resource_inputs ++ [combined])%list)
           (seq 0 (length (time_points (resource_of compute_resource)))) [].

End Inputs.

(** The entry of one resource in the evaluator output. *)
Record node_output := {
  aggregated_data : list (string * float);
  outputs : list (gmap string IF.value)
}.

(** The entry of an application, with the entries of its pods. *)
Record tree_node := {
  node :> node_output;
  children : option (gmap string node_output)
}.

(** The output file of the evaluator. *)
Record if_output_file := {
  execution_status : option string;
  tree_children : option (gmap string tree_node)
}.

(** [round(x, 4)]: to the nearest multiple of 1e-4, ties to even. *)
Definition round4 (x : float) : float :=
  let scaled := (x * Q2Qc 10000)%Qc in
  let lo := Qfloor scaled in
  let frac := (scaled - Q2Qc (inject_Z lo))%Qc in
  let n :=
    if decide (frac < Q2Qc 0.5) then lo
    else if decide (Q2Qc 0.5 < frac) then (lo + 1)%Z
    else if Z.even lo then lo else (lo + 1)%Z in
  Q2Qc (inject_Z n) / Q2Qc 10000.

(** The observation that [get_measurements_from_output] appends for one
    metric at one time point. *)
Definition observation (timepoint : gmap string IF.value) (metric : string)
  : result (option float) :=
  if decide (metric ∈ ["timestamp"; "duration"]) then mret None
  else v ← getitem timepoint metric; q ← IF.num v; mret (Some (round4 q)).

(** The inner loop over [metrics.items()] for one time point. *)
Fixpoint append_observations (timepoint : gmap string IF.value)
    (metrics : list (string * measurement))
  : result (list (string * measurement)) :=
  match metrics with
  | [] => mret []
  | (metric, metric_data) :: metrics' =>
      o ← observation timepoint metric;
      rest ← append_observations timepoint metrics';
      mret ((metric,
             {| aggregated := aggregated metric_data;
                observations := (observations metric_data ++ [o])%list |})
              :: rest)
  end.

Definition get_measurements_from_output {N} (node_of : N → node_output)
    (if_output : gmap string N) (compute_resource_id : string)
  : result (list (string * measurement)) :=
  let metrics :=
    [("timestamp", {| aggregated := None; observations := [] |})] in
  entry ← getitem if_output compute_resource_id;
  let metrics :=
    foldl (λ metrics '(metric, v),
             assoc_set metrics metric
               {| aggregated := Some (round4 v); observations := [] |})
          metrics (aggregated_data (node_of entry)) in
  for_each (λ metrics timepoint, append_observations timepoint metrics)
           (outputs (node_of entry)) metrics.

(** Objects are mutated in place: a function that updates a list of
    objects returns the state in which it leaves them, together with the
    exception that ended it, if any. *)
Definition outcome (S R : Type) : Type := (S * result R)%type.

Section Parse.
Context {A : Type} `{IsResource A}.

(** [aggregate_app_level]: the resources before the one that raises keep
    their new metrics. *)
Fixpoint aggregate_app_level (compute_resources : list A)
    (if_output : gmap string tree_node) : outcome (list A) unit :=
  match compute_resources with
  | [] => ([], mret ())
  | compute_resource :: rest =>
      match
        metrics ← get_measurements_from_output node if_output
                    (id (resource_of compute_resource));
        map_metrics_to_resource metrics (resource_of compute_resource)
      with
      | inl e => (compute_resource :: rest, inl e)
      | inr r =>
          let '(rest', out) := aggregate_app_level rest if_output in
          (with_resource r compute_resource :: rest', out)
      end
  end.

(** [parse_if_output] as the chunk workers call it
    ([emission_breakdown_at_pod_level] keeps its default [False]; the
    pod-level regrouping belongs to the App profile, which runs no
    chunks).  [file] is what [read_file] returns for the output file of
    [file_id]. *)
Definition parse_if_output (file : result if_output_file)
    (compute_resources : list A) (file_id : nat)
  : outcome (list A) unit :=
  match file with
  | inl e => (compute_resources, inl e)
  | inr if_output =>
      match execution_status if_output with
      | None => (compute_resources, raise (KeyError "execution"))
      | Some status =>
          if decide (status ≠ "success") then
            let err_text :=
              "IF has failed to calculate the carbon impact for file ID "
              +:+ str file_id +:+ "." in
            (compute_resources,
             raise (KnownException IF_EXECUTION_FAILED (Some err_text)))
          else
            match tree_children if_output with
            | None => (compute_resources, raise (KeyError "tree"))
            | Some if_output =>
                aggregate_app_level compute_resources if_output
            end
      end
  end.

End Parse.

End IFService.

(** ** impact_framework/service/if_app_service.py *)

Module IFAppService.

(** The default of the parameter [models]. *)
Definition default_models
  : list (Pod → nat → result (gmap string IF.value)) :=
  [SciMcpu.fill_inputs; PMem.fill_inputs].

Definition get_resource_inputs (pod : Pod)
    (models : list (Pod → nat → result (gmap string IF.value)))
  : result (list (gmap string IF.value)) :=
  IFService.get_resource_inputs pod models.

End IFAppService.

(** ** impact_framework/service/if_storage_service.py: the inputs *)

Module IFStorageService.

(** The default of the parameter [models]. *)
Definition default_models
  : list (StorageResource → nat → result (gmap string IF.value)) :=
  [PStorage.fill_inputs; EStorage.fill_inputs; MStorage.fill_inputs].

(** The time stamp ["2025-01-01"] that a resource without time points
    gets, as the instant it denotes.  (The time points of a storage resource
    are date strings of the billing export; like every time point of the
    model they are represented by their instants.) *)
Definition DEFAULT_TIMESTAMP : datetime := Q2Qc 1735689600.

(** The body of the loop over the time indices.  A [KeyError], [ValueError]
    or [TypeError] of a model is logged and the model is skipped; any other
    exception propagates. *)
Definition combined_inputs (storage_resource : StorageResource)
    (models : list (StorageResource → nat → result (gmap string IF.value)))
    (time_index : nat) : result (gmap string IF.value) :=
  timestamp ←
    (if decide (time_points storage_resource ≠ [])
     then getindex (time_points storage_resource) time_index
     else mret DEFAULT_TIMESTAMP);
  for_each (λ combined_inputs model,
              match model storage_resource time_index with
              | inr model_inputs => mret (model_inputs ∪ combined_inputs)
              | inl (KeyError _) | inl (ValueError _) | inl (TypeError _) =>
                  mret combined_inputs
              | inl e => raise e
              end)
           models
           (<["grid/carbon-intensity" :=
                IF.Num (carbon_intensity storage_resource)]>
              {[ "timestamp" := IF.Time timestamp ]}).

Definition get_resource_inputs (storage_resource : StorageResource)
    (models : list (StorageResource → nat → result (gmap string IF.value)))
  : result (list (gmap string IF.value)) :=
  let time_points_count :=
    if decide (time_points storage_resource ≠ [])
    then length (time_points storage_resource) else 1%nat in
  for_each (λ resource_inputs time_index,
              combined ← combined_inputs storage_resource models time_index;
              mret (resource_inputs ++ [combined])%list)
           (seq 0 time_points_count) [].

End IFStorageService.

(** ** The chunked executor of if_vm_service.py and if_storage_service.py

    The resources are objects: the input list and every chunk hold
    references to them, and the parser mutates them in place.  An object is
    named by its position in the input list; [heap] holds the state of the
    objects and [refs] is the list that [run_engine] returns.

    The workers run on a thread pool.  A worker touches the objects of its
    own chunk and its own files only, and writes back under the lock, so a
    run is determined by the order in which the workers complete:
    [completion] lists the chunk indices in that order.  An exception raised
    in a worker stays in its future, which [run_engine] never inspects. *)

Module Executor.

Import IFService.

Record state (A : Type) := mkState {
  heap : list A;
  refs : list nat;
  evaluated : list nat
}.
Arguments mkState {A}.
Arguments heap {A}.
Arguments refs {A}.
Arguments evaluated {A}.

Section RunEngine.
Context {A : Type} `{IsResource A}.

(** [run_if] on a chunk under a file id, followed by the [read_file] of
    [parse_if_output] on the output file it leaves: the evaluator run,
    which is external.  The left injection is the exception of either. *)
Variable run_if : list A → nat → result if_output_file.

(** [self.run_if(chunk, file_id=index)] and
    [self.parse_if_output(chunk, file_id=index)]. *)
Definition compute_metrics (chunk : list A) (index : nat)
  : outcome (list A) unit :=
  parse_if_output (run_if chunk index) chunk index.

(** [for i, vm in enumerate(chunk): vms[index * chunk_size + i] = vm].
    An assignment out of range would raise [IndexError] in the worker and
    end the loop; since the positions increase, the assignments after it
    are out of range too, and [<[_:=_]>] leaves the list as it is. *)
Definition write_back (chunk_size index : nat) (chunk : list nat)
    (vms : list nat) : list nat :=
  foldl (λ vms '(i, vm), <[(index * chunk_size + i)%nat := vm]> vms)
        vms (imap pair chunk).

(** The state of the objects of a chunk stored back under their names. *)
Definition store (chunk : list nat) (objects : list A) (heap : list A)
  : list A :=
  foldl (λ heap '(loc, o), <[loc := o]> heap) heap (zip chunk objects).

(** [compute_metrics_for_chunk(chunk, index)] run to completion. *)
Definition compute_metrics_for_chunk (chunk_size : nat)
    (chunks : list (list nat)) (s : state A) (index : nat) : state A :=
  match chunks !! index with
  | None => s
  | Some chunk =>
      let '(objects, out) :=
        compute_metrics (omap (heap s !!.) chunk) index in
      mkState (store chunk objects (heap s))
              (if out is inr _
               then write_back chunk_size index chunk (refs s)
               else refs s)
              (evaluated s ++ [index])%list
  end.

(** [run_engine] for a profile with the given chunk size.  The result is
    the list of the file ids handed to the evaluator and what the call
    returns or raises. *)
Definition run_engine (profile_chunk_size : nat) (completion : list nat)
    (vms : list A) : list nat * result (list A) :=
  let chunk_size := Nat.min profile_chunk_size (length vms) in
  match slices chunk_size (seq 0 (length vms)) with
  | inl e => ([], inl e)
  | inr chunks =>
      let s :=
        foldl (compute_metrics_for_chunk chunk_size chunks)
              (mkState vms (seq 0 (length vms)) []) completion in
      (evaluated s, inr (omap (heap s !!.) (refs s)))
  end.

(** [IFVMService.run_engine] *)
Definition IFVMService_run_engine := run_engine 430.

(** [IFStorageService.run_engine]; the inventory and the totals that it
    logs before and after the chunks do not enter the result. *)
#[warnings="-abstract-large-number"]
Definition IFStorageService_run_engine := run_engine 10000.

End RunEngine.

End Executor.

(** ** backend/src/schemas/virtual_machine.py *)

Module virtual_machine.

Record VirtualMachine := mkVirtualMachine {
  vm_resource :> Resource;
  instance : option string;
  environment : option string;
  partition : option string;
  region : option string;
  vm_size : option string;
  service : option string;
  component : option string;
  subscription : option string
}.

End virtual_machine.

(** ** backend/src/daemon/daemon_helpers.py *)

Module daemon_helpers.

Import virtual_machine.

(** [calculate_vm_count_for_missing_regions]; the dict is returned in the
    state in which the call leaves it. *)
Definition calculate_vm_count_for_missing_regions
    (missing_region_vm_count : gmap string nat) (region : string)
  : gmap string nat :=
  if decide (constants.REGION_TO_COUNTRY_CARBON_INTENSITY !! region = None)
  then
    match missing_region_vm_count !! region with
    | None => <[region := 1%nat]> missing_region_vm_count
    | Some count => <[region := (count + 1)%nat]> missing_region_vm_count
    end
  else missing_region_vm_count.

(** [create_vm]: a row of the CSV reader maps column names to strings.  The
    carbon intensity is validated as a float by the schema. *)
Definition create_vm (row : gmap string string) (vm_id vm_size : string)
  : result VirtualMachine :=
  region ← getitem row "Region";
  service ← getitem row "Service";
  component ← getitem row "Component";
  subscription ← getitem row "Subscription";
  name ← getitem row "Name";
  instance ← getitem row "Instance";
  environment ← getitem row "Environment";
  partition ← getitem row "Partition";
  ci ← PaasCiMapper.calculate_ci
         (Some (if decide (region ≠ "-" ∧ region ≠ "") then region
                else "germanywestcentral"));
  carbon_intensity ← ArgosService.to_float ci;
  mret (mkVirtualMachine
          (mkResource vm_id (Some name) [] ∅
             (<["pue" := constants.PUE_AZURE]>
                {[ "carbon_intensity" := carbon_intensity ]}))
          (Some (if decide (instance ≠ "-") then instance else ""))
          (Some (if decide (environment ≠ "-") then environment else ""))
          (Some (if decide (partition ≠ "-") then partition else ""))
          (Some region)
          (Some vm_size)
          (Some (if decide (service ≠ "-") then service else ""))
          (Some (if decide (component ≠ "-") then component else ""))
          (Some (if decide (subscription ≠ "-") then subscription else ""))).

End daemon_helpers.

(** ** backend/src/daemon/storage_helpers.py *)

Module storage_helpers.

(** [get_storage_type]; a row maps column names to strings. *)
Definition get_storage_type (row : gmap string string) : string :=
  let product_name := lower (Py.get row "ProductName" "") in
  if contains "ssd" product_name || contains "ultra disk" product_name
     || contains "premium page blob" product_name
  then "SSD"
  else if contains "hdd" product_name then "HDD"
  else "Unknown".

(** [get_replication_type] *)
Definition get_replication_type (row : gmap string string) : string :=
  let product_name := upper (Py.get row "ProductName" "") in
  let meter_name := upper (Py.get row "MeterName" "") in
  let text_to_search := product_name +:+ " " +:+ meter_name in
  if contains "RA-GZRS" text_to_search || contains "RAGZRS" text_to_search
  then "RA_GZRS"
  else if contains "GZRS" text_to_search then "GZRS"
  else if contains "RA-GRS" text_to_search || contains "RAGRS" text_to_search
  then "RA_GRS"
  else if contains "GRS" text_to_search then "GRS"
  else if contains "ZRS" text_to_search then "ZRS"
  else if contains "LRS" text_to_search then "LRS"
  else "LRS".

End storage_helpers.

(** * Specification-level definitions *)

(** The number that a pipeline run leaves under an output parameter. *)
Definition output (run : result (gmap string IF.value)) (parameter : string)
  : option float :=
  match run with
  | inr row => match row !! parameter with
               | Some (IF.Num q) => Some q
               | _ => None
               end
  | inl _ => None
  end.

(** [a] equals [b] within the tolerance [tol]. *)
Definition within (tol a b : float) : Prop := b - tol ≤ a ∧ a ≤ b + tol.

(** The replication factor as the specification tabulates it, the type names
    read without regard to case. *)
Definition replication_factor_spec (replication_type : string) : Z :=
  if decide (upper replication_type ∈ ["LRS"; "ZRS"]) then 3
  else if decide (upper replication_type ∈ ["GRS"; "RA_GRS"; "GZRS"; "RA_GZRS"])
  then 6
  else 1.

(** The power coefficient as the specification tabulates it, in kW/GB. *)
Definition power_coefficient_spec (storage_type : string) : float :=
  if decide (upper storage_type = "SSD") then Q2Qc 0.0000012
  else if decide (upper storage_type = "HDD") then Q2Qc 0.00000065
  else Q2Qc 0.000000925.

(** The sum of a list of floats, and the column [i] of a list of series. *)
Definition total (l : list float) : float := foldr Qcplus 0 l.

Definition column (rows : list (list float)) (i : nat) : list float :=
  (λ row, default 0 (row !! i)) <$> rows.

(** The invariant of the data model: every per-time-point array of a
    resource is as long as its time points, or empty. *)
Definition series_fit (r : Resource) : Prop :=
  ∀ attr, length (list_attr r attr) = length (time_points r)
          ∨ length (list_attr r attr) = 0%nat.

(** The same on a dict of pods that were created for the grid [desired]. *)
Definition pods_fit (desired : list datetime) (d : list (string * Pod)) : Prop :=
  ∀ kv, kv ∈ d → time_points (kv.2 : Pod) = desired ∧ series_fit (kv.2 : Pod).

(** The parser leaves the objects it was given, each under its own id. *)
Definition same_objects {A : Type} `{IsResource A} (after before : list A)
  : Prop :=
  Forall2 (λ x' x, id (resource_of x') = id (resource_of x)) after before.

(** The number of chunks into which a profile splits a list. *)
Definition number_of_chunks {A : Type} (profile_chunk_size : nat)
    (vms : list A) : nat :=
  let chunk_size := Nat.min profile_chunk_size (length vms) in
  (length vms + chunk_size - 1) / chunk_size.

(** What [run_engine] is to return on [vms] when its workers complete in the
    order [completion]: every file id went to the evaluator, and the list has
    at position [k * chunk_size + j] the object that is [j]-th in chunk [k],
    in the state in which the worker of that chunk left it; so position by
    position the objects are those of the input. *)
Definition processed_in_place {A : Type} `{IsResource A}
    (run_if : list A → nat → result IFService.if_output_file)
    (profile_chunk_size : nat) (vms : list A) (completion : list nat)
    (returned : list nat * result (list A)) : Prop :=
  let chunk_size := Nat.min profile_chunk_size (length vms) in
  ∃ out,
    returned = (completion, inr out)
    ∧ length out = length vms
    ∧ (∀ k j, (j < chunk_size)%nat → (k * chunk_size + j < length vms)%nat →
         out !! (k * chunk_size + j)%nat
         = (Executor.compute_metrics run_if
              (take chunk_size (drop (k * chunk_size) vms)) k).1 !! j)
    ∧ same_objects out vms.

(** Strictly increasing abscissae, as a range query returns them. *)
Abbreviation increasing := (StronglySorted Qclt) (only parsing).

(** The input record of a pod at a time point with the time stamp [t], the
    utilization [u], the requested cores [c] and the requested memory [m]. *)
Definition app_record (pod : Pod) (t : datetime) (u c m : float)
  : gmap string IF.value :=
  <["memory/requested" := IF.Num (m / Q2Qc 1000000000)]>
    (<["resources-total" := IF.Num (Q2Qc 66)]>
       (<["resources-reserved" := IF.Num c]>
          (<["pue" := IF.Num (pue pod)]>
             (<["grid/carbon-intensity" := IF.Num (carbon_intensity pod)]>
                (<["cpu/utilization" :=
                     IF.Num (Py.min (u * Q2Qc 100) (Q2Qc 100))]>
                   {[ "timestamp" := IF.Time t ]}))))).

(** The input record of a storage resource under the time stamp
    [timestamp]. *)
Definition storage_record (s : StorageResource) (timestamp : datetime)
  : gmap string IF.value :=
  <["storage/embodied-coefficient" :=
      IF.Num (Py.get constants.STORAGE_EMBODIED_COEFFICIENT_MAPPING
                (upper (storage_type s)) (Q2Qc 90))]>
    (<["duration/seconds" := IF.Num (Q2Qc (inject_Z (duration_seconds s)))]>
       (<["power/coefficient" :=
            IF.Num (Py.get constants.STORAGE_POWER_COEFFICIENT_MAPPING
                      (upper (storage_type s)) (Q2Qc 0.000000925))]>
          (<["storage/requested" :=
               IF.Num (size_gb s
                       * Q2Qc (inject_Z
                                 (Py.get constants.STORAGE_REPLICATION_FACTORS
                                    (upper (replication_type s)) 1%Z)))]>
             (<["grid/carbon-intensity" := IF.Num (carbon_intensity s)]>
                {[ "timestamp" := IF.Time timestamp ]})))).

(** ** Example inputs *)

(** A compute resource with one time point and the given utilization. *)
Definition vm_205 (cpu_utilization : float) : Resource :=
  set_list "cpu_util" [cpu_utilization] (mkResource "vm" None [0] ∅ ∅).

Definition example_labels : ArgosService.Labels :=
  {| ArgosService.app_label := "service";
     ArgosService.cluster_label := "paas";
     ArgosService.namespace_label := "namespace";
     ArgosService.pod_label := "pod" |}.

Definition example_series (uid app paas : string)
    (values : list (float * float)) : ArgosService.series_data :=
  {| ArgosService.metric :=
       list_to_map [ ("uid", uid); ("service", app); ("paas", paas);
                     ("namespace", "ns"); ("pod", uid) ];
     ArgosService.values := values |}.

(** A database with two pods of one cluster and two applications; every
    query returns one sample per hour for both. *)
Definition example_two_pods (_ : ArgosService.HardwareConsumptionType)
    (_ : option (list string)) (_ : list string) (_ : option (list string))
  : result (list ArgosService.series_data) :=
  inr [ example_series "u1" "app1" "paas1"
          [(Q2Qc 0, Q2Qc 2); (Q2Qc 3600, Q2Qc 4)];
        example_series "u2" "app2" "paas1"
          [(Q2Qc 0, Q2Qc 6); (Q2Qc 3600, Q2Qc 8)] ].

(** A database in which the only pod reports its CPU utilization and nothing
    else. *)
Definition example_incomplete (ct : ArgosService.HardwareConsumptionType)
    (_ : option (list string)) (_ : list string) (_ : option (list string))
  : result (list ArgosService.series_data) :=
  match ct with
  | ArgosService.CPU_UTIL =>
      inr [ example_series "u1" "app1" "paas1"
              [(Q2Qc 0, Q2Qc 2); (Q2Qc 3600, Q2Qc 4)] ]
  | _ => inr []
  end.

(** A database that returns three samples where the grid has two points. *)
Definition example_long (_ : ArgosService.HardwareConsumptionType)
    (_ : option (list string)) (_ : list string) (_ : option (list string))
  : result (list ArgosService.series_data) :=
  inr [ example_series "u1" "app1" "paas1"
          [(Q2Qc 0, Q2Qc 2); (Q2Qc 1800, Q2Qc 3); (Q2Qc 3600, Q2Qc 4)] ].

(** An evaluator that succeeds and reports one carbon value per resource of
    the chunk. *)
Definition example_run_if (chunk : list Resource) (index : nat)
  : result IFService.if_output_file :=
  inr {| IFService.execution_status := Some "success";
         IFService.tree_children :=
           Some (list_to_map
                   ((λ r : Resource,
                       (id r,
                        {| IFService.node :=
                             {| IFService.aggregated_data := [("carbon", 1)];
                                IFService.outputs :=
                                  [ {[ "carbon" := IF.Num 1 ]} ] |};
                           IFService.children := None |})) <$> chunk)) |}.

(** The output entry of a resource with one row and one carbon value. *)
Definition example_node : IFService.tree_node :=
  {| IFService.node :=
       {| IFService.aggregated_data := [("carbon", 1)];
          IFService.outputs := [ {[ "carbon" := IF.Num 1 ]} ] |};
     IFService.children := None |}.

(** A geo-redundant solid-state disk of 100 GB, billed for one day. *)
Definition example_disk : StorageResource :=
  mkStorageResource (mkResource "disk" (Some "Premium SSD") [] ∅ ∅)
    "ssd" "GRS" (Q2Qc 100) 86400.

(** * Properties *)

(** ** The CPU chain *)

Lemma Qc_eq_this (a b : Qc) : this a = this b → a = b.
Proof. intros E. apply Qc_is_canon. rewrite E. reflexivity. Qed.

Ltac Qc_compute := apply Qc_eq_this; vm_compute; reflexivity.

Lemma fill_inputs_at (r : Resource) (i : nat) (t : datetime) (u : float) :
  time_points r !! i = Some t → cpu_util r !! i = Some u →
  TeadsCurve.fill_inputs r i =
    inr (<["cpu/utilization" := IF.Num (Py.min (u * Q2Qc 100) (Q2Qc 100))]>
           {[ "timestamp" := IF.Time t ]}).
Proof.
  intros Ht Hu. unfold TeadsCurve.fill_inputs, getindex. by rewrite Ht, Hu.
Qed.

(** C1, as the code computes it: for thermal design power 205 W, cpu_util 0.3
    and a duration of 1800 s, the CPU chain yields tdp_ratio 0.535, cpu_power
    0.109675 kW and cpu_energy 0.0548375 kWh. *)
Theorem cpu_chain_205W_util_03 (r : Resource) (i : nat) (t : datetime) :
  time_points r !! i = Some t →
  cpu_util r !! i = Some (Q2Qc 0.3) →
  let run := cpu_chain r i (Q2Qc 205) (Q2Qc 1800) in
  output run "cpu/utilization" = Some (Py.min (Q2Qc 0.3 * Q2Qc 100) (Q2Qc 100))
  ∧ output run "tdp-ratio" = Some (Q2Qc 0.535)
  ∧ output run "cpu/power" = Some (Q2Qc 0.535 * Q2Qc 205 / Q2Qc 1000)
  ∧ output run "cpu/power" = Some (Q2Qc 0.109675)
  ∧ output run "cpu/energy" = Some (Q2Qc 0.109675 * Q2Qc 1800 / Q2Qc 3600)
  ∧ output run "cpu/energy" = Some (Q2Qc 0.0548375).
Proof.
  intros Ht Hu run. subst run. unfold cpu_chain.
  rewrite (fill_inputs_at r i t _ Ht Hu).
  repeat split; vm_compute; f_equal; Qc_compute.
Qed.

Lemma cpu_chain_205W_util_03_witness :
  let run := cpu_chain (vm_205 (Q2Qc 0.3)) 0 (Q2Qc 205) (Q2Qc 1800) in
  output run "tdp-ratio" = Some (Q2Qc 0.535)
  ∧ output run "cpu/power" = Some (Q2Qc 0.109675)
  ∧ output run "cpu/energy" = Some (Q2Qc 0.0548375).
Proof.
  pose proof (cpu_chain_205W_util_03 (vm_205 (Q2Qc 0.3)) 0 0
                eq_refl eq_refl) as (_ & H1 & _ & H2 & _ & H3).
  exact (conj H1 (conj H2 H3)).
Defined.

(** C1, as stated: the values 0.5525, 0.1133 and 0.0567 are not reached
    within 1e-3; each of the three misses. *)
Lemma cpu_chain_spec_values_off :
  let run := cpu_chain (vm_205 (Q2Qc 0.3)) 0 (Q2Qc 205) (Q2Qc 1800) in
  (∀ v, output run "tdp-ratio" = Some v → ¬ within (Q2Qc 0.001) v (Q2Qc 0.5525))
  ∧ (∀ v, output run "cpu/power" = Some v
          → ¬ within (Q2Qc 0.001) v (Q2Qc 0.1133))
  ∧ (∀ v, output run "cpu/energy" = Some v
          → ¬ within (Q2Qc 0.001) v (Q2Qc 0.0567)).
Proof.
  cbv zeta.
  repeat split; intros v Hv; vm_compute in Hv; injection Hv as <-;
    intros [Hlo _]; vm_compute in Hlo; by apply Hlo.
Qed.

(** ** The storage power node *)

Lemma replication_factor_lookup (k : string) :
  Py.get constants.STORAGE_REPLICATION_FACTORS k 1%Z =
    if decide (k ∈ ["LRS"; "ZRS"]) then 3%Z
    else if decide (k ∈ ["GRS"; "RA_GRS"; "GZRS"; "RA_GZRS"]) then 6%Z
    else 1%Z.
Proof.
  unfold Py.get, constants.STORAGE_REPLICATION_FACTORS. simpl list_to_map.
  repeat (destruct (decide (_ ∈ _)) as [Hin|?];
          [repeat (apply elem_of_cons in Hin as [->|Hin]; [done|]);
           by inversion Hin|]).
  rewrite !lookup_insert_ne, lookup_empty; [done|..]; intros <-; set_solver.
Qed.

Lemma power_coefficient_lookup (k : string) :
  Py.get constants.STORAGE_POWER_COEFFICIENT_MAPPING k (Q2Qc 0.000000925) =
    if decide (k = "SSD") then Q2Qc 0.0000012
    else if decide (k = "HDD") then Q2Qc 0.00000065
    else Q2Qc 0.000000925.
Proof.
  unfold Py.get, constants.STORAGE_POWER_COEFFICIENT_MAPPING.
  simpl list_to_map.
  destruct (decide (k = "SSD")) as [->|?]; [done|].
  destruct (decide (k = "HDD")) as [->|?]; [done|].
  destruct (decide (k = "UNKNOWN")) as [->|?]; [done|].
  by rewrite !lookup_insert_ne, lookup_empty.
Qed.

(** C2: the storage power node hands the evaluator the size already
    multiplied by the replication factor, and the power is that effective size
    times the coefficient of the storage type. *)
Theorem storage_power_replication_before_power (s : StorageResource) (i : nat) :
  let effective_size :=
    size_gb s * Q2Qc (inject_Z (replication_factor_spec (replication_type s))) in
  output (PStorage.fill_inputs s i) "storage/requested" = Some effective_size
  ∧ output (PStorage.fill_inputs s i) "power/coefficient"
    = Some (power_coefficient_spec (storage_type s))
  ∧ output (storage_power s i) "storage/power"
    = Some (effective_size * power_coefficient_spec (storage_type s)).
Proof.
  intros effective_size. subst effective_size.
  unfold storage_power, PStorage.fill_inputs, replication_factor_spec,
    power_coefficient_spec.
  change (getitem constants.STORAGE_POWER_COEFFICIENT_MAPPING "UNKNOWN")
    with (inr (Q2Qc 0.000000925) : result float).
  cbn [mbind result_bind mret result_ret].
  rewrite replication_factor_lookup, power_coefficient_lookup.
  set (size := size_gb s * _). set (coefficient := if decide _ then _ else _).
  repeat split; [done..|].
  unfold IF.evaluate, PStorage.config, for_each, IF.product, getitem.
  rewrite (lookup_insert_ne _ "power/coefficient" "storage/requested") by done.
  rewrite lookup_singleton_eq, lookup_insert_eq.
  cbn. rewrite lookup_insert_eq. f_equal.
  unfold Qcdiv. rewrite Qcmult_1_l. change (/ 1) with 1. by rewrite Qcmult_1_r.
Qed.

(** ** The carbon-intensity lookup *)

(** C8, at the zone where the code leaves the claim: the entry of
    ["francesouth"] spells its key ["carbon"], so the lookup of
    ["carbon_intensity"] raises [KeyError] instead of returning 44. *)
Theorem calculate_ci_francesouth_raises :
  PaasCiMapper.calculate_ci (Some "francesouth")
    = inl (KeyError "carbon_intensity")
  ∧ constants.ZONES !! "NCE" = Some "francesouth"
  ∧ PaasCiMapper.get_ci_from_paas "nce" = inl (KeyError "carbon_intensity").
Proof. repeat split; vm_compute; reflexivity. Qed.

(** Every other zone gets a value: its table entry when it has one, the
    European average otherwise. *)
Lemma calculate_ci_other_zones (zone : option string) :
  zone ≠ Some "francesouth" →
  match zone ≫= (constants.REGION_TO_COUNTRY_CARBON_INTENSITY !!.) with
  | Some entry =>
      ∃ ci, entry !! "carbon_intensity" = Some (constants.Int ci)
            ∧ PaasCiMapper.calculate_ci zone = inr (constants.Int ci)
  | None => PaasCiMapper.calculate_ci zone = inr (constants.Int 281)
  end.
Proof.
  intros Hne. unfold PaasCiMapper.calculate_ci.
  destruct (zone ≫= _) as [entry|] eqn:E; [|done].
  destruct zone as [z|]; [|done]. simpl in E.
  apply elem_of_list_to_map_2 in E.
  repeat (apply elem_of_cons in E as [[= -> ->]|E];
          [first [done | by eexists; split; reflexivity]|]).
  by inversion E.
Qed.

(** ** The chunked executor on the empty list *)

(** C10: on the empty list both profiles raise the [ValueError] of a zero
    range step, and no file id reaches the evaluator. *)
Theorem run_engine_empty_raises {A : Type} `{IsResource A}
    (run_if : list A → nat → result IFService.if_output_file)
    (completion : list nat) :
  Nat.min 430 (length (@nil A)) = 0%nat
  ∧ Executor.IFVMService_run_engine run_if completion []
    = ([], inl (ValueError "range() arg 3 must not be zero"))
  ∧ Executor.IFStorageService_run_engine run_if completion []
    = ([], inl (ValueError "range() arg 3 must not be zero")).
Proof.
  unfold Executor.IFVMService_run_engine, Executor.IFStorageService_run_engine,
    Executor.run_engine.
  simpl length. rewrite !Nat.min_0_r. by repeat split.
Qed.

(** ** The output parser on a failed run *)

(** C6: when the output file reports a status other than ["success"], the
    parser raises the IF_EXECUTION_FAILED exception whose text carries the file
    id, and leaves every resource of the chunk as it was; the worker of the
    chunk ends with that exception. *)
Theorem parse_if_output_failed_status {A : Type} `{IsResource A}
    (if_output : IFService.if_output_file) (status : string)
    (compute_resources : list A) (file_id : nat) :
  IFService.execution_status if_output = Some status →
  status ≠ "success" →
  let err :=
    KnownException IF_EXECUTION_FAILED
      (Some ("IF has failed to calculate the carbon impact for file ID "
             +:+ str file_id +:+ ".")) in
  IFService.parse_if_output (inr if_output) compute_resources file_id
    = (compute_resources, inl err)
  ∧ (∀ run_if, run_if compute_resources file_id = inr if_output →
       Executor.compute_metrics run_if compute_resources file_id
       = (compute_resources, inl err))
  ∧ (∀ other_id, str other_id = str file_id → other_id = file_id).
Proof.
  intros Hstatus Hne err. unfold IFService.parse_if_output.
  rewrite Hstatus, decide_True by done.
  repeat split.
  - intros run_if Hrun. unfold Executor.compute_metrics. rewrite Hrun.
    unfold IFService.parse_if_output. by rewrite Hstatus, decide_True.
  - intros other_id. apply (inj pretty).
Qed.

Lemma parse_if_output_failed_status_witness :
  IFService.parse_if_output
    (inr {| IFService.execution_status := Some "failure";
            IFService.tree_children := None |})
    [vm_205 (Q2Qc 0.3)] 7
  = ([vm_205 (Q2Qc 0.3)],
     inl (KnownException IF_EXECUTION_FAILED
            (Some "IF has failed to calculate the carbon impact for file ID 7."))).
Proof.
  refine (proj1 (parse_if_output_failed_status
                   {| IFService.execution_status := Some "failure";
                      IFService.tree_children := None |}
                   "failure" [vm_205 (Q2Qc 0.3)] 7 eq_refl _)).
  by vm_compute.
Defined.

(** ** The telemetry aligner: interpolation *)

Lemma Qc_lt_add_pos (x y : Qc) : 0 < y → x < x + y.
Proof. intros. rewrite <- (Qcplus_0_r x) at 1. by apply Qcplus_lt_mono_l. Qed.

Lemma Qc_sub_ne_0 (a b : Qc) : a < b → b - a ≠ 0.
Proof.
  intros Hlt E. apply (Qclt_not_eq _ _ Hlt). symmetry.
  rewrite <- (Qcplus_0_l a), <- E. ring.
Qed.

Lemma interp_from_last_hit (x : float) (q : float * float)
    (rest : list (float * float)) :
  q.1 = x → increasing (q.1 :: rest.*1) → np.interp_from x q rest = q.2.
Proof.
  intros <- Hs. destruct rest as [|q' rest']; [done|]. simpl.
  apply StronglySorted_inv in Hs as [_ Hall].
  apply Forall_cons in Hall as [Hlt _].
  rewrite decide_False by by apply Qclt_not_le.
  by rewrite decide_True.
Qed.

Lemma interp_from_segment (rest : list (float * float)) :
  ∀ (p : float * float) (x : float) (j : nat) (a b : float * float),
    increasing (p.1 :: rest.*1) →
    (p :: rest) !! j = Some a → (p :: rest) !! S j = Some b →
    a.1 ≤ x → x ≤ b.1 →
    np.interp_from x p rest = a.2 + (b.2 - a.2) * (x - a.1) / (b.1 - a.1).
Proof.
  induction rest as [|q rest IH]; intros p x j a b Hs Ha Hb Hax Hxb.
  { by destruct j. }
  pose proof Hs as Hs'.
  apply StronglySorted_inv in Hs' as [Hrest Hall].
  pose proof Hall as Hall'. apply Forall_cons in Hall' as [Hpq _].
  destruct j as [|j]; simpl in Ha, Hb.
  - injection Ha as <-. injection Hb as <-. simpl.
    pose proof (Qc_sub_ne_0 _ _ Hpq) as Hne.
    destruct (decide (q.1 ≤ x)) as [Hqx|Hqx].
    + assert (q.1 = x) as E by by apply Qcle_antisym.
      rewrite (interp_from_last_hit x q rest E Hrest). rewrite <- E. by field.
    + destruct (decide (p.1 = x)) as [<-|Hpx]; by field.
  - simpl. rewrite decide_True.
    + by apply (IH q x j a b).
    + apply Qcle_trans with a.1; [|done].
      destruct j as [|j]; simpl in Ha.
      * injection Ha as <-. apply Qcle_refl.
      * apply Qclt_le_weak. apply StronglySorted_inv in Hrest as [_ Hq].
        rewrite Forall_forall in Hq. apply Hq.
        apply list_elem_of_fmap. exists a. split; [done|].
        by apply list_elem_of_lookup_2 in Ha.
Qed.

Lemma interp_at_segment (raw : list (float * float)) (x : float) (j : nat)
    (a b : float * float) :
  increasing raw.*1 → raw !! j = Some a → raw !! S j = Some b →
  a.1 ≤ x → x ≤ b.1 →
  np.interp_at x raw = a.2 + (b.2 - a.2) * (x - a.1) / (b.1 - a.1).
Proof.
  destruct raw as [|p rest]; [done|]. intros Hs Ha Hb Hax Hxb.
  unfold np.interp_at. rewrite decide_False.
  - by apply (interp_from_segment rest p x j a b).
  - apply Qcle_not_lt. apply Qcle_trans with a.1; [|done].
    destruct j as [|j]; simpl in Ha.
    + injection Ha as <-. apply Qcle_refl.
    + apply Qclt_le_weak. apply StronglySorted_inv in Hs as [_ Hp].
      rewrite Forall_forall in Hp. apply Hp.
      apply list_elem_of_fmap. exists a. split; [done|].
      by apply list_elem_of_lookup_2 in Ha.
Qed.

Lemma interpolate_field_data_eq (utcoffset : float) (desired : list datetime)
    (raw : list (float * float)) :
  raw ≠ [] →
  ArgosService.interpolate_field_data utcoffset desired raw.*1 raw.*2
  = inr ((λ t, np.interp_at (timestamp utcoffset (t + hours 1)) raw)
           <$> desired).
Proof.
  intros Hraw. unfold ArgosService.interpolate_field_data, np.interp.
  rewrite decide_False by (by rewrite !length_fmap; intros ?).
  rewrite decide_False by (by destruct raw).
  rewrite zip_fst_snd. cbn. by rewrite <- list_fmap_compose.
Qed.

Lemma align_short (utcoffset : float) (desired : list datetime)
    (raw : list (float * float)) :
  (length raw < length desired)%nat →
  ArgosService.align utcoffset desired raw
  = ArgosService.interpolate_field_data utcoffset desired raw.*1 raw.*2.
Proof.
  intros Hlen. unfold ArgosService.align.
  by rewrite decide_True by by rewrite length_fmap.
Qed.

Lemma align_long (utcoffset : float) (desired : list datetime)
    (raw : list (float * float)) :
  (length desired ≤ length raw)%nat →
  ArgosService.align utcoffset desired raw = inr raw.*2.
Proof.
  intros Hlen. unfold ArgosService.align.
  by rewrite decide_False by (rewrite length_fmap; lia).
Qed.

(** The interpolation boundary example, on any uniform grid of three points
    and in any time zone. *)
Lemma interpolate_boundary (utcoffset : float) (t0 step : float) :
  0 < step →
  let epoch t := timestamp utcoffset (t + hours 1) in
  ArgosService.interpolate_field_data utcoffset
    [t0; t0 + step; t0 + step + step]
    [epoch t0; epoch (t0 + step + step)] [1; Q2Qc 3]
  = inr [1; Q2Qc 2; Q2Qc 3].
Proof.
  intros Hstep epoch.
  assert (E1 : epoch (t0 + step) = epoch t0 + step)
    by (unfold epoch, timestamp; ring).
  assert (E2 : epoch (t0 + step + step) = epoch t0 + step + step)
    by (unfold epoch, timestamp; ring).
  pose proof (Qc_lt_add_pos (epoch t0) step Hstep) as L1.
  pose proof (Qc_lt_add_pos (epoch t0 + step) step Hstep) as L2.
  pose proof (Qclt_trans _ _ _ L1 L2) as L3.
  unfold ArgosService.interpolate_field_data, np.interp.
  rewrite decide_False by (by intros Hn; apply Hn).
  rewrite decide_False by done. cbn -[Qcplus Qcminus Qcmult Qcdiv Qclt Qcle].
  fold (epoch t0) (epoch (t0 + step)) (epoch (t0 + step + step)).
  rewrite E1, E2. unfold np.interp_at, np.interp_from. cbn [fst snd].
  rewrite (decide_False (P := epoch t0 < epoch t0)) by apply Qcle_not_lt, Qcle_refl.
  rewrite (decide_False (P := epoch t0 + step + step ≤ epoch t0))
    by by apply Qclt_not_le.
  rewrite (decide_True (P := epoch t0 = epoch t0)) by done.
  rewrite (decide_False (P := epoch t0 + step < epoch t0))
    by by apply Qcle_not_lt, Qclt_le_weak.
  rewrite (decide_False (P := epoch t0 + step + step ≤ epoch t0 + step))
    by by apply Qclt_not_le.
  rewrite (decide_False (P := epoch t0 = epoch t0 + step))
    by by apply Qclt_not_eq.
  rewrite (decide_False (P := epoch t0 + step + step < epoch t0))
    by by apply Qcle_not_lt, Qclt_le_weak.
  rewrite (decide_True (P := epoch t0 + step + step ≤ epoch t0 + step + step))
    by apply Qcle_refl.
  do 3 f_equal.
  assert (step ≠ 0) by (intros ->; by apply (Qcle_not_lt 0 0 (Qcle_refl 0))).
  replace (Q2Qc 3) with (1 + 1 + 1) by Qc_compute.
  replace (Q2Qc 2) with (1 + 1) by Qc_compute.
  field. by apply Qc_sub_ne_0.
Qed.

(** C3: a raw series shorter than the desired grid is aligned by
    [np.interp] of the raw samples at the desired timestamps, shifted by one
    hour and read as epoch seconds.  For at least one raw sample that yields
    one value per grid point, which between two consecutive raw samples lies
    on the straight line through them; for no raw sample [np.interp] raises.
    On a uniform grid of three points with raw samples 1.0 and 3.0 at the
    shifted first and last points, the aligned series is 1.0, 2.0, 3.0. *)
Theorem align_interpolates_on_shifted_grid (utcoffset : float)
    (desired : list datetime) (raw : list (float * float)) :
  (length raw < length desired)%nat →
  let epoch t := timestamp utcoffset (t + hours 1) in
  ArgosService.align utcoffset desired raw
  = np.interp (epoch <$> desired) raw.*1 raw.*2
  ∧ (raw = [] →
     ArgosService.align utcoffset desired raw
     = inl (ValueError "array of sample points is empty"))
  ∧ (raw ≠ [] →
     ∃ aligned : list float,
       ArgosService.align utcoffset desired raw = inr aligned
       ∧ length aligned = length desired
       ∧ (∀ i t j a b,
            desired !! i = Some t →
            increasing raw.*1 →
            raw !! j = Some a → raw !! S j = Some b →
            a.1 ≤ epoch t → epoch t ≤ b.1 →
            aligned !! i
            = Some (a.2 + (b.2 - a.2) * (epoch t - a.1) / (b.1 - a.1))))
  ∧ (∀ t0 step, 0 < step →
       ArgosService.interpolate_field_data utcoffset
         [t0; t0 + step; t0 + step + step]
         [epoch t0; epoch (t0 + step + step)] [1; Q2Qc 3]
       = inr [1; Q2Qc 2; Q2Qc 3]).
Proof.
  intros Hlen epoch. rewrite align_short by done.
  split; [done|]. split; [by intros ->|]. split.
  - intros Hraw. exists ((λ t, np.interp_at (epoch t) raw) <$> desired).
    split; [by apply interpolate_field_data_eq|].
    split; [by rewrite length_fmap|].
    intros i t j a b Ht Hs Ha Hb Hat Htb.
    rewrite list_lookup_fmap, Ht. simpl. f_equal.
    by apply (interp_at_segment raw (epoch t) j a b).
  - intros t0 step Hstep. by apply interpolate_boundary.
Qed.

Lemma align_interpolates_on_shifted_grid_witness :
  (λ aligned : list float, this <$> aligned)
    <$> ArgosService.align 0 [Q2Qc 0; Q2Qc 3600; Q2Qc 7200]
          [(Q2Qc 3600, 1); (Q2Qc 10800, Q2Qc 3)]
  = inr [1%Q; 2%Q; 3%Q].
Proof.
  destruct (align_interpolates_on_shifted_grid 0
              [Q2Qc 0; Q2Qc 3600; Q2Qc 7200]
              [(Q2Qc 3600, 1); (Q2Qc 10800, Q2Qc 3)])
    as (Halign & _).
  - simpl. lia.
  - rewrite Halign. vm_compute. reflexivity.
Defined.

(** ** The telemetry aligner: grouping *)

Section Grouping.
Import ArgosService.
Variable key : Pod → string.

Definition groups_of (pods : list Pod) : list (string * list Pod) :=
  foldl (λ groups pod, group_append groups (key pod) pod) [] pods.

Lemma group_append_keys (acc : list (string * list Pod)) (k : string)
    (pod : Pod) :
  (group_append acc k pod).*1
  = if decide (k ∈ acc.*1) then acc.*1 else (acc.*1 ++ [k])%list.
Proof.
  induction acc as [|[k0 g0] acc IH]; [done|].
  simpl group_append.
  destruct (decide (k0 = k)) as [->|Hne]; rewrite !fmap_cons; simpl fst.
  - rewrite decide_True; [done|]. apply list_elem_of_here.
  - rewrite IH. destruct (decide (k ∈ acc.*1)) as [Hin|Hin].
    + rewrite decide_True; [done|]. by apply list_elem_of_further.
    + rewrite decide_False; [done|].
      intros [->|?]%elem_of_cons; done.
Qed.

Lemma elem_of_group_append (acc : list (string * list Pod)) (k : string)
    (pod : Pod) (k' : string) (g' : list Pod) :
  NoDup acc.*1 →
  (k', g') ∈ group_append acc k pod →
  (k' ≠ k ∧ ((k', g') ∈ acc))
  ∨ (k' = k ∧ ((∃ g, (k, g) ∈ acc ∧ (g' = g ++ [pod])%list)
               ∨ ((k ∉ acc.*1) ∧ g' = [pod]))).
Proof.
  induction acc as [|[k0 g0] acc IH]; simpl; intros Hnd Hin.
  - apply list_elem_of_singleton in Hin as [= -> ->]. right. split; [done|].
    right. split; [|done]. by intros ?%elem_of_nil.
  - apply NoDup_cons in Hnd as [Hk0 Hnd].
    destruct (decide (k0 = k)) as [->|Hne].
    + apply elem_of_cons in Hin as [[= -> ->]|Hin].
      * right. split; [done|]. left. exists g0. split; [|done].
        apply list_elem_of_here.
      * left. split; [|by apply list_elem_of_further].
        intros ->. apply Hk0. apply list_elem_of_fmap. by exists (k, g').
    + apply elem_of_cons in Hin as [[= -> ->]|Hin].
      * left. split; [done|]. apply list_elem_of_here.
      * destruct (IH Hnd Hin) as [[? ?]|[-> [(g & ? & ->)|[Hk ->]]]].
        -- left. split; [done|]. by apply list_elem_of_further.
        -- right. split; [done|]. left. exists g. split; [|done].
           by apply list_elem_of_further.
        -- right. split; [done|]. right. split; [|done].
           intros [->|?]%elem_of_cons; done.
Qed.

Lemma groups_of_snoc (pods : list Pod) (pod : Pod) :
  groups_of (pods ++ [pod]) = group_append (groups_of pods) (key pod) pod.
Proof. unfold groups_of. by rewrite foldl_app. Qed.

Lemma groups_of_spec (pods : list Pod) :
  NoDup (groups_of pods).*1
  ∧ (∀ k g, (k, g) ∈ groups_of pods →
       g = filter (λ pod, key pod = k) pods ∧ g ≠ [])
  ∧ (∀ pod, pod ∈ pods → key pod ∈ (groups_of pods).*1).
Proof.
  induction pods as [|pod pods (Hnd & Hel & Hcov)] using rev_ind.
  { split; [apply NoDup_nil_2|]. split; [by intros ?? ?%elem_of_nil|].
    by intros ? ?%elem_of_nil. }
  rewrite groups_of_snoc. split; [|split].
  - rewrite group_append_keys. case_decide; [done|].
    apply NoDup_app. split; [done|]. split; [|apply NoDup_singleton].
    intros x Hx ->%list_elem_of_singleton. contradiction.
  - intros k g Hin. rewrite filter_app.
    destruct (elem_of_group_append _ _ _ _ _ Hnd Hin)
      as [[Hne Hin']|[-> [(g0 & Hin' & ->)|[Hk ->]]]].
    + destruct (Hel k g Hin') as [-> ?]. split; [|done].
      rewrite filter_cons_False, filter_nil by done. by rewrite app_nil_r.
    + destruct (Hel _ g0 Hin') as [-> ?]. split.
      * by rewrite filter_cons_True, filter_nil by done.
      * by intros [? ?]%app_eq_nil.
    + split; [|done].
      rewrite filter_cons_True, filter_nil by done.
      destruct (filter _ pods) as [|p l] eqn:E; [done|]. exfalso.
      assert (p ∈ filter (λ pod0, key pod0 = key pod) pods) as Hp
        by (rewrite E; apply list_elem_of_here).
      apply list_elem_of_filter in Hp as [Hp1 Hp2].
      apply Hk. rewrite <- Hp1. by apply Hcov.
  - intros p Hp. rewrite group_append_keys.
    apply elem_of_app in Hp as [Hp| ->%list_elem_of_singleton].
    + case_decide; [by apply Hcov|].
      apply elem_of_app. left. by apply Hcov.
    + case_decide; [done|]. apply elem_of_app. right.
      apply list_elem_of_here.
Qed.
End Grouping.

(** ** The telemetry aligner: aggregation *)

Lemma add_rows_length (r r' : list float) :
  length r' = length r → length (np.add_rows r r') = length r.
Proof. intros E. unfold np.add_rows. rewrite length_zip_with. lia. Qed.

Lemma foldl_add_rows_length (rs : list (list float)) :
  ∀ r, Forall (λ r', length r' = length r) rs →
       length (foldl np.add_rows r rs) = length r.
Proof.
  induction rs as [|r1 rs IH]; intros r Hall; [done|].
  apply Forall_cons in Hall as [H1 Hall]. simpl.
  rewrite IH; [by apply add_rows_length|].
  rewrite add_rows_length by done. done.
Qed.

Lemma foldl_add_rows_lookup (rs : list (list float)) :
  ∀ r i, Forall (λ r', length r' = length r) rs →
         (i < length r)%nat →
         foldl np.add_rows r rs !! i = Some (total (column (r :: rs) i)).
Proof.
  induction rs as [|r1 rs IH]; intros r i Hall Hi.
  - apply lookup_lt_is_Some in Hi as [v Hv]. cbn [foldl]. rewrite Hv.
    unfold total, column. rewrite fmap_cons, Hv. simpl. f_equal. ring.
  - apply Forall_cons in Hall as [H1 Hall]. simpl foldl.
    rewrite IH; [| by rewrite add_rows_length | by rewrite add_rows_length].
    f_equal. unfold total, column. rewrite !fmap_cons. simpl foldr.
    pose proof Hi as Hi'. apply lookup_lt_is_Some in Hi as [v Hv].
    rewrite <- H1 in Hi'. apply lookup_lt_is_Some in Hi' as [v1 Hv1].
    unfold np.add_rows. rewrite lookup_zip_with, Hv, Hv1. simpl. ring.
Qed.

(** What [np.sum(np.array(rows), axis=0).tolist()] returns. *)
Lemma column_sums (rows : list (list float)) (s : list float) :
  (a ← np.array rows; np.sum_axis0 a) = inr s →
  rows ≠ []
  ∧ Forall (λ row, length row = length s) rows
  ∧ (∀ i, (i < length s)%nat → s !! i = Some (total (column rows i))).
Proof.
  unfold np.array. destruct rows as [|r rs]; [done|].
  case_decide as Hall; [|done]. simpl. intros [= <-].
  apply Forall_cons in Hall as [_ Hall].
  rewrite foldl_add_rows_length by done.
  split; [done|]. split; [by apply Forall_cons|].
  intros i Hi. by apply foldl_add_rows_lookup.
Qed.

Lemma array_inr (rows a : list (list float)) :
  np.array rows = inr a → a = rows.
Proof.
  unfold np.array. destruct rows; [by intros [= <-]|].
  case_decide; [by intros [= <-]|done].
Qed.

(** What [np.mean(np.array(rows), axis=0).tolist()] returns. *)
Lemma column_means (rows : list (list float)) (m : list float) :
  (a ← np.array rows; np.mean_axis0 a) = inr m →
  rows ≠ []
  ∧ Forall (λ row, length row = length m) rows
  ∧ (∀ i, (i < length m)%nat →
       m !! i = Some (total (column rows i)
                      / Q2Qc (inject_Z (Z.of_nat (length rows))))).
Proof.
  intros Hm.
  pose proof (column_sums rows) as Hsums.
  destruct (np.array rows) as [e|a] eqn:Ha; [done|].
  apply array_inr in Ha as ->.
  cbn [mbind result_bind] in Hm, Hsums. unfold np.mean_axis0 in Hm.
  destruct (np.sum_axis0 rows) as [e|s]; [done|].
  cbn [mbind result_bind mret result_ret] in Hm. injection Hm as <-.
  destruct (Hsums s eq_refl) as (? & Hlen & Hsum).
  rewrite length_fmap. split; [done|]. split; [done|].
  intros i Hi. by rewrite list_lookup_fmap, Hsum.
Qed.

Lemma build_spec {A} (factory : string → list Pod → nat → result A)
    (groups : list (string * list Pod)) :
  ∀ idx rs, ArgosService.build factory idx groups = inr rs →
            Forall2 (λ r kg, ∃ i, factory kg.1 kg.2 i = inr r) rs groups.
Proof.
  induction groups as [|[k g] groups IH]; intros idx rs Hb; simpl in Hb.
  - injection Hb as <-. constructor.
  - destruct (factory k g idx) as [|r] eqn:Hr; [done|].
    cbn [mbind result_bind] in Hb.
    destruct (ArgosService.build factory (S idx) groups) as [|rs'] eqn:Hrs;
      [done|].
    injection Hb as <-. constructor; [by exists idx|]. by apply (IH (S idx)).
Qed.

(** What a successful [create_resource] returns. *)
Lemma create_resource_inr (cls0 : resource_cls) (key : string)
    (pods0 : list Pod) (idx : nat) (desired : list datetime) (g : Group) :
  ArgosService.create_resource cls0 key pods0 idx desired = inr g →
  cls g = cls0 ∧ pods g = pods0 ∧ name g = Some key ∧ id g = str idx
  ∧ time_points g = desired
  ∧ ∃ cpu memory util,
      (a ← np.array ((λ pod : Pod, requested_cpu pod) <$> pods0);
       np.sum_axis0 a) = inr cpu
      ∧ (a ← np.array ((λ pod : Pod, requested_memory pod) <$> pods0);
         np.sum_axis0 a) = inr memory
      ∧ (a ← np.array ((λ pod : Pod, cpu_util pod) <$> pods0);
         np.mean_axis0 a) = inr util
      ∧ lists g = <["cpu_util" := util]>
                    (<["requested_memory" := memory]>
                       (<["requested_cpu" := cpu]> ∅)).
Proof.
  unfold ArgosService.create_resource. intros Hg.
  destruct (np.array ((λ pod : Pod, requested_cpu pod) <$> pods0))
    as [|a1]; [done|]. cbn [mbind result_bind] in *.
  destruct (np.sum_axis0 a1) as [|cpu]; [done|]. cbn [mbind result_bind] in *.
  destruct (np.array ((λ pod : Pod, requested_memory pod) <$> pods0))
    as [|a2]; [done|]. cbn [mbind result_bind] in *.
  destruct (np.sum_axis0 a2) as [|memory]; [done|].
  cbn [mbind result_bind] in *.
  destruct (np.array ((λ pod : Pod, cpu_util pod) <$> pods0))
    as [|a3]; [done|]. cbn [mbind result_bind] in *.
  destruct (np.mean_axis0 a3) as [|util]; [done|].
  cbn [mbind result_bind] in *. injection Hg as <-.
  repeat split. by exists cpu, memory, util.
Qed.

(** What a successful end of [retrieve_telemetry_data] returns: one resource
    per group of the filtered pods. *)
Lemma finish_inr (desired : list datetime) (applications : option (list string))
    (d : list (string * Pod)) (groups : list Group) :
  ArgosService.finish desired applications d = inr groups →
  ArgosService.filter_pods d ≠ []
  ∧ Forall2 (λ (g : Group) kg,
               ∃ idx, ArgosService.create_resource
                        (ArgosService.grouping applications).2 kg.1 kg.2 idx
                        desired = inr g)
            groups
            (ArgosService.groups_of (ArgosService.grouping applications).1
               (ArgosService.filter_pods d)).
Proof.
  unfold ArgosService.finish. case_decide as Hempty; [done|].
  destruct (ArgosService.grouping applications) as [key cls0].
  intros Hs. split; [done|].
  by apply build_spec in Hs.
Qed.

Lemma finish_no_data (desired : list datetime)
    (applications : option (list string)) (d : list (string * Pod)) :
  ArgosService.filter_pods d = [] →
  ArgosService.finish desired applications d
  = inl (DataFetchError DATA_FETCH_NO_RESULTS (Some "ArgosService")
           (Some "no pods found after filtering telemetry data")).
Proof. intros E. unfold ArgosService.finish. by rewrite decide_True. Qed.

(** The pods of the groups are the filtered pods. *)
Lemma finish_pods (desired : list datetime)
    (applications : option (list string)) (d : list (string * Pod))
    (groups : list Group) (pod : Pod) :
  ArgosService.finish desired applications d = inr groups →
  (∃ g : Group, g ∈ groups ∧ pod ∈ pods g) ↔ pod ∈ ArgosService.filter_pods d.
Proof.
  intros [_ Hall]%finish_inr.
  set (key := (ArgosService.grouping applications).1) in *.
  destruct (groups_of_spec key (ArgosService.filter_pods d))
    as (_ & Hel & Hcov).
  split.
  - intros (g & Hg & Hpod).
    apply list_elem_of_lookup in Hg as [i Hi].
    destruct (Forall2_lookup_l _ _ _ _ _ Hall Hi)
      as ([k g0] & Hkg & idx & Hcr).
    apply create_resource_inr in Hcr as (_ & Hpods & _). simpl in Hpods.
    rewrite Hpods in Hpod. apply list_elem_of_lookup_2 in Hkg.
    destruct (Hel k g0 Hkg) as [-> _].
    by apply list_elem_of_filter in Hpod as [_ ?].
  - intros Hpod. pose proof (Hcov pod Hpod) as Hk.
    apply list_elem_of_fmap in Hk as ([k g0] & Hk & Hkg). simpl in Hk.
    subst k. pose proof Hkg as Hkg'.
    apply list_elem_of_lookup in Hkg as [i Hi].
    destruct (Forall2_lookup_r _ _ _ _ _ Hall Hi) as (g & Hg & idx & Hcr).
    apply create_resource_inr in Hcr as (_ & Hpods & _). simpl in Hpods.
    exists g. split; [by apply list_elem_of_lookup_2 in Hg|].
    rewrite Hpods. destruct (Hel _ g0 Hkg') as [-> _].
    by apply list_elem_of_filter.
Qed.

Lemma retrieve_unfold (utcoffset : float) (labels : ArgosService.Labels)
    (level : nat) exec_query (interval_start interval_end : datetime)
    (sampling_rate : helpers.SamplingRate) (clusters : list string)
    (applications namespaces : option (list string))
    (d : list (string * Pod)) :
  ArgosService.collect utcoffset labels level exec_query
    (helpers.get_timestamps interval_start interval_end sampling_rate)
    clusters applications namespaces = inr d →
  ArgosService.retrieve_telemetry_data utcoffset labels level exec_query
    interval_start interval_end sampling_rate clusters applications namespaces
  = ArgosService.finish
      (helpers.get_timestamps interval_start interval_end sampling_rate)
      applications d.
Proof.
  intros Hd. unfold ArgosService.retrieve_telemetry_data. by rewrite Hd.
Qed.

(** C5: once the retrieval loop has left the dict [d], a pod is in the
    returned groups exactly when it is in [d] with none of its three series
    empty, and it is returned as it is in [d]; when no pod qualifies the call
    raises the DATA_FETCH_NO_RESULTS error. *)
Theorem incomplete_pods_dropped_or_no_data (utcoffset : float)
    (labels : ArgosService.Labels) (level : nat) exec_query
    (interval_start interval_end : datetime)
    (sampling_rate : helpers.SamplingRate) (clusters : list string)
    (applications namespaces : option (list string))
    (d : list (string * Pod)) :
  ArgosService.collect utcoffset labels level exec_query
    (helpers.get_timestamps interval_start interval_end sampling_rate)
    clusters applications namespaces = inr d →
  let returned :=
    ArgosService.retrieve_telemetry_data utcoffset labels level exec_query
      interval_start interval_end sampling_rate clusters applications
      namespaces in
  let complete (pod : Pod) :=
    requested_cpu pod ≠ [] ∧ requested_memory pod ≠ [] ∧ cpu_util pod ≠ [] in
  (∀ pod, pod ∈ ArgosService.filter_pods d ↔ pod ∈ d.*2 ∧ complete pod)
  ∧ ((∀ pod, pod ∈ d.*2 → ¬ complete pod) →
       returned
       = inl (DataFetchError DATA_FETCH_NO_RESULTS (Some "ArgosService")
                (Some "no pods found after filtering telemetry data")))
  ∧ (∀ groups, returned = inr groups →
       ∀ pod, (∃ g : Group, g ∈ groups ∧ pod ∈ pods g)
              ↔ pod ∈ d.*2 ∧ complete pod).
Proof.
  intros Hd returned complete. subst returned.
  rewrite (retrieve_unfold _ _ _ _ _ _ _ _ _ _ d Hd).
  assert (∀ pod, pod ∈ ArgosService.filter_pods d ↔ pod ∈ d.*2 ∧ complete pod)
    as Hfilter.
  { intros pod. unfold ArgosService.filter_pods.
    rewrite list_elem_of_filter. unfold complete.
    split; intros [? ?]; by split. }
  split; [done|]. split.
  - intros Hnone. apply finish_no_data.
    destruct (ArgosService.filter_pods d) as [|pod l] eqn:E; [done|].
    exfalso. destruct (proj1 (Hfilter pod)) as [Hin Hc].
    + apply list_elem_of_here.
    + by apply (Hnone pod).
  - intros groups Hgroups pod. rewrite <- Hfilter.
    by apply (finish_pods _ applications d groups pod Hgroups).
Qed.

Lemma incomplete_pods_dropped_or_no_data_witness :
  ArgosService.retrieve_telemetry_data 0 example_labels 5 example_incomplete
    (Q2Qc 0) (Q2Qc 3600) helpers.ONE_HOUR ["paas1"] None None
  = inl (DataFetchError DATA_FETCH_NO_RESULTS (Some "ArgosService")
           (Some "no pods found after filtering telemetry data")).
Proof.
  destruct (ArgosService.collect 0 example_labels 5 example_incomplete
              (helpers.get_timestamps (Q2Qc 0) (Q2Qc 3600) helpers.ONE_HOUR)
              ["paas1"] None None) as [e|d] eqn:E.
  - by vm_compute in E.
  - apply (incomplete_pods_dropped_or_no_data _ _ _ _ _ _ _ _ _ _ d E).
    vm_compute in E. injection E as <-.
    intros pod Hpod (_ & Hmem & _).
    apply list_elem_of_singleton in Hpod as ->. by apply Hmem.
Defined.

(** C4: every returned group holds the filtered pods that share its name
    under the grouping key, which is [app] with the class [Application] when
    an applications filter was supplied and [paas] with the class [Cluster]
    otherwise; its requested_cpu and requested_memory are the sums, and its
    cpu_util the mean, of the series of its pods at every index. *)
Theorem groups_sum_and_average_their_pods (utcoffset : float)
    (labels : ArgosService.Labels) (level : nat) exec_query
    (interval_start interval_end : datetime)
    (sampling_rate : helpers.SamplingRate) (clusters : list string)
    (applications namespaces : option (list string))
    (d : list (string * Pod)) (groups : list Group) (g : Group) :
  ArgosService.collect utcoffset labels level exec_query
    (helpers.get_timestamps interval_start interval_end sampling_rate)
    clusters applications namespaces = inr d →
  ArgosService.retrieve_telemetry_data utcoffset labels level exec_query
    interval_start interval_end sampling_rate clusters applications namespaces
  = inr groups →
  g ∈ groups →
  let supplied := ArgosService.truthy applications in
  let key := if supplied then app else paas in
  let series (attr : Resource → list float) :=
    (λ pod : Pod, attr pod) <$> pods g in
  cls g = (if supplied then Application else Cluster)
  ∧ pods g ≠ []
  ∧ (∃ k, name g = Some k
          ∧ pods g = filter (λ pod, key pod = k) (ArgosService.filter_pods d))
  ∧ (∀ i, (i < length (requested_cpu g))%nat →
          requested_cpu g !! i = Some (total (column (series requested_cpu) i)))
  ∧ (∀ i, (i < length (requested_memory g))%nat →
          requested_memory g !! i
          = Some (total (column (series requested_memory) i)))
  ∧ (∀ i, (i < length (cpu_util g))%nat →
          cpu_util g !! i
          = Some (total (column (series cpu_util) i)
                  / Q2Qc (inject_Z (Z.of_nat (length (pods g))))))
  ∧ (∀ pod : Pod, pod ∈ pods g →
            length (requested_cpu pod) = length (requested_cpu g)
            ∧ length (requested_memory pod) = length (requested_memory g)
            ∧ length (cpu_util pod) = length (cpu_util g)).
Proof.
  intros Hd Hret Hg supplied key series.
  rewrite (retrieve_unfold _ _ _ _ _ _ _ _ _ _ d Hd) in Hret.
  apply finish_inr in Hret as [_ Hall].
  assert (ArgosService.grouping applications
          = (key, if supplied then Application else Cluster)) as Hgrouping.
  { unfold ArgosService.grouping, key, supplied.
    by destruct (ArgosService.truthy applications). }
  rewrite Hgrouping in Hall. cbn [fst snd] in Hall.
  apply list_elem_of_lookup in Hg as [j Hj].
  destruct (Forall2_lookup_l _ _ _ _ _ Hall Hj) as ([k g0] & Hkg & idx & Hcr).
  apply list_elem_of_lookup_2 in Hkg.
  destruct (groups_of_spec key (ArgosService.filter_pods d)) as (_ & Hel & _).
  destruct (Hel k g0 Hkg) as [Hg0 Hne].
  apply create_resource_inr in Hcr
    as (Hcls & Hpods & Hname & _ & _ & cpu & memory & util & Hcpu & Hmem
        & Hutil & Hlists).
  cbn [fst snd] in *.
  assert (requested_cpu g = cpu) as Ecpu.
  { unfold requested_cpu, list_attr. rewrite Hlists.
    rewrite !lookup_insert_ne by done. by rewrite lookup_insert_eq. }
  assert (requested_memory g = memory) as Emem.
  { unfold requested_memory, list_attr. rewrite Hlists.
    rewrite lookup_insert_ne by done. by rewrite lookup_insert_eq. }
  assert (cpu_util g = util) as Eutil.
  { unfold cpu_util, list_attr. rewrite Hlists. by rewrite lookup_insert_eq. }
  apply column_sums in Hcpu as (_ & Lcpu & Scpu).
  apply column_sums in Hmem as (_ & Lmem & Smem).
  apply column_means in Hutil as (_ & Lutil & Sutil).
  rewrite length_fmap in Sutil.
  subst series. rewrite Hpods, Ecpu, Emem, Eutil.
  split; [done|]. split; [done|]. split; [by exists k; rewrite <- Hg0|].
  split; [done|]. split; [done|]. split; [done|].
  intros pod Hpod. rewrite Forall_fmap, Forall_forall in Lcpu, Lmem, Lutil.
  split; [by apply Lcpu|]. split; [by apply Lmem|by apply Lutil].
Qed.

Lemma groups_sum_and_average_their_pods_witness :
  ∃ d groups (g : Group),
    ArgosService.collect 0 example_labels 5 example_two_pods
      (helpers.get_timestamps (Q2Qc 0) (Q2Qc 3600) helpers.ONE_HOUR)
      ["paas1"] None None = inr d
    ∧ ArgosService.retrieve_telemetry_data 0 example_labels 5 example_two_pods
        (Q2Qc 0) (Q2Qc 3600) helpers.ONE_HOUR ["paas1"] None None = inr groups
    ∧ g ∈ groups
    ∧ cls g = Cluster
    ∧ length (pods g) = 2%nat
    ∧ pods g ≠ [].
Proof.
  destruct (ArgosService.collect 0 example_labels 5 example_two_pods
              (helpers.get_timestamps (Q2Qc 0) (Q2Qc 3600) helpers.ONE_HOUR)
              ["paas1"] None None) as [e|d] eqn:E; [by vm_compute in E|].
  destruct (ArgosService.retrieve_telemetry_data 0 example_labels 5
              example_two_pods (Q2Qc 0) (Q2Qc 3600) helpers.ONE_HOUR
              ["paas1"] None None) as [e|groups] eqn:R; [by vm_compute in R|].
  destruct groups as [|g groups]; [by vm_compute in R|].
  exists d, (g :: groups), g.
  destruct (groups_sum_and_average_their_pods _ _ _ _ _ _ _ _ _ _ d
              (g :: groups) g E R (list_elem_of_here _ _))
    as (Hcls & Hne & _).
  repeat split; [apply list_elem_of_here|done| |done].
  vm_compute in R. by injection R as <- _.
Defined.

(** ** The telemetry aligner: lengths *)

Lemma for_each_invariant {A S} (P : S → Prop) (body : S → A → result S)
    (xs : list A) :
  (∀ s x s', x ∈ xs → P s → body s x = inr s' → P s') →
  ∀ s s', P s → for_each body xs s = inr s' → P s'.
Proof.
  induction xs as [|x xs IH]; intros Hbody s s' Hs Hrun; simpl in Hrun.
  - by injection Hrun as <-.
  - destruct (body s x) as [|s1] eqn:Hx; [done|]. cbn in Hrun.
    apply (IH (λ s0 x0 s0' Hin, Hbody s0 x0 s0' (list_elem_of_further _ _ _ Hin))
              s1 s'); [|done].
    apply (Hbody s x s1); [apply list_elem_of_here|done..].
Qed.

Lemma list_attr_set_list (r : Resource) (attr attr' : string) (v : list float) :
  list_attr (set_list attr v r) attr'
  = if decide (attr = attr') then v else list_attr r attr'.
Proof.
  unfold list_attr, set_list. simpl. rewrite lookup_insert.
  by destruct (decide (attr = attr')).
Qed.

Lemma align_length (utcoffset : float) (desired : list datetime)
    (raw : list (float * float)) (v : list float) :
  (length raw ≤ length desired)%nat →
  ArgosService.align utcoffset desired raw = inr v →
  length v = length desired.
Proof.
  intros Hle. destruct (decide (length raw < length desired)%nat) as [Hlt|Hge].
  - rewrite align_short by done.
    unfold ArgosService.interpolate_field_data, np.interp.
    repeat case_decide; try done. intros [= <-]. by rewrite !length_fmap.
  - rewrite align_long by lia. intros [= <-]. rewrite length_fmap. lia.
Qed.


Lemma setdefault_fit (desired : list datetime) (d : list (string * Pod))
    (uid : string) (pod : Pod) :
  pods_fit desired d →
  time_points pod = desired → series_fit pod →
  pods_fit desired (ArgosService.setdefault d uid pod).
Proof.
  intros Hd Ht Hfit. unfold ArgosService.setdefault.
  destruct (ArgosService.lookup_pod d uid); [done|].
  intros kv [Hin| ->%list_elem_of_singleton]%elem_of_app; [by apply Hd|done].
Qed.

Lemma assign_fit (desired : list datetime) (d : list (string * Pod))
    (uid attr : string) (v : list float) :
  pods_fit desired d →
  length v = length desired →
  pods_fit desired (ArgosService.assign d uid attr v).
Proof.
  intros Hd Hv kv Hin. unfold ArgosService.assign in Hin.
  apply list_elem_of_fmap in Hin as ([k pod] & -> & Hin).
  destruct (Hd _ Hin) as [Ht Hfit]. simpl in *.
  case_decide; [|done]. simpl. split; [done|].
  intros attr'. rewrite list_attr_set_list. simpl. rewrite Ht.
  case_decide; [by left|]. specialize (Hfit attr'). by rewrite Ht in Hfit.
Qed.

Lemma parse_series_fit (utcoffset : float) (labels : ArgosService.Labels)
    (desired : list datetime) (ct : ArgosService.HardwareConsumptionType)
    (d d' : list (string * Pod)) (data : ArgosService.series_data) :
  (length (ArgosService.values data) ≤ length desired)%nat →
  pods_fit desired d →
  ArgosService.parse_series utcoffset labels desired ct d data = inr d' →
  pods_fit desired d'.
Proof.
  intros Hle Hd. unfold ArgosService.parse_series.
  repeat (match goal with
          | |- (match ?m with inl _ => _ | inr _ => _ end) = _ → _ =>
              destruct m eqn:?; [done|]
          | |- (?m ≫= _) = _ → _ => destruct m eqn:?; [done|]
          end; cbn [mbind result_bind mret result_ret]).
  intros [= <-]. apply assign_fit; [|by eapply align_length].
  apply setdefault_fit; [done..|].
  intros attr. right. unfold list_attr. simpl. by rewrite lookup_empty.
Qed.

Section Lengths.
Variable utcoffset : float.
Variable labels : ArgosService.Labels.
Variable level : nat.
Variable exec_query :
  ArgosService.HardwareConsumptionType → option (list string) → list string →
  option (list string) → result (list ArgosService.series_data).
Variable desired : list datetime.

(** The database returns no series longer than the grid. *)
Hypothesis short_series :
  ∀ ct applications cluster_group namespaces pod_data data,
    exec_query ct applications cluster_group namespaces = inr pod_data →
    data ∈ pod_data →
    (length (ArgosService.values data) ≤ length desired)%nat.

Lemma fetch_fit (applications : option (list string))
    (cluster_group : list string) (namespaces : option (list string))
    (todo : list ArgosService.HardwareConsumptionType) :
  ∀ d d', pods_fit desired d →
          ArgosService.fetch utcoffset labels exec_query desired applications
            cluster_group namespaces todo d = inr d' →
          pods_fit desired d'.
Proof.
  induction todo as [|ct todo IH]; intros d d' Hd Hrun; simpl in Hrun.
  - by injection Hrun as <-.
  - destruct (exec_query ct applications cluster_group namespaces)
      as [e|pod_data] eqn:Hq.
    + destruct e; try done. by injection Hrun as <-.
    + destruct (ArgosService.parse_pod_data utcoffset labels pod_data d
                  desired ct) as [|d1] eqn:Hp; [done|].
      cbn [mbind result_bind] in Hrun. apply (IH d1 d'); [|done].
      unfold ArgosService.parse_pod_data in Hp.
      apply (for_each_invariant (pods_fit desired)
               (ArgosService.parse_series utcoffset labels desired ct)
               pod_data) with d; [|done..].
      intros s data s' Hin Hs Hbody.
      apply (parse_series_fit utcoffset labels desired ct s s' data);
        [|done..].
      by apply (short_series ct applications cluster_group namespaces pod_data).
Qed.

Lemma collect_fit (clusters : list string)
    (applications namespaces : option (list string))
    (d : list (string * Pod)) :
  ArgosService.collect utcoffset labels level exec_query desired clusters
    applications namespaces = inr d →
  pods_fit desired d.
Proof.
  unfold ArgosService.collect.
  destruct (helpers.group_clusters_by_level clusters level) as [|groups];
    [done|]. cbn [mbind result_bind].
  apply for_each_invariant.
  - intros s cluster_group s' _ Hs Hrun. by apply fetch_fit in Hrun.
  - by intros kv ?%elem_of_nil.
Qed.

Lemma finish_fit (applications : option (list string))
    (d : list (string * Pod)) (groups : list Group) (g : Group) :
  pods_fit desired d →
  ArgosService.finish desired applications d = inr groups →
  g ∈ groups →
  time_points g = desired ∧ series_fit g
  ∧ ∀ pod : Pod, pod ∈ pods g → time_points pod = desired ∧ series_fit pod.
Proof.
  intros Hd Hfin Hg.
  assert (∀ pod : Pod, pod ∈ pods g →
            pod ∈ ArgosService.filter_pods d
            ∧ time_points pod = desired ∧ series_fit pod) as Hpods.
  { intros pod Hpod.
    assert (pod ∈ ArgosService.filter_pods d) as Hin
      by (apply (finish_pods desired applications d groups pod Hfin); eauto).
    split; [done|].
    apply list_elem_of_filter in Hin as [_ Hin].
    apply list_elem_of_fmap in Hin as (kv & -> & Hin). by apply Hd. }
  apply finish_inr in Hfin as [_ Hall].
  apply list_elem_of_lookup in Hg as [j Hj].
  destruct (Forall2_lookup_l _ _ _ _ _ Hall Hj) as ([k g0] & Hkg & idx & Hcr).
  apply create_resource_inr in Hcr
    as (_ & Hg0 & _ & _ & Ht & cpu & memory & util & Hcpu & Hmem & Hutil
        & Hlists).
  cbn [fst snd] in *. subst g0.
  apply column_sums in Hcpu as (Hne & Lcpu & _).
  apply column_sums in Hmem as (_ & Lmem & _).
  apply column_means in Hutil as (_ & Lutil & _).
  destruct (pods g) as [|pod0 rest] eqn:Epods; [done|].
  destruct (Hpods pod0 (list_elem_of_here _ _)) as (Hin & Ht0 & Hfit0).
  apply list_elem_of_filter in Hin as [(Ncpu & Nmem & Nutil) _].
  apply Forall_cons in Lcpu as [Lcpu _]. apply Forall_cons in Lmem as [Lmem _].
  apply Forall_cons in Lutil as [Lutil _].
  assert (∀ attr : Resource → list float,
            (∃ a, attr = λ r, list_attr r a) → attr pod0 ≠ [] →
            length (attr pod0) = length desired) as Hlen.
  { intros attr [a ->] Hn. destruct (Hfit0 a) as [E|E]; [by rewrite <- Ht0|].
    by apply nil_length_inv in E. }
  split; [done|]. split; [|by intros pod Hpod; apply Hpods].
  intros attr. unfold list_attr. rewrite Hlists, Ht.
  rewrite !lookup_insert, lookup_empty.
  repeat case_decide; simpl.
  - left. rewrite <- Lutil. apply (Hlen cpu_util); [by exists "cpu_util"|done].
  - left. rewrite <- Lmem.
    apply (Hlen requested_memory); [by exists "requested_memory"|done].
  - left. rewrite <- Lcpu.
    apply (Hlen requested_cpu); [by exists "requested_cpu"|done].
  - by right.
Qed.

End Lengths.

(** C9, as the code keeps it: when the database returns no series longer
    than the desired grid, every group that the retrieval returns, and every
    pod in it, carries the grid as its time points, and each of its
    per-time-point arrays is as long as the grid or empty. *)
Theorem aligned_series_fit_the_grid (utcoffset : float)
    (labels : ArgosService.Labels) (level : nat) exec_query
    (interval_start interval_end : datetime)
    (sampling_rate : helpers.SamplingRate) (clusters : list string)
    (applications namespaces : option (list string))
    (groups : list Group) (g : Group) :
  let desired_timestamps :=
    helpers.get_timestamps interval_start interval_end sampling_rate in
  (∀ ct applications cluster_group namespaces pod_data data,
     exec_query ct applications cluster_group namespaces = inr pod_data →
     data ∈ pod_data →
     (length (ArgosService.values data) ≤ length desired_timestamps)%nat) →
  ArgosService.retrieve_telemetry_data utcoffset labels level exec_query
    interval_start interval_end sampling_rate clusters applications namespaces
  = inr groups →
  g ∈ groups →
  time_points g = desired_timestamps
  ∧ series_fit g
  ∧ ∀ pod : Pod, pod ∈ pods g →
                 time_points pod = desired_timestamps ∧ series_fit pod.
Proof.
  intros desired Hshort Hret Hg.
  unfold ArgosService.retrieve_telemetry_data in Hret. fold desired in Hret.
  destruct (ArgosService.collect utcoffset labels level exec_query desired
              clusters applications namespaces) as [|d] eqn:Hd; [done|].
  cbn [mbind result_bind] in Hret.
  apply (finish_fit desired applications d groups g); [|done..].
  by apply (collect_fit utcoffset labels level exec_query desired Hshort
              clusters applications namespaces).
Qed.

Lemma aligned_series_fit_the_grid_witness :
  ∃ groups (g : Group),
    ArgosService.retrieve_telemetry_data 0 example_labels 5 example_two_pods
      (Q2Qc 0) (Q2Qc 3600) helpers.ONE_HOUR ["paas1"] None None = inr groups
    ∧ g ∈ groups
    ∧ series_fit g.
Proof.
  destruct (ArgosService.retrieve_telemetry_data 0 example_labels 5
              example_two_pods (Q2Qc 0) (Q2Qc 3600) helpers.ONE_HOUR
              ["paas1"] None None) as [e|groups] eqn:R; [by vm_compute in R|].
  destruct groups as [|g groups]; [by vm_compute in R|].
  exists (g :: groups), g.
  split; [done|]. split; [apply list_elem_of_here|].
  refine (proj1 (proj2 (aligned_series_fit_the_grid 0 example_labels 5
                          example_two_pods (Q2Qc 0) (Q2Qc 3600)
                          helpers.ONE_HOUR ["paas1"] None None (g :: groups) g
                          _ R (list_elem_of_here _ _)))).
  intros ct a c n pod_data data [= <-] Hin.
  repeat (apply elem_of_cons in Hin as [->|Hin]; [by vm_compute|]).
  by apply elem_of_nil in Hin.
Defined.

(** C9, as stated: a raw series longer than the grid is passed on as it is.
    With three samples per series on a grid of two points, the returned
    cluster and its pod carry two time points and arrays of length three. *)
Lemma long_raw_series_exceeds_the_grid :
  ∃ g : Group,
    ArgosService.retrieve_telemetry_data 0 example_labels 5 example_long
      (Q2Qc 0) (Q2Qc 3600) helpers.ONE_HOUR ["paas1"] None None = inr [g]
    ∧ length (time_points g) = 2%nat
    ∧ length (cpu_util g) = 3%nat
    ∧ ¬ series_fit g
    ∧ Forall (λ pod : Pod, ¬ series_fit pod) (pods g).
Proof.
  destruct (ArgosService.retrieve_telemetry_data 0 example_labels 5
              example_long (Q2Qc 0) (Q2Qc 3600) helpers.ONE_HOUR
              ["paas1"] None None) as [e|groups] eqn:R; [by vm_compute in R|].
  destruct groups as [|g [|g' groups]]; [by vm_compute in R| |by vm_compute in R].
  exists g. split; [done|].
  vm_compute in R. injection R as <-.
  split; [done|]. split; [done|]. split.
  - intros Hfit. destruct (Hfit "cpu_util") as [H|H]; by vm_compute in H.
  - repeat constructor.
    intros Hfit. destruct (Hfit "cpu_util") as [H|H]; by vm_compute in H.
Qed.

(** ** The chunked executor: order *)

Lemma set_list_id (attr : string) (v : list float) (r : Resource) :
  id (set_list attr v r) = id r.
Proof. done. Qed.

Lemma map_metrics_keeps_id (metrics : list (string * MetricsMapper.measurement))
    (r r' : Resource) :
  MetricsMapper.map_metrics_to_resource metrics r = inr r' → id r' = id r.
Proof.
  unfold MetricsMapper.map_metrics_to_resource.
  apply (for_each_invariant (λ r0, id r0 = id r)
           (MetricsMapper.map_metric metrics) MetricsMapper.METRICS_MAPPER);
    [|done].
  intros s [key [obs agg]] s' _ Hs. unfold MetricsMapper.map_metric.
  destruct (MetricsMapper.assoc metrics key) as [m|]; [|by intros [= <-]].
  destruct agg as [attr|]; [|by intros [= <-]].
  destruct (MetricsMapper.aggregated m); [|done]. by intros [= <-].
Qed.

Section Parse.
Context {A : Type} `{IsResource A}.

Lemma same_objects_refl (l : list A) : same_objects l l.
Proof. by apply Forall_Forall2_diag, Forall_forall. Qed.

Lemma aggregate_app_level_same_objects
    (if_output : gmap string IFService.tree_node) (l : list A) :
  same_objects (IFService.aggregate_app_level l if_output).1 l.
Proof.
  induction l as [|x l IH]; simpl; [constructor|].
  destruct (_ ≫= _) as [e|r] eqn:Hr; simpl; [apply same_objects_refl|].
  destruct (IFService.aggregate_app_level l if_output) as [rest out].
  simpl in *. constructor; [|done].
  rewrite resource_of_with_resource.
  destruct (IFService.get_measurements_from_output _ _ _) as [|metrics];
    [done|]. by apply map_metrics_keeps_id in Hr.
Qed.

Lemma parse_if_output_same_objects (file : result IFService.if_output_file)
    (l : list A) (file_id : nat) :
  same_objects (IFService.parse_if_output file l file_id).1 l.
Proof.
  unfold IFService.parse_if_output.
  destruct file as [|if_output]; [apply same_objects_refl|].
  destruct (IFService.execution_status if_output); [|apply same_objects_refl].
  case_decide; [apply same_objects_refl|].
  destruct (IFService.tree_children if_output); [|apply same_objects_refl].
  apply aggregate_app_level_same_objects.
Qed.

End Parse.

Lemma omap_lookup_seq {B} (heap : list B) (len : nat) :
  ∀ a, (a + len ≤ length heap)%nat →
       omap (heap !!.) (seq a len) = take len (drop a heap).
Proof.
  induction len as [|len IH]; intros a Hle; [done|].
  destruct (lookup_lt_is_Some_2 heap a) as [x Hx]; [lia|].
  rewrite (drop_S _ _ _ Hx). cbn [seq omap list_omap take]. rewrite Hx.
  f_equal. apply IH. lia.
Qed.

Lemma store_lookup {B} (objects : list B) :
  ∀ (a : nat) (heap : list B) (i : nat),
    (a + length objects ≤ length heap)%nat →
    Executor.store (seq a (length objects)) objects heap !! i
    = if decide (a ≤ i < a + length objects)%nat then objects !! (i - a)%nat
      else heap !! i.
Proof.
  unfold Executor.store.
  induction objects as [|o objects IH]; intros a heap i Hle.
  - simpl. case_decide; [lia|done].
  - simpl length in *. simpl seq. simpl zip. simpl foldl.
    rewrite IH by (rewrite length_insert; lia).
    destruct (decide (i = a)) as [->|Hne].
    + rewrite decide_False by lia. rewrite decide_True by lia.
      rewrite list_lookup_insert_eq by lia. by rewrite Nat.sub_diag.
    + rewrite list_lookup_insert_ne by done.
      case_decide; case_decide; try lia; [|done].
      by replace (i - a)%nat with (S (i - S a)) by lia.
Qed.

Lemma store_length {B} (chunk : list nat) (objects : list B) :
  ∀ heap, length (Executor.store chunk objects heap) = length heap.
Proof.
  unfold Executor.store. generalize (zip chunk objects) as l.
  induction l as [|[loc o] l IH]; intros heap; [done|].
  simpl. by rewrite IH, length_insert.
Qed.

Lemma write_back_fixed (chunk : list nat) :
  ∀ (h : nat → nat) (base : nat) (vms : list nat),
    (∀ j x, chunk !! j = Some x → vms !! (base + h j)%nat = Some x) →
    foldl (λ vms '(i, vm), <[(base + i)%nat := vm]> vms) vms
          (imap (λ j x, (h j, x)) chunk) = vms.
Proof.
  induction chunk as [|x chunk IH]; intros h base vms Hvms; [done|].
  simpl. rewrite list_insert_id by (by apply (Hvms 0%nat)).
  apply (IH (h ∘ S)). intros j y Hj. by apply (Hvms (S j)).
Qed.

Lemma write_back_seq (chunk_size index len n : nat) :
  (index * chunk_size + len ≤ n)%nat →
  Executor.write_back chunk_size index (seq (index * chunk_size) len) (seq 0 n)
  = seq 0 n.
Proof.
  intros Hle. unfold Executor.write_back.
  apply (write_back_fixed _ (λ j, j)).
  intros j x [-> Hj]%lookup_seq. apply lookup_seq. lia.
Qed.

Lemma range_inr (stop step : nat) :
  step ≠ 0%nat →
  range 0 stop step
  = inr ((λ k, k * step)%nat <$> seq 0 ((stop + step - 1) / step)).
Proof.
  intros Hstep. unfold range. rewrite decide_False by done.
  rewrite Nat.sub_0_r. f_equal.
Qed.

Lemma chunk_count (n cs k : nat) :
  (0 < cs)%nat → (0 < n)%nat →
  (k < (n + cs - 1) / cs)%nat ↔ (k * cs < n)%nat.
Proof.
  intros Hcs Hn. split; intros Hk.
  - assert (S k * cs ≤ n + cs - 1)%nat; [|lia].
    etrans; [|apply (Nat.Div0.mul_div_le _ cs)].
    rewrite (Nat.mul_comm cs). apply Nat.mul_le_mono_r. lia.
  - apply (Nat.div_le_lower_bound _ _ (S k)); lia.
Qed.

Lemma take_drop_seq (cs a n : nat) :
  take cs (drop a (seq 0 n)) = seq a (Nat.min cs (n - a)).
Proof.
  rewrite drop_seq, take_seq. simpl. done.
Qed.

Lemma div_chunk (i k cs : nat) :
  (0 < cs)%nat → (i / cs = k)%nat ↔ (k * cs ≤ i < k * cs + cs)%nat.
Proof.
  intros Hcs. pose proof (Nat.div_mod_eq i cs).
  pose proof (Nat.mod_upper_bound i cs). split; [intros <-; lia|].
  intros Hk. symmetry. apply (Nat.div_unique i cs k (i - k * cs)); lia.
Qed.

Lemma mod_chunk (i k cs : nat) :
  (k * cs ≤ i < k * cs + cs)%nat → (i mod cs = i - k * cs)%nat.
Proof.
  intros Hk. symmetry. apply (Nat.mod_unique i cs k (i - k * cs)); lia.
Qed.

Section Order.
Context {A : Type} `{IsResource A}.
Variable run_if : list A → nat → result IFService.if_output_file.
Variable vms : list A.
Variable chunk_size : nat.
Hypothesis chunk_size_pos : (0 < chunk_size)%nat.
Hypothesis vms_nonempty : (0 < length vms)%nat.

Let chunks : list (list nat) :=
  (λ x, take chunk_size (drop x (seq 0 (length vms))))
    <$> ((λ k, k * chunk_size)%nat
           <$> seq 0 ((length vms + chunk_size - 1) / chunk_size)).

Let chunk_of (k : nat) : list A :=
  take chunk_size (drop (k * chunk_size) vms).

Let post (k : nat) : list A :=
  (Executor.compute_metrics run_if (chunk_of k) k).1.

Let inv (finished : list nat) (s : Executor.state A) : Prop :=
  Executor.refs s = seq 0 (length vms)
  ∧ length (Executor.heap s) = length vms
  ∧ Executor.evaluated s = finished
  ∧ ∀ i, (i < length vms)%nat →
         Executor.heap s !! i
         = if decide ((i / chunk_size)%nat ∈ finished)
           then post (i / chunk_size) !! (i mod chunk_size)%nat
           else vms !! i.

Lemma chunks_lookup (k : nat) :
  (k * chunk_size < length vms)%nat →
  chunks !! k
  = Some (seq (k * chunk_size)
              (Nat.min chunk_size (length vms - k * chunk_size))).
Proof.
  intros Hk. unfold chunks. rewrite !list_lookup_fmap.
  rewrite lookup_seq_lt by by apply chunk_count.
  simpl. by rewrite take_drop_seq.
Qed.

Lemma post_length (k : nat) : length (post k) = length (chunk_of k).
Proof.
  unfold post, Executor.compute_metrics.
  eapply Forall2_length, parse_if_output_same_objects.
Qed.

Lemma chunk_of_length (k : nat) :
  length (chunk_of k) = Nat.min chunk_size (length vms - k * chunk_size).
Proof. unfold chunk_of. by rewrite length_take, length_drop. Qed.

Lemma chunk_of_lookup (k j : nat) :
  (j < chunk_size)%nat → chunk_of k !! j = vms !! (k * chunk_size + j)%nat.
Proof.
  intros Hj. unfold chunk_of. by rewrite lookup_take_lt, lookup_drop.
Qed.

Lemma step_inv (finished : list nat) (s : Executor.state A) (k : nat) :
  inv finished s → k ∉ finished → (k * chunk_size < length vms)%nat →
  inv (finished ++ [k])
      (Executor.compute_metrics_for_chunk run_if chunk_size chunks s k).
Proof.
  intros (Hrefs & Hlen & Hev & Hheap) Hk Hlt.
  unfold Executor.compute_metrics_for_chunk. rewrite chunks_lookup by done.
  set (len := Nat.min chunk_size (length vms - k * chunk_size)).
  assert (omap (Executor.heap s !!.) (seq (k * chunk_size) len) = chunk_of k)
    as ->.
  { rewrite omap_lookup_seq by lia. apply list_eq. intros j.
    destruct (decide (j < len)%nat) as [Hj|Hj].
    - rewrite lookup_take_lt, lookup_drop by lia.
      rewrite chunk_of_lookup by lia. rewrite Hheap by lia.
      rewrite decide_False; [done|].
      intros Hin. apply Hk.
      by replace k with ((k * chunk_size + j) / chunk_size)%nat
        by (apply div_chunk; lia).
    - rewrite lookup_take_ge by lia. symmetry.
      apply lookup_ge_None. rewrite chunk_of_length. fold len. lia. }
  pose proof (post_length k) as Hpost. rewrite chunk_of_length in Hpost.
  fold len in Hpost. unfold post in Hpost.
  destruct (Executor.compute_metrics run_if (chunk_of k) k)
    as [objects out] eqn:Hcm.
  simpl in Hpost.
  assert (post k = objects) as Epost by (unfold post; by rewrite Hcm).
  rewrite <- Hpost. split; [|split; [|split]]; simpl.
  - destruct out; [done|]. rewrite Hrefs. rewrite Hpost.
    apply write_back_seq. lia.
  - by rewrite store_length.
  - by rewrite Hev.
  - intros i Hi. rewrite store_lookup by lia.
    destruct (decide (k * chunk_size ≤ i < k * chunk_size + length objects)%nat)
      as [Hin|Hout].
    + assert (i / chunk_size = k)%nat as -> by (apply div_chunk; lia).
      rewrite decide_True by (apply elem_of_app; right; apply list_elem_of_here).
      rewrite Epost. f_equal. symmetry. apply (mod_chunk i k). lia.
    + rewrite Hheap by done.
      assert (i / chunk_size ≠ k)%nat as Hne.
      { intros Hd. apply div_chunk in Hd; [|done]. lia. }
      destruct (decide ((i / chunk_size)%nat ∈ finished)) as [Hf|Hf].
      * rewrite decide_True; [done|]. apply elem_of_app. by left.
      * rewrite decide_False; [done|].
        intros [?|Hk'%list_elem_of_singleton]%elem_of_app; done.
Qed.

Lemma run_inv (completion : list nat) :
  ∀ finished s,
    inv finished s →
    NoDup (finished ++ completion) →
    (∀ k, k ∈ completion → (k * chunk_size < length vms)%nat) →
    inv (finished ++ completion)
        (foldl (Executor.compute_metrics_for_chunk run_if chunk_size chunks)
               s completion).
Proof.
  induction completion as [|k completion IH]; intros finished s Hs Hnd Hk.
  - by rewrite app_nil_r.
  - simpl. rewrite cons_middle, app_assoc.
    rewrite cons_middle, app_assoc in Hnd.
    apply IH; [|done|].
    + apply step_inv; [done| |apply Hk, list_elem_of_here].
      apply NoDup_app in Hnd as (Hnd & _ & _).
      apply NoDup_app in Hnd as (_ & Hnd & _). intros Hin.
      by apply (Hnd k Hin), list_elem_of_here.
    + intros k' Hk'. by apply Hk, list_elem_of_further.
Qed.

Lemma run_engine_order (profile_chunk_size : nat) (completion : list nat) :
  chunk_size = Nat.min profile_chunk_size (length vms) →
  completion ≡ₚ seq 0 (number_of_chunks profile_chunk_size vms) →
  processed_in_place run_if profile_chunk_size vms completion
    (Executor.run_engine run_if profile_chunk_size completion vms).
Proof.
  intros Hcs Hperm. unfold processed_in_place, number_of_chunks in *.
  rewrite <- Hcs in *. unfold Executor.run_engine. rewrite <- Hcs.
  unfold slices. rewrite length_seq, range_inr by lia.
  cbn [mbind result_bind mret result_ret]. fold chunks.
  destruct (run_inv completion [] (Executor.mkState vms (seq 0 (length vms)) []))
    as (Hrefs & Hlen & Hev & Hheap).
  { repeat split. }
  { simpl. rewrite Hperm. apply NoDup_seq. }
  { intros k Hk. rewrite Hperm in Hk. apply elem_of_seq in Hk.
    apply chunk_count; [done..|lia]. }
  simpl in Hrefs, Hlen, Hev, Hheap.
  set (s := foldl _ _ completion) in *.
  assert (omap (Executor.heap s !!.) (Executor.refs s) = Executor.heap s) as ->.
  { rewrite Hrefs, omap_lookup_seq by lia. rewrite drop_0.
    apply take_ge. lia. }
  exists (Executor.heap s). rewrite Hev. split; [done|]. split; [done|].
  assert (∀ k j, (j < chunk_size)%nat → (k * chunk_size + j < length vms)%nat →
            Executor.heap s !! (k * chunk_size + j)%nat = post k !! j)
    as Hpos.
  { intros k j Hj Hi. rewrite Hheap by done.
    assert ((k * chunk_size + j) / chunk_size = k)%nat as ->
      by (apply div_chunk; lia).
    rewrite (mod_chunk _ k) by lia.
    rewrite decide_True.
    - f_equal. lia.
    - rewrite Hperm. apply elem_of_seq. split; [lia|]. simpl.
      apply chunk_count; [done..|lia]. }
  split; [done|].
  apply Forall2_same_length_lookup_2; [done|].
  intros i x y Hx Hy.
  pose proof (Nat.div_mod_eq i chunk_size) as Hi.
  pose proof (Nat.mod_upper_bound i chunk_size) as Hm.
  apply lookup_lt_Some in Hy as Hlt.
  rewrite Hi, (Nat.mul_comm chunk_size) in Hx, Hy.
  rewrite Hpos in Hx by lia.
  rewrite <- chunk_of_lookup in Hy by lia.
  destruct (Forall2_lookup_l _ _ _ _ _
              (parse_if_output_same_objects
                 (run_if (chunk_of (i / chunk_size)) (i / chunk_size))
                 (chunk_of (i / chunk_size)) (i / chunk_size)) Hx)
    as (y' & Hy' & Hid).
  rewrite Hy in Hy'. by injection Hy' as <-.
Qed.

End Order.

Lemma min_profile_pos {B} (profile : nat) (vms : list B) :
  (0 <? profile)%nat = true → vms ≠ [] →
  (0 < Nat.min profile (length vms))%nat.
Proof.
  intros Hp%Nat.ltb_lt Hne. destruct vms; [done|]. simpl length. lia.
Qed.

(** C7: on a non-empty list, whatever the order in which the chunk workers
    complete, both profiles return a list of the length of the input whose
    element at position [k * chunk_size + j] is the [j]-th object of chunk [k]
    as its worker left it, so that position by position the returned objects
    are the input objects. *)
#[warnings="-abstract-large-number"]
Theorem run_engine_preserves_input_order {A : Type} `{IsResource A}
    (run_if : list A → nat → result IFService.if_output_file)
    (vms : list A) :
  vms ≠ [] →
  (∀ completion,
     completion ≡ₚ seq 0 (number_of_chunks 430 vms) →
     processed_in_place run_if 430 vms completion
       (Executor.IFVMService_run_engine run_if completion vms))
  ∧ (∀ completion,
       completion ≡ₚ seq 0 (number_of_chunks 10000 vms) →
       processed_in_place run_if 10000 vms completion
         (Executor.IFStorageService_run_engine run_if completion vms)).
Proof.
  intros Hne.
  assert (0 < length vms)%nat as Hlen by (destruct vms; [done|simpl; lia]).
  split; intros completion Hperm.
  - refine (run_engine_order run_if vms _ _ Hlen _ completion eq_refl Hperm).
    by apply min_profile_pos.
  - refine (run_engine_order run_if vms _ _ Hlen _ completion eq_refl Hperm).
    by apply min_profile_pos.
Qed.

Lemma run_engine_preserves_input_order_witness :
  processed_in_place example_run_if 430 (replicate 431 (vm_205 (Q2Qc 0.3)))
    [1; 0]%nat
    (Executor.IFVMService_run_engine example_run_if [1; 0]%nat
       (replicate 431 (vm_205 (Q2Qc 0.3)))).
Proof.
  destruct (run_engine_preserves_input_order example_run_if
              (replicate 431 (vm_205 (Q2Qc 0.3)))) as [Hvm _]; [done|].
  apply Hvm. unfold number_of_chunks. rewrite length_replicate.
  apply perm_swap.
Defined.

(** ** The grid: the loop of [get_timestamps] ends by its own condition *)

Ltac Qc_to_Q :=
  unfold Qclt, Qcle, Qcminus, Qcplus, Qcopp, Q2Qc in *; cbn [this] in *;
  rewrite ?Qred_correct in *.

Lemma of_nat_S (n : nat) :
  Q2Qc (inject_Z (Z.of_nat (S n))) = Q2Qc (inject_Z (Z.of_nat n)) + 1.
Proof.
  apply Qc_is_canon. Qc_to_Q. rewrite Nat2Z.inj_succ. unfold Z.succ.
  rewrite inject_Z_plus. reflexivity.
Qed.

Lemma timestamps_loop_enough (interval_end interval : float) :
  0 < interval →
  ∀ (fuel : nat) (current : float) (extra : nat),
    (current ≤ interval_end →
     interval_end - current < Q2Qc (inject_Z (Z.of_nat fuel)) * interval) →
    helpers.timestamps_loop (fuel + extra) current interval_end interval
    = helpers.timestamps_loop fuel current interval_end interval.
Proof.
  intros Hpos. induction fuel as [|fuel IH]; intros current extra Hfuel.
  - assert (¬ current ≤ interval_end) as Hn.
    { intros Hle. specialize (Hfuel Hle).
      replace (Q2Qc (inject_Z (Z.of_nat 0)) * interval) with 0 in Hfuel
        by (symmetry; apply Qcmult_0_l).
      Qc_to_Q. lra. }
    destruct extra; [done|]. simpl. by rewrite decide_False.
  - simpl. destruct (decide (current ≤ interval_end)) as [Hle|]; [|done].
    f_equal. apply IH. intros Hle'. specialize (Hfuel Hle).
    replace (Q2Qc (inject_Z (Z.of_nat (S fuel))) * interval)
      with (Q2Qc (inject_Z (Z.of_nat fuel)) * interval + interval) in Hfuel
      by (rewrite of_nat_S; ring).
    set (m := Q2Qc (inject_Z (Z.of_nat fuel)) * interval) in *. clearbody m.
    Qc_to_Q. lra.
Qed.

Lemma rate_positive (rate : helpers.SamplingRate) :
  0 < Q2Qc (inject_Z (helpers.RATE_TO_DURATION rate)).
Proof. by destruct rate. Qed.

(** More iterations than [get_timestamps] allows for change nothing. *)
Lemma get_timestamps_fuel (interval_start interval_end : datetime)
    (sampling_rate : helpers.SamplingRate) (extra : nat) :
  let interval := Q2Qc (inject_Z (helpers.RATE_TO_DURATION sampling_rate)) in
  helpers.timestamps_loop
    (S (Z.to_nat (Qfloor ((interval_end - interval_start) / interval))) + extra)
    interval_start interval_end interval
  = helpers.get_timestamps interval_start interval_end sampling_rate.
Proof.
  intros interval. unfold helpers.get_timestamps. fold interval.
  pose proof (rate_positive sampling_rate) as Hpos. fold interval in Hpos.
  set (x := ((interval_end - interval_start) / interval)%Q).
  apply timestamps_loop_enough; [exact Hpos|]. intros Hle.
  unfold Qcmult. Qc_to_Q.
  assert (x * interval == interval_end - interval_start)%Q as Hx
    by (unfold x; field; lra).
  assert (0 <= x)%Q as Hx0.
  { destruct (Qlt_le_dec x 0) as [Hneg|]; [|done].
    pose proof (Qmult_lt_compat_r _ _ _ Hpos Hneg) as Hm.
    rewrite Hx, Qmult_0_l in Hm. lra. }
  assert (0 ≤ Qfloor x)%Z as Hf.
  { change 0%Z with (Qfloor 0). by apply Qfloor_resp_le. }
  rewrite <- Hx. apply Qmult_lt_compat_r; [done|].
  rewrite Nat2Z.inj_succ, Z2Nat.id by done. apply Qlt_floor.
Qed.

(** * Further properties of the code *)

(** ** The carbon-intensity lookup on every zone *)

(** X1: [calculate_ci] raises for one zone only: ["francesouth"] gives the
    [KeyError] of ["carbon_intensity"]; every other zone, and the absent zone,
    gets an int between 36 and 708, which is the European average 281 when
    the zone is not in the table. *)
Theorem calculate_ci_fails_only_for_francesouth (zone : option string) :
  if decide (zone = Some "francesouth")
  then PaasCiMapper.calculate_ci zone = inl (KeyError "carbon_intensity")
  else ∃ ci, PaasCiMapper.calculate_ci zone = inr (constants.Int ci)
             ∧ (36 ≤ ci ≤ 708)%Z
             ∧ (zone ≫= (constants.REGION_TO_COUNTRY_CARBON_INTENSITY !!.)
                = None → ci = 281%Z).
Proof.
  case_decide as Hz; [by subst zone|].
  unfold PaasCiMapper.calculate_ci.
  destruct (zone ≫= _) as [entry|] eqn:E.
  - destruct zone as [z|]; [|done]. simpl in E.
    apply elem_of_list_to_map_2 in E.
    repeat (apply elem_of_cons in E as [[= -> ->]|E];
            [first [done | by eexists; split; [reflexivity|split; [lia|done]]]|]).
    by inversion E.
  - exists 281%Z. split; [done|]. split; [|done].
    unfold constants.CARBON_INTENSITY_EUROPE. lia.
Qed.

Lemma upper_ascii_idemp (c : ascii) :
  upper_ascii (upper_ascii c) = upper_ascii c.
Proof. destruct c as [[] [] [] [] [] [] [] []]; vm_compute; reflexivity. Qed.

Lemma upper_idemp (s : string) : upper (upper s) = upper s.
Proof. induction s; simpl; [done|]. by rewrite upper_ascii_idemp, IHs. Qed.

Lemma is_digit_upper_ascii (c : ascii) :
  is_digit (upper_ascii c) = is_digit c.
Proof. destruct c as [[] [] [] [] [] [] [] []]; vm_compute; reflexivity. Qed.

Lemma remove_unnecessary_upper (s : string) :
  helpers.remove_unnecessary (upper s) = upper (helpers.remove_unnecessary s).
Proof.
  induction s as [|c s IH]; simpl; [done|].
  rewrite is_digit_upper_ascii. destruct (is_digit c); simpl; by rewrite IH.
Qed.

Lemma remove_unnecessary_idemp (s : string) :
  helpers.remove_unnecessary (helpers.remove_unnecessary s)
  = helpers.remove_unnecessary s.
Proof.
  induction s as [|c s IH]; simpl; [done|].
  destruct (is_digit c) eqn:E; simpl; [done|]. by rewrite E, IH.
Qed.

Lemma split_on_remove_unnecessary (s : string) :
  split_on "-" (helpers.remove_unnecessary s)
  = helpers.remove_unnecessary <$> split_on "-" s.
Proof.
  induction s as [|c s IH]; simpl; [done|].
  destruct (is_digit c) eqn:E.
  - rewrite decide_False by (intros ->; done).
    rewrite IH. destruct (split_on "-" s) as [|w ws]; simpl.
    + simpl in IH. destruct (helpers.remove_unnecessary s); simpl in IH;
        [done|]. by case_decide; destruct (split_on _ _).
    + by rewrite E.
  - simpl. case_decide; simpl; [by rewrite IH|].
    rewrite IH. destruct (split_on "-" s) as [|w ws]; simpl; by rewrite E.
Qed.

Lemma omap_fmap_compose {A B C} (f : B → option C) (g : A → B) (l : list A) :
  omap f (g <$> l) = omap (λ x, f (g x)) l.
Proof. induction l as [|x l IH]; csimpl; [done|]. by rewrite IH. Qed.

(** The zone depends on the name through its upper-case letters and
    punctuation only. *)
Lemma extract_zone_from_paas_normal (paas : string) :
  PaasCiMapper.extract_zone_from_paas paas
  = let k := upper (helpers.remove_unnecessary paas) in
    match constants.ZONES !! k with
    | Some zone => Some zone
    | None =>
        head (omap (λ part, constants.ZONES !! part) (split_on "-" k))
    end.
Proof.
  unfold PaasCiMapper.extract_zone_from_paas. cbv zeta.
  rewrite <- !remove_unnecessary_upper, split_on_remove_unnecessary.
  by rewrite omap_fmap_compose.
Qed.

(** X2: two PaaS names that agree once their digits are removed and their
    letters are upper-cased are mapped to the same zone, and so to the same
    carbon intensity or the same exception. *)
Theorem extract_zone_ignores_case_and_digits (paas paas' : string) :
  upper (helpers.remove_unnecessary paas)
  = upper (helpers.remove_unnecessary paas') →
  PaasCiMapper.extract_zone_from_paas paas
  = PaasCiMapper.extract_zone_from_paas paas'
  ∧ PaasCiMapper.get_ci_from_paas paas = PaasCiMapper.get_ci_from_paas paas'.
Proof.
  intros E. unfold PaasCiMapper.get_ci_from_paas.
  rewrite !extract_zone_from_paas_normal, E. done.
Qed.

Lemma extract_zone_ignores_case_and_digits_witness :
  PaasCiMapper.extract_zone_from_paas "weu1-gwc-02"
  = PaasCiMapper.extract_zone_from_paas "WEU-GWC7-"
  ∧ PaasCiMapper.get_ci_from_paas "weu1-gwc-02"
    = PaasCiMapper.get_ci_from_paas "WEU-GWC7-".
Proof.
  apply (extract_zone_ignores_case_and_digits "weu1-gwc-02" "WEU-GWC7-").
  vm_compute. reflexivity.
Defined.

(** ** Slices and the cluster groups *)

Lemma concat_slices {A} (n : nat) (l : list A) (m : nat) :
  concat ((λ x, take n (drop x l)) <$> ((λ k, k * n)%nat <$> seq 0 m))
  = take (m * n) l.
Proof.
  induction m as [|m IH]; [done|].
  rewrite seq_S, !fmap_app, concat_app, IH. simpl.
  rewrite app_nil_r, take_take_drop. f_equal. lia.
Qed.

Lemma ceil_div_covers (len n : nat) :
  (0 < n)%nat → (len ≤ (len + n - 1) / n * n)%nat.
Proof.
  intros Hn. pose proof (Nat.div_mod_eq (len + n - 1) n).
  pose proof (Nat.mod_upper_bound (len + n - 1) n). lia.
Qed.

Lemma slices_spec {A} (n : nat) (l : list A) :
  (0 < n)%nat →
  ∃ chunks, slices n l = inr chunks
    ∧ concat chunks = l
    ∧ length chunks = ((length l + n - 1) / n)%nat
    ∧ (∀ k chunk, chunks !! k = Some chunk →
         chunk = take n (drop (k * n) l)
         ∧ (0 < length chunk ≤ n)%nat
         ∧ (S k < length chunks → length chunk = n)%nat).
Proof.
  intros Hn. unfold slices. rewrite range_inr by lia.
  cbn [mbind result_bind mret result_ret]. eexists. split; [done|].
  split; [|split].
  - rewrite concat_slices. apply take_ge. by apply ceil_div_covers.
  - by rewrite !length_fmap, length_seq.
  - intros k chunk Hk. rewrite !length_fmap, length_seq.
    rewrite !list_lookup_fmap in Hk.
    destruct (seq 0 _ !! k) as [k'|] eqn:Hseq; [|done].
    apply lookup_seq in Hseq as [-> Hlt]. simpl in Hk, Hlt.
    injection Hk as <-. split; [done|].
    rewrite length_take, length_drop.
    destruct (decide (length l = 0)%nat) as [E|E].
    + rewrite Nat.div_small in Hlt by lia. lia.
    + apply chunk_count in Hlt; [|lia..]. split; [lia|].
      intros Hnext. apply chunk_count in Hnext; [|lia..]. lia.
Qed.

(** X3: for a positive grouping level [group_clusters_by_level] returns the
    clusters cut into consecutive groups: concatenated they give the list
    back, there are ceil(n / level) of them, none is empty or longer than the
    level, and every group but the last has exactly [level] clusters. *)
Theorem group_clusters_by_level_partition (cluster_list : list string)
    (grouping_level : nat) :
  (0 < grouping_level)%nat →
  ∃ groups,
    helpers.group_clusters_by_level cluster_list grouping_level = inr groups
    ∧ concat groups = cluster_list
    ∧ length groups
      = ((length cluster_list + grouping_level - 1) / grouping_level)%nat
    ∧ (∀ k group, groups !! k = Some group →
         (0 < length group ≤ grouping_level)%nat
         ∧ (S k < length groups → length group = grouping_level)%nat).
Proof.
  intros Hn. destruct (slices_spec grouping_level cluster_list Hn)
    as (groups & Hs & Hc & Hl & Hk).
  exists groups. split; [done|]. split; [done|]. split; [done|].
  intros k group Hg. by destruct (Hk k group Hg) as (_ & ? & ?).
Qed.

Lemma group_clusters_by_level_partition_witness :
  ∃ groups,
    helpers.group_clusters_by_level ["a"; "b"; "c"; "d"; "e"] 2 = inr groups
    ∧ concat groups = ["a"; "b"; "c"; "d"; "e"]
    ∧ length groups = ((5 + 2 - 1) / 2)%nat
    ∧ (∀ k group, groups !! k = Some group →
         (0 < length group ≤ 2)%nat
         ∧ (S k < length groups → length group = 2)%nat).
Proof.
  apply (group_clusters_by_level_partition ["a"; "b"; "c"; "d"; "e"] 2). lia.
Defined.

(** ** The grid of [get_timestamps] *)

Lemma timestamps_loop_below (interval_end interval : float) (fuel : nat) :
  ∀ current,
    (∀ k, (k < fuel)%nat →
          current + Q2Qc (inject_Z (Z.of_nat k)) * interval ≤ interval_end) →
    helpers.timestamps_loop fuel current interval_end interval
    = (λ k, current + Q2Qc (inject_Z (Z.of_nat k)) * interval) <$> seq 0 fuel.
Proof.
  induction fuel as [|fuel IH]; intros current Hk; [done|].
  simpl. rewrite decide_True.
  - f_equal.
    + replace (Q2Qc (inject_Z (Z.of_nat 0))) with 0 by Qc_compute. ring.
    + rewrite IH.
      * rewrite <- fmap_S_seq, <- list_fmap_compose. apply list_fmap_ext.
        intros _ k _. simpl. rewrite of_nat_S. ring.
      * intros k Hlt. specialize (Hk (S k) ltac:(lia)).
        rewrite of_nat_S in Hk.
        replace (current + interval + Q2Qc (inject_Z (Z.of_nat k)) * interval)
          with (current + (Q2Qc (inject_Z (Z.of_nat k)) + 1) * interval)
          by ring. done.
  - specialize (Hk 0%nat ltac:(lia)).
    replace (Q2Qc (inject_Z (Z.of_nat 0))) with 0 in Hk by Qc_compute.
    by replace (current + 0 * interval) with current in Hk by ring.
Qed.

Lemma grid_bound_Q (s e i : Q) (k : Z) :
  (0 < i)%Q →
  (s + inject_Z k * i <= e)%Q ↔ (k ≤ Qfloor ((e - s) / i))%Z.
Proof.
  intros Hi.
  assert (((e - s) / i) * i == e - s)%Q as Hx by (field; lra).
  set (x := ((e - s) / i)%Q) in *. split.
  - intros Hle. rewrite <- (Qfloor_Z k). apply Qfloor_resp_le.
    apply (Qmult_le_r _ _ i Hi). rewrite Hx. lra.
  - intros Hle. pose proof (Qfloor_le x) as Hfl.
    assert (inject_Z k <= x)%Q as Hkx.
    { apply (Qle_trans _ (inject_Z (Qfloor x))); [|exact Hfl].
      by rewrite <- Zle_Qle. }
    apply (Qmult_le_r _ _ i Hi) in Hkx. rewrite Hx in Hkx. lra.
Qed.

Lemma grid_bound (s e interval : Qc) (k : nat) :
  0 < interval →
  s + Q2Qc (inject_Z (Z.of_nat k)) * interval ≤ e
  ↔ (Z.of_nat k ≤ Qfloor ((e - s) / interval))%Z.
Proof.
  intros Hi. rewrite <- grid_bound_Q by exact Hi.
  unfold Qcmult. Qc_to_Q. done.
Qed.

(** X4: [get_timestamps] returns the arithmetic progression that starts at
    [interval_start] with the step of the sampling rate, and holds the term of
    index [k] exactly when that term is not after [interval_end]; so the list
    is empty when the end is before the start, and it contains the end when
    the end lies on the grid. *)
Theorem get_timestamps_is_the_grid (interval_start interval_end : datetime)
    (sampling_rate : helpers.SamplingRate) :
  let interval := Q2Qc (inject_Z (helpers.RATE_TO_DURATION sampling_rate)) in
  let grid :=
    helpers.get_timestamps interval_start interval_end sampling_rate in
  grid = (λ k, interval_start + Q2Qc (inject_Z (Z.of_nat k)) * interval)
           <$> seq 0 (length grid)
  ∧ ∀ k : nat,
      (k < length grid)%nat
      ↔ interval_start + Q2Qc (inject_Z (Z.of_nat k)) * interval
        ≤ interval_end.
Proof.
  intros interval grid.
  pose proof (rate_positive sampling_rate) as Hpos. fold interval in Hpos.
  pose proof (λ k, grid_bound interval_start interval_end interval k Hpos)
    as Hk.
  unfold grid, helpers.get_timestamps. fold interval.
  set (n := Z.to_nat (Qfloor ((interval_end - interval_start) / interval)))
    in *.
  destruct (decide (interval_start ≤ interval_end)) as [Hle|Hgt].
  - assert (0 ≤ Qfloor ((interval_end - interval_start) / interval))%Z as H0.
    { apply (Hk 0%nat). change (Z.of_nat 0) with 0%Z.
      replace (Q2Qc (inject_Z 0)) with (0 : Qc) by Qc_compute.
      replace (interval_start + 0 * interval) with interval_start by ring.
      exact Hle. }
    rewrite timestamps_loop_below.
    + rewrite length_fmap, length_seq. split; [done|].
      intros k. rewrite Hk. unfold n. lia.
    + intros k Hlt. apply Hk. unfold n in Hlt. lia.
  - simpl. rewrite decide_False by done. split; [done|].
    intros k. simpl. split; [lia|]. intros Hle. exfalso. apply Hgt.
    etrans; [|exact Hle].
    assert (0 ≤ Q2Qc (inject_Z (Z.of_nat k)) * interval) as Hnn.
    { clear Hk Hle. unfold Qcmult. Qc_to_Q.
      apply Qmult_le_0_compat; [|lra].
      change 0%Q with (inject_Z 0). rewrite <- Zle_Qle. lia. }
    set (m := Q2Qc (inject_Z (Z.of_nat k)) * interval) in *. clearbody m.
    Qc_to_Q. lra.
Qed.

(** ** The retrieval loop and its exceptions *)

Lemma for_each_fixed {A S} (body : S → A → result S) (xs : list A) (s : S) :
  (∀ x, x ∈ xs → body s x = inr s) → for_each body xs s = inr s.
Proof.
  induction xs as [|x xs IH]; intros Hbody; [done|]. simpl.
  rewrite Hbody by apply list_elem_of_here. cbn [mbind result_bind].
  apply IH. intros x' Hx'. apply Hbody. by apply list_elem_of_further.
Qed.

(** X5: the [DataFetchError] of a query is swallowed by the retrieval loop:
    when every query raises one (and the grouping level is positive),
    [retrieve_telemetry_data] raises none of them but the
    DATA_FETCH_NO_RESULTS error of the empty filter. *)
Theorem retrieve_raises_no_results_when_every_query_fails (utcoffset : float)
    (labels : ArgosService.Labels) (level : nat) exec_query
    (interval_start interval_end : datetime)
    (sampling_rate : helpers.SamplingRate) (clusters : list string)
    (applications namespaces : option (list string)) :
  (0 < level)%nat →
  (∀ ct apps cluster_group nss,
     ∃ code source details,
       exec_query ct apps cluster_group nss
       = inl (DataFetchError code source details)) →
  ArgosService.retrieve_telemetry_data utcoffset labels level exec_query
    interval_start interval_end sampling_rate clusters applications namespaces
  = inl (DataFetchError DATA_FETCH_NO_RESULTS (Some "ArgosService")
           (Some "no pods found after filtering telemetry data")).
Proof.
  intros Hlevel Hfail.
  rewrite (retrieve_unfold _ _ _ _ _ _ _ _ _ _ []); [by apply finish_no_data|].
  unfold ArgosService.collect, helpers.group_clusters_by_level.
  destruct (slices_spec level clusters Hlevel) as (groups & -> & _).
  cbn [mbind result_bind]. apply for_each_fixed. intros cluster_group _.
  unfold ArgosService.tasks. simpl.
  by destruct (Hfail ArgosService.CPU_UTIL applications cluster_group
                 namespaces) as (code & source & details & ->).
Qed.

Lemma retrieve_raises_no_results_when_every_query_fails_witness :
  ArgosService.retrieve_telemetry_data 0 example_labels 5
    (λ _ _ _ _, inl (DataFetchError DATA_FETCH_FAILED (Some "Thanos") None))
    (Q2Qc 0) (Q2Qc 3600) helpers.ONE_HOUR ["paas1"; "paas2"] None None
  = inl (DataFetchError DATA_FETCH_NO_RESULTS (Some "ArgosService")
           (Some "no pods found after filtering telemetry data")).
Proof.
  apply retrieve_raises_no_results_when_every_query_fails; [lia|].
  intros _ _ _ _. by exists DATA_FETCH_FAILED, (Some "Thanos"), None.
Defined.

(** X6: an exception raised while the response of the first query of the
    first cluster group is parsed (a missing label, the [KeyError] of the
    carbon-intensity table, the [ValueError] of an interpolation) is not
    caught: [retrieve_telemetry_data] raises it. *)
Theorem parse_error_aborts_retrieval (utcoffset : float)
    (labels : ArgosService.Labels) (level : nat) exec_query
    (interval_start interval_end : datetime)
    (sampling_rate : helpers.SamplingRate) (clusters : list string)
    (applications namespaces : option (list string))
    (pod_data : list ArgosService.series_data) (e : exn) :
  (0 < level)%nat →
  clusters ≠ [] →
  exec_query ArgosService.CPU_UTIL applications (take level clusters)
             namespaces = inr pod_data →
  ArgosService.parse_pod_data utcoffset labels pod_data []
    (helpers.get_timestamps interval_start interval_end sampling_rate)
    ArgosService.CPU_UTIL = inl e →
  ArgosService.retrieve_telemetry_data utcoffset labels level exec_query
    interval_start interval_end sampling_rate clusters applications namespaces
  = inl e.
Proof.
  intros Hlevel Hne Hq Hparse.
  unfold ArgosService.retrieve_telemetry_data, ArgosService.collect,
    helpers.group_clusters_by_level.
  destruct (slices_spec level clusters Hlevel)
    as (groups & -> & _ & Hlen & Hk).
  cbn [mbind result_bind].
  destruct groups as [|group groups].
  { exfalso. simpl in Hlen. destruct clusters as [|c clusters]; [done|].
    symmetry in Hlen. apply Nat.div_small_iff in Hlen; [|lia].
    simpl in Hlen. lia. }
  destruct (Hk 0%nat group eq_refl) as (-> & _). rewrite drop_0.
  simpl. rewrite Hq, Hparse. done.
Qed.

Lemma parse_error_aborts_retrieval_witness :
  ArgosService.retrieve_telemetry_data 0 example_labels 5
    (λ _ _ _ _, inr [example_series "u1" "app1" "nce01" [(Q2Qc 0, Q2Qc 2)]])
    (Q2Qc 0) (Q2Qc 3600) helpers.ONE_HOUR ["nce01"] None None
  = inl (KeyError "carbon_intensity").
Proof.
  apply (parse_error_aborts_retrieval 0 example_labels 5 _ _ _ _ ["nce01"]
           None None
           [example_series "u1" "app1" "nce01" [(Q2Qc 0, Q2Qc 2)]]);
    [lia|done|reflexivity|].
  vm_compute. reflexivity.
Defined.

(** ** The identifiers of the returned groups *)

Lemma build_lookup {A} (factory : string → list Pod → nat → result A)
    (groups : list (string * list Pod)) :
  ∀ idx rs, ArgosService.build factory idx groups = inr rs →
            length rs = length groups
            ∧ ∀ i r, rs !! i = Some r →
                ∃ kg, groups !! i = Some kg
                      ∧ factory kg.1 kg.2 (idx + i)%nat = inr r.
Proof.
  induction groups as [|[k g] groups IH]; intros idx rs Hb; simpl in Hb.
  - injection Hb as <-. split; [done|]. by intros i r ?.
  - destruct (factory k g idx) as [|r0] eqn:Hr; [done|].
    cbn [mbind result_bind] in Hb.
    destruct (ArgosService.build factory (S idx) groups) as [|rs'] eqn:Hrs;
      [done|].
    injection Hb as <-. destruct (IH (S idx) rs' Hrs) as [Hlen Hlook].
    split; [by simpl; rewrite Hlen|].
    intros [|i] r Hi; simpl in Hi.
    + injection Hi as <-. exists (k, g). by rewrite Nat.add_0_r.
    + destruct (Hlook i r Hi) as (kg & Hkg & Hf). exists kg.
      split; [done|]. by replace (idx + S i)%nat with (S idx + i)%nat by lia.
Qed.

(** X7: the groups that [retrieve_telemetry_data] returns are at least one,
    the group at position [i] has the id [str(i)], and no two groups share an
    id or a name. *)
Theorem groups_are_numbered_and_named_apart (utcoffset : float)
    (labels : ArgosService.Labels) (level : nat) exec_query
    (interval_start interval_end : datetime)
    (sampling_rate : helpers.SamplingRate) (clusters : list string)
    (applications namespaces : option (list string))
    (groups : list Group) :
  ArgosService.retrieve_telemetry_data utcoffset labels level exec_query
    interval_start interval_end sampling_rate clusters applications namespaces
  = inr groups →
  groups ≠ []
  ∧ (∀ i (g : Group), groups !! i = Some g → id g = str i)
  ∧ NoDup ((λ g : Group, id g) <$> groups)
  ∧ NoDup ((λ g : Group, name g) <$> groups).
Proof.
  unfold ArgosService.retrieve_telemetry_data.
  destruct (ArgosService.collect _ _ _ _ _ _ _ _) as [|d]; [done|].
  cbn [mbind result_bind]. unfold ArgosService.finish.
  case_decide as Hempty; [done|].
  destruct (ArgosService.grouping applications) as [key cls0].
  unfold ArgosService.split_pods_by_resource. intros Hb.
  apply build_lookup in Hb as [Hlen Hlook].
  destruct (groups_of_spec key (ArgosService.filter_pods d))
    as (Hnd & Hel & Hcov).
  assert (∀ i (g : Group), groups !! i = Some g →
            id g = str i
            ∧ (groups_of key (ArgosService.filter_pods d)).*1 !! i
              = Some (default "" (name g)) ∧ is_Some (name g)) as Hg.
  { intros i g Hi. destruct (Hlook i g Hi) as ([k g0] & Hkg & Hcr).
    apply create_resource_inr in Hcr as (_ & _ & Hname & Hid & _).
    simpl in Hname, Hid. split; [done|]. rewrite Hname. split; [|done].
    change (groups_of key (ArgosService.filter_pods d))
      with (ArgosService.groups_of key (ArgosService.filter_pods d)).
    by rewrite list_lookup_fmap, Hkg. }
  split; [|split; [|split]].
  - intros ->. simpl in Hlen.
    destruct (ArgosService.filter_pods d) as [|pod l] eqn:E; [done|].
    pose proof (Hcov pod (list_elem_of_here _ _)) as Hin.
    symmetry in Hlen. apply nil_length_inv in Hlen.
    change (groups_of key (pod :: l))
      with (ArgosService.groups_of key (pod :: l)) in Hin.
    rewrite Hlen in Hin. by inversion Hin.
  - intros i g Hi. by destruct (Hg i g Hi).
  - apply NoDup_alt. intros i j x Hi Hj.
    rewrite list_lookup_fmap in Hi, Hj.
    destruct (groups !! i) as [gi|] eqn:Ei; [|done].
    destruct (groups !! j) as [gj|] eqn:Ej; [|done].
    simpl in Hi, Hj. destruct (Hg i gi Ei) as [Hidi _].
    destruct (Hg j gj Ej) as [Hidj _].
    assert (str i = str j) as Hs by congruence.
    unfold str in Hs. by apply (inj pretty) in Hs.
  - apply NoDup_alt. intros i j x Hi Hj.
    rewrite list_lookup_fmap in Hi, Hj.
    destruct (groups !! i) as [gi|] eqn:Ei; [|done].
    destruct (groups !! j) as [gj|] eqn:Ej; [|done].
    simpl in Hi, Hj. destruct (Hg i gi Ei) as (_ & Hki & _).
    destruct (Hg j gj Ej) as (_ & Hkj & _).
    apply (NoDup_lookup _ i j (default "" x) Hnd); congruence.
Qed.

Lemma groups_are_numbered_and_named_apart_witness :
  ∃ groups,
    ArgosService.retrieve_telemetry_data 0 example_labels 5 example_two_pods
      (Q2Qc 0) (Q2Qc 3600) helpers.ONE_HOUR ["paas1"] (Some ["app1"; "app2"])
      None = inr groups
    ∧ length groups = 2%nat
    ∧ (∀ i (g : Group), groups !! i = Some g → id g = str i).
Proof.
  destruct (ArgosService.retrieve_telemetry_data 0 example_labels 5
              example_two_pods (Q2Qc 0) (Q2Qc 3600) helpers.ONE_HOUR
              ["paas1"] (Some ["app1"; "app2"]) None)
    as [e|groups] eqn:R; [by vm_compute in R|].
  exists groups. split; [done|].
  destruct (groups_are_numbered_and_named_apart _ _ _ _ _ _ _ _ _ _ _ R)
    as (_ & Hid & _).
  split; [|done]. vm_compute in R. by injection R as <-.
Defined.

(** ** One series touches one pod *)

Lemma lookup_pod_None (d : list (string * Pod)) (uid : string) :
  ArgosService.lookup_pod d uid = None ↔ uid ∉ d.*1.
Proof.
  induction d as [|[k pod] d IH].
  - split; [by intros _ ?%elem_of_nil|done].
  - rewrite fmap_cons, not_elem_of_cons. cbn [ArgosService.lookup_pod fst].
    case_decide as Hk.
    + split; [done|]. by intros [? _].
    + rewrite IH. split; [|by intros [_ ?]].
      intros Hn. split; [by intros ->|done].
Qed.

Lemma lookup_pod_snoc (d : list (string * Pod)) (k uid : string) (pod : Pod) :
  ArgosService.lookup_pod (d ++ [(k, pod)]) uid
  = match ArgosService.lookup_pod d uid with
    | Some pod' => Some pod'
    | None => if decide (k = uid) then Some pod else None
    end.
Proof.
  induction d as [|[k0 pod0] d IH]; [done|].
  rewrite <- app_comm_cons. cbn [ArgosService.lookup_pod].
  destruct (decide (k0 = uid)); [done|apply IH].
Qed.

Lemma lookup_pod_assign (d : list (string * Pod)) (uid attr : string)
    (v : list float) (k : string) :
  ArgosService.lookup_pod (ArgosService.assign d uid attr v) k
  = (λ pod : Pod,
       if decide (k = uid) then with_resource (set_list attr v pod) pod
       else pod) <$> ArgosService.lookup_pod d k.
Proof.
  unfold ArgosService.assign.
  induction d as [|[k0 pod0] d IH]; [done|]. rewrite fmap_cons. simpl.
  destruct (decide (k0 = uid)) as [->|Hne]; simpl.
  - destruct (decide (uid = k)) as [->|Hne']; simpl.
    + by destruct (decide (k = k)).
    + apply IH.
  - destruct (decide (k0 = k)) as [->|Hne']; simpl.
    + by destruct (decide (k = uid)) as [->|].
    + apply IH.
Qed.

Lemma assign_keys (d : list (string * Pod)) (uid attr : string)
    (v : list float) :
  (ArgosService.assign d uid attr v).*1 = d.*1.
Proof.
  unfold ArgosService.assign. rewrite <- list_fmap_compose.
  apply list_fmap_ext. intros _ [k pod] _. simpl. by case_decide.
Qed.

Lemma setdefault_keys (d : list (string * Pod)) (uid : string) (pod : Pod) :
  (ArgosService.setdefault d uid pod).*1
  = if decide (uid ∈ d.*1) then d.*1 else (d.*1 ++ [uid])%list.
Proof.
  unfold ArgosService.setdefault.
  destruct (ArgosService.lookup_pod d uid) as [pod'|] eqn:E.
  - rewrite decide_True; [done|].
    destruct (decide (uid ∈ d.*1)) as [|Hn]; [done|].
    apply lookup_pod_None in Hn. congruence.
  - apply lookup_pod_None in E. rewrite decide_False by done.
    by rewrite fmap_app.
Qed.

(** X8: parsing one series changes one pod of the dict: the uids keep their
    order, the uid of the series being appended when it is new; every other
    pod is as before; the pod of the series holds the aligned values under the
    attribute of the consumption type, and when it was in the dict already it
    keeps its labels, name, carbon intensity, pue, time points and its other
    series. *)
Theorem parse_series_touches_one_pod (utcoffset : float)
    (labels : ArgosService.Labels) (desired : list datetime)
    (ct : ArgosService.HardwareConsumptionType)
    (d d' : list (string * Pod)) (data : ArgosService.series_data) :
  ArgosService.parse_series utcoffset labels desired ct d data = inr d' →
  ∃ uid values_list,
    ArgosService.metric data !! "uid" = Some uid
    ∧ ArgosService.align utcoffset desired (ArgosService.values data)
      = inr values_list
    ∧ d'.*1 = (if decide (uid ∈ d.*1) then d.*1 else (d.*1 ++ [uid])%list)
    ∧ (∀ k, k ≠ uid →
         ArgosService.lookup_pod d' k = ArgosService.lookup_pod d k)
    ∧ ∃ pod' : Pod,
        ArgosService.lookup_pod d' uid = Some pod'
        ∧ list_attr pod' (ArgosService.attribute ct) = values_list
        ∧ ∀ pod : Pod,
            ArgosService.lookup_pod d uid = Some pod →
            app pod' = app pod ∧ paas pod' = paas pod
            ∧ namespace pod' = namespace pod ∧ name pod' = name pod
            ∧ floats pod' = floats pod
            ∧ time_points pod' = time_points pod
            ∧ ∀ attr, attr ≠ ArgosService.attribute ct →
                      list_attr pod' attr = list_attr pod attr.
Proof.
  unfold ArgosService.parse_series.
  destruct (getitem (ArgosService.metric data) "uid") as [|uid] eqn:Huid;
    [done|]. cbn [mbind result_bind].
  repeat (match goal with
          | |- (?m ≫= _) = _ → _ => destruct m eqn:?; [done|]
          end; cbn [mbind result_bind mret result_ret]).
  intros [= <-]. exists uid. eexists. split.
  { unfold getitem in Huid.
    destruct (ArgosService.metric data !! "uid"); [|done].
    by injection Huid as ->. }
  split; [done|]. split; [by rewrite assign_keys, setdefault_keys|].
  split.
  - intros k Hk. rewrite lookup_pod_assign.
    unfold ArgosService.setdefault.
    destruct (ArgosService.lookup_pod d uid) eqn:E.
    + destruct (ArgosService.lookup_pod d k); simpl; [|done].
      by rewrite decide_False.
    + rewrite lookup_pod_snoc.
      destruct (ArgosService.lookup_pod d k); simpl.
      * by rewrite decide_False.
      * by rewrite decide_False by done.
  - rewrite lookup_pod_assign. unfold ArgosService.setdefault.
    destruct (ArgosService.lookup_pod d uid) as [pod|] eqn:E.
    + rewrite E. simpl. rewrite decide_True by done. eexists.
      split; [done|]. simpl. rewrite list_attr_set_list.
      rewrite decide_True by done. split; [done|].
      intros pod0 [= <-]. repeat split.
      intros attr Hattr. rewrite list_attr_set_list. by rewrite decide_False.
    + rewrite lookup_pod_snoc, E. rewrite decide_True by done. simpl.
      rewrite decide_True by done. eexists. split; [done|]. simpl.
      rewrite list_attr_set_list. rewrite decide_True by done. done.
Qed.

Lemma parse_series_touches_one_pod_witness :
  ∃ d',
    ArgosService.parse_series 0 example_labels [Q2Qc 0; Q2Qc 3600]
      ArgosService.CPU_UTIL []
      (example_series "u1" "app1" "paas1"
         [(Q2Qc 0, Q2Qc 2); (Q2Qc 3600, Q2Qc 4)]) = inr d'
    ∧ d'.*1 = ["u1"].
Proof.
  destruct (ArgosService.parse_series 0 example_labels [Q2Qc 0; Q2Qc 3600]
              ArgosService.CPU_UTIL []
              (example_series "u1" "app1" "paas1"
                 [(Q2Qc 0, Q2Qc 2); (Q2Qc 3600, Q2Qc 4)]))
    as [e|d'] eqn:R; [by vm_compute in R|].
  exists d'. split; [done|].
  destruct (parse_series_touches_one_pod _ _ _ _ _ _ _ R)
    as (uid & values_list & Huid & _ & Hkeys & _).
  vm_compute in Huid. injection Huid as <-. exact Hkeys.
Defined.

(** ** What the parser writes on a resource *)

Section Inserts.
Context {E V : Type}.
Variable f : E → option (string * V).

Lemma foldl_inserts_frame (entries : list E) (attr : string) :
  ∀ acc : gmap string V,
    (∀ e k v, e ∈ entries → f e = Some (k, v) → k ≠ attr) →
    foldl (λ acc e, match f e with
                    | Some (k, v) => <[k := v]> acc
                    | None => acc
                    end) acc entries !! attr
    = acc !! attr.
Proof.
  induction entries as [|e entries IH]; intros acc Hne; [done|]. simpl.
  rewrite IH by (intros e' k v He'; apply Hne; by apply list_elem_of_further).
  destruct (f e) as [[k v]|] eqn:Hfe; [|done].
  rewrite lookup_insert_ne; [done|].
  by apply (Hne e k v); [apply list_elem_of_here|].
Qed.

Lemma foldl_inserts_hit (entries : list E) (k : string) (v : V) :
  ∀ acc : gmap string V,
    (∃ e, e ∈ entries ∧ f e = Some (k, v)) →
    (∀ e' v', e' ∈ entries → f e' = Some (k, v') → v' = v) →
    foldl (λ acc e, match f e with
                    | Some (k, v) => <[k := v]> acc
                    | None => acc
                    end) acc entries !! k
    = Some v.
Proof.
  induction entries as [|e entries IH] using rev_ind;
    intros acc (e0 & Hin & He0) Huniq.
  { by inversion Hin. }
  rewrite foldl_app. simpl.
  destruct (f e) as [[k' v']|] eqn:Hfe.
  - destruct (decide (k' = k)) as [->|Hne].
    + rewrite lookup_insert_eq. f_equal. apply (Huniq e); [|done].
      apply elem_of_app. right. apply list_elem_of_here.
    + rewrite lookup_insert_ne by done. apply IH.
      * apply elem_of_app in Hin as [Hin|Hin%list_elem_of_singleton].
        -- by exists e0.
        -- subst e0. congruence.
      * intros e' v'' He'. apply Huniq. apply elem_of_app. by left.
  - apply IH.
    + apply elem_of_app in Hin as [Hin|Hin%list_elem_of_singleton].
      * by exists e0.
      * subst e0. congruence.
    + intros e' v'' He'. apply Huniq. apply elem_of_app. by left.
Qed.

End Inserts.

Lemma map_metrics_fold (metrics : list (string * MetricsMapper.measurement))
    (entries : list (string * (string * option string))) :
  ∀ r r',
    for_each (MetricsMapper.map_metric metrics) entries r = inr r' →
    id r' = id r ∧ name r' = name r ∧ time_points r' = time_points r
    ∧ lists r'
      = foldl (λ acc e,
                 match
                   (λ e : string * (string * option string),
                      m ← MetricsMapper.assoc metrics e.1;
                      Some (e.2.1,
                            omap (λ o, o) (MetricsMapper.observations m))) e
                 with
                 | Some (k, v) => <[k := v]> acc
                 | None => acc
                 end) (lists r) entries
    ∧ floats r'
      = foldl (λ acc e,
                 match
                   (λ e : string * (string * option string),
                      m ← MetricsMapper.assoc metrics e.1;
                      a ← e.2.2;
                      v ← MetricsMapper.aggregated m;
                      Some (a, v)) e
                 with
                 | Some (k, v) => <[k := v]> acc
                 | None => acc
                 end) (floats r) entries
    ∧ Forall (λ e : string * (string * option string),
                ∀ m a, MetricsMapper.assoc metrics e.1 = Some m →
                       e.2.2 = Some a →
                       is_Some (MetricsMapper.aggregated m)) entries.
Proof.
  induction entries as [|[key [obs agg]] entries IH]; intros r r' Hrun.
  - simpl in Hrun. injection Hrun as <-. by repeat split.
  - simpl in Hrun.
    destruct (MetricsMapper.assoc metrics key) as [m|] eqn:Hm.
    + destruct agg as [a|].
      * destruct (MetricsMapper.aggregated m) as [v|] eqn:Hv; [|done].
        cbn [mbind result_bind mret result_ret] in Hrun.
        destruct (IH _ _ Hrun) as (-> & -> & -> & -> & -> & Hall).
        simpl. rewrite Hm. simpl. rewrite Hv. simpl.
        repeat split. constructor; [|done]. simpl.
        intros m' a' Hm' _. simpl in Hm'.
        assert (m' = m) as -> by congruence.
        by rewrite Hv.
      * cbn [mbind result_bind mret result_ret] in Hrun.
        destruct (IH _ _ Hrun) as (-> & -> & -> & -> & -> & Hall).
        simpl. rewrite Hm. simpl. repeat split. constructor; [|done].
        intros m' a' _ Ha. by simpl in Ha.
    + cbn [mbind result_bind mret result_ret] in Hrun.
      destruct (IH _ _ Hrun) as (-> & -> & -> & -> & -> & Hall).
      simpl. rewrite Hm. simpl. repeat split. constructor; [|done].
      intros m' a' Hm'. simpl in Hm'. congruence.
Qed.

Lemma METRICS_MAPPER_attributes_apart
    (e e' : string * (string * option string)) :
  e ∈ MetricsMapper.METRICS_MAPPER → e' ∈ MetricsMapper.METRICS_MAPPER →
  (e.2.1 = e'.2.1 → e = e')
  ∧ (∀ a, e.2.2 = Some a → e'.2.2 = Some a → e = e').
Proof.
  unfold MetricsMapper.METRICS_MAPPER. intros He He'.
  repeat (apply elem_of_cons in He as [->|He]);
    try (by inversion He);
    repeat (apply elem_of_cons in He' as [->|He']);
    try (by inversion He'); split; simpl; intros; by simplify_eq.
Qed.

Lemma map_metrics_spec
    (metrics : list (string * MetricsMapper.measurement)) (r r' : Resource) :
  MetricsMapper.map_metrics_to_resource metrics r = inr r' →
  id r' = id r ∧ name r' = name r ∧ time_points r' = time_points r
  ∧ (∀ key obs agg m,
       (key, (obs, agg)) ∈ MetricsMapper.METRICS_MAPPER →
       MetricsMapper.assoc metrics key = Some m →
       list_attr r' obs = omap (λ o, o) (MetricsMapper.observations m)
       ∧ ∀ a, agg = Some a →
              ∃ v, MetricsMapper.aggregated m = Some v ∧ float_attr r' a = v)
  ∧ (∀ attr,
       (∀ key obs agg,
          (key, (obs, agg)) ∈ MetricsMapper.METRICS_MAPPER →
          is_Some (MetricsMapper.assoc metrics key) → obs ≠ attr) →
       list_attr r' attr = list_attr r attr)
  ∧ (∀ attr,
       (∀ key obs a,
          (key, (obs, Some a)) ∈ MetricsMapper.METRICS_MAPPER →
          is_Some (MetricsMapper.assoc metrics key) → a ≠ attr) →
       float_attr r' attr = float_attr r attr).
Proof.
  unfold MetricsMapper.map_metrics_to_resource. intros Hrun.
  apply map_metrics_fold in Hrun as (Hid & Hname & Ht & Hl & Hf & Hagg).
  rewrite Forall_forall in Hagg.
  split; [done|]. split; [done|]. split; [done|]. split; [|split].
  - intros key obs agg m Hin Hm. split.
    + unfold list_attr. rewrite Hl.
      erewrite foldl_inserts_hit; [done| |].
      * exists (key, (obs, agg)). split; [done|]. simpl. by rewrite Hm.
      * intros e' v' He' Hv'. simpl in Hv'.
        destruct (MetricsMapper.assoc metrics e'.1) as [m'|] eqn:Hm';
          [|done]. simpl in Hv'. injection Hv' as Hobs <-.
        destruct (METRICS_MAPPER_attributes_apart e' (key, (obs, agg)) He' Hin)
          as [Heq _]. rewrite (Heq Hobs) in Hm'. simpl in Hm'. congruence.
    + intros a ->.
      destruct (Hagg _ Hin m a Hm eq_refl) as [v Hv]. exists v.
      split; [done|]. unfold float_attr. rewrite Hf.
      erewrite foldl_inserts_hit; [done| |].
      * exists (key, (obs, Some a)). split; [done|]. simpl.
        rewrite Hm. simpl. by rewrite Hv.
      * intros e' v' He' Hv'. simpl in Hv'.
        destruct (MetricsMapper.assoc metrics e'.1) as [m'|] eqn:Hm';
          [|done]. simpl in Hv'.
        destruct (e'.2.2) as [a'|] eqn:Ha'; [|done]. simpl in Hv'.
        destruct (MetricsMapper.aggregated m') as [v''|] eqn:Hv'';
          [|done]. simpl in Hv'. injection Hv' as -> <-.
        destruct (METRICS_MAPPER_attributes_apart e' (key, (obs, Some a))
                    He' Hin) as [_ Heq].
        rewrite (Heq a Ha' eq_refl) in Hm'. simpl in Hm'. congruence.
  - intros attr Hattr. unfold list_attr. rewrite Hl.
    rewrite foldl_inserts_frame; [done|].
    intros [key [obs agg]] k v He Hv. simpl in Hv.
    destruct (MetricsMapper.assoc metrics key) as [m|] eqn:Hm; [|done].
    simpl in Hv. injection Hv as <- _. apply (Hattr key obs agg He).
    by rewrite Hm.
  - intros attr Hattr. unfold float_attr. rewrite Hf.
    rewrite foldl_inserts_frame; [done|].
    intros [key [obs agg]] k v He Hv. simpl in Hv.
    destruct (MetricsMapper.assoc metrics key) as [m|] eqn:Hm; [|done].
    simpl in Hv. destruct agg as [a|]; [|done]. simpl in Hv.
    destruct (MetricsMapper.aggregated m); [|done]. simpl in Hv.
    injection Hv as <- _. apply (Hattr key obs a He). by rewrite Hm.
Qed.



(** ** The output parser stops at the first resource it cannot find *)

(** X10: [aggregate_app_level] is not atomic: when the evaluator output has
    no entry for a resource, the call raises the [KeyError] of its id, the
    resources before it in the list keep the metrics they were given, and it
    and the resources after it are left as they were. *)
Theorem aggregate_app_level_stops_at_missing_id {A : Type} `{IsResource A}
    (if_output : gmap string IFService.tree_node)
    (parsed parsed' rest : list A) (x : A) :
  IFService.aggregate_app_level parsed if_output = (parsed', inr ()) →
  if_output !! id (resource_of x) = None →
  IFService.aggregate_app_level (parsed ++ x :: rest) if_output
  = ((parsed' ++ x :: rest)%list, inl (KeyError (id (resource_of x)))).
Proof.
  intros Hparsed Hx. revert parsed' Hparsed.
  induction parsed as [|y parsed IH]; intros parsed' Hparsed.
  - simpl in Hparsed. injection Hparsed as <-. simpl.
    unfold IFService.get_measurements_from_output, getitem. by rewrite Hx.
  - rewrite <- app_comm_cons. simpl in *.
    destruct (_ ≫= _) as [e|r]; [by injection Hparsed|].
    destruct (IFService.aggregate_app_level parsed if_output)
      as [parsed1 out1].
    injection Hparsed as <- ->. by rewrite (IH parsed1 eq_refl).
Qed.

Lemma aggregate_app_level_stops_at_missing_id_witness :
  let other := mkResource "other" None [] ∅ ∅ in
  let if_output : gmap string IFService.tree_node :=
    list_to_map
      [("vm", {| IFService.node :=
                   {| IFService.aggregated_data := [("carbon", 1)];
                      IFService.outputs := [ {[ "carbon" := IF.Num 1 ]} ] |};
                 IFService.children := None |})] in
  ∃ parsed',
    IFService.aggregate_app_level
      ([vm_205 (Q2Qc 0.3)] ++ other :: [vm_205 (Q2Qc 0.5)]) if_output
    = ((parsed' ++ other :: [vm_205 (Q2Qc 0.5)])%list,
       inl (KeyError (id (resource_of other))))
    ∧ (λ r, this <$> list_attr r "carbon_emitted") <$> parsed' = [[1%Q]].
Proof.
  intros other if_output.
  destruct (IFService.aggregate_app_level [vm_205 (Q2Qc 0.3)] if_output)
    as [parsed' out] eqn:E.
  assert (out = inr ()) as -> by (vm_compute in E; by injection E as _ <-).
  exists parsed'. split.
  - apply aggregate_app_level_stops_at_missing_id; [exact E|].
    vm_compute. reflexivity.
  - vm_compute in E. injection E as <-. vm_compute. reflexivity.
Defined.

(** ** The measurements read from the evaluator output *)

Lemma append_observations_spec (timepoint : gmap string IF.value)
    (metrics : list (string * MetricsMapper.measurement)) :
  ∀ metrics',
    IFService.append_observations timepoint metrics = inr metrics' →
    Forall2 (λ km km',
               km'.1 = km.1
               ∧ ∃ o, IFService.observation timepoint km.1 = inr o
                      ∧ MetricsMapper.observations km'.2
                        = (MetricsMapper.observations km.2 ++ [o])%list)
            metrics metrics'.
Proof.
  induction metrics as [|[metric metric_data] metrics IH];
    intros metrics' Hrun; simpl in Hrun.
  - injection Hrun as <-. constructor.
  - destruct (IFService.observation timepoint metric) as [|o] eqn:Ho; [done|].
    cbn [mbind result_bind] in Hrun.
    destruct (IFService.append_observations timepoint metrics) as [|rest];
      [done|]. cbn [mbind result_bind mret result_ret] in Hrun.
    injection Hrun as <-. constructor; [|by apply IH].
    split; [done|]. by exists o.
Qed.

Lemma measurements_rows (rows : list (gmap string IF.value)) :
  ∀ metrics0 metrics,
    for_each (λ metrics timepoint,
                IFService.append_observations timepoint metrics)
             rows metrics0 = inr metrics →
    Forall2 (λ km0 km,
               km.1 = km0.1
               ∧ ∃ os, length os = length rows
                       ∧ MetricsMapper.observations km.2
                         = (MetricsMapper.observations km0.2 ++ os)%list
                       ∧ ∀ j row, rows !! j = Some row →
                           ∃ o, IFService.observation row km0.1 = inr o
                                ∧ os !! j = Some o)
            metrics0 metrics.
Proof.
  induction rows as [|row rows IH]; intros metrics0 metrics Hrun;
    simpl in Hrun.
  - injection Hrun as <-. apply Forall_Forall2_diag, Forall_forall.
    intros km _. split; [done|]. exists []. split; [done|].
    split; [by rewrite app_nil_r|]. by intros j row ?.
  - destruct (IFService.append_observations row metrics0) as [|metrics1] eqn:H1;
      [done|]. cbn [mbind result_bind] in Hrun.
    apply append_observations_spec in H1. apply IH in Hrun.
    apply Forall2_same_length_lookup. split.
    { by rewrite (Forall2_length _ _ _ H1), (Forall2_length _ _ _ Hrun). }
    intros i km0 km Hkm0 Hkm.
    destruct (Forall2_lookup_l _ _ _ _ _ H1 Hkm0)
      as (km1 & Hkm1 & Hkey1 & o & Ho & Hobs1).
    destruct (Forall2_lookup_l _ _ _ _ _ Hrun Hkm1)
      as (km' & Hkm' & Hkey & os & Hlen & Hobs & Hrows).
    rewrite Hkm in Hkm'. injection Hkm' as <-.
    split; [congruence|]. exists (o :: os). split; [by simpl; rewrite Hlen|].
    split; [by rewrite Hobs, Hobs1, <- app_assoc|].
    intros [|j] row' Hrow'; simpl in Hrow'.
    + injection Hrow' as <-. by exists o.
    + rewrite Hkey1 in Hrows. apply (Hrows j row' Hrow').
Qed.

Lemma assoc_set_keys {V} (d : list (string * V)) (key : string) (v : V) :
  (MetricsMapper.assoc_set d key v).*1
  = if decide (key ∈ d.*1) then d.*1 else (d.*1 ++ [key])%list.
Proof.
  induction d as [|[k v'] d IH]; [done|].
  cbn [MetricsMapper.assoc_set]. rewrite fmap_cons. simpl fst.
  destruct (decide (k = key)) as [->|Hne].
  - rewrite decide_True by apply list_elem_of_here. done.
  - rewrite fmap_cons, IH. simpl fst.
    destruct (decide (key ∈ d.*1)) as [Hin|Hin].
    + by rewrite decide_True by (by apply list_elem_of_further).
    + rewrite decide_False; [done|].
      intros [?|?]%elem_of_cons; congruence.
Qed.

Lemma initial_measurements (aggregated_data : list (string * float)) :
  ∀ metrics0,
    Forall (λ km : string * MetricsMapper.measurement,
              MetricsMapper.observations km.2 = []) metrics0 →
    let metrics :=
      foldl (λ metrics '(metric, v),
               MetricsMapper.assoc_set metrics metric
                 {| MetricsMapper.aggregated := Some (IFService.round4 v);
                    MetricsMapper.observations := [] |})
            metrics0 aggregated_data in
    Forall (λ km : string * MetricsMapper.measurement,
              MetricsMapper.observations km.2 = []) metrics
    ∧ ∀ key, key ∈ metrics.*1 ↔ key ∈ metrics0.*1 ∨ key ∈ aggregated_data.*1.
Proof.
  induction aggregated_data as [|[metric v] aggregated_data IH];
    intros metrics0 Hall; simpl.
  - split; [done|]. intros key. rewrite elem_of_nil. tauto.
  - destruct (IH (MetricsMapper.assoc_set metrics0 metric
                    {| MetricsMapper.aggregated := Some (IFService.round4 v);
                       MetricsMapper.observations := [] |})) as [Hobs Hkeys].
    { clear IH. induction metrics0 as [|[k m] metrics0 IH0]; simpl.
      - by repeat constructor.
      - apply Forall_cons in Hall as [Hm Hall].
        case_decide; constructor; try done. by apply IH0. }
    split; [done|]. intros key. rewrite Hkeys, assoc_set_keys.
    rewrite elem_of_cons. case_decide as Hin.
    + split; [tauto|]. intros [?|[->|?]]; eauto.
    + rewrite elem_of_app, list_elem_of_singleton. tauto.
Qed.

Lemma measurements_hold_rows {N : Type}
    (node_of : N → IFService.node_output) (if_output : gmap string N)
    (compute_resource_id : string)
    (metrics : list (string * MetricsMapper.measurement)) :
  IFService.get_measurements_from_output node_of if_output compute_resource_id
  = inr metrics →
  ∃ entry,
    if_output !! compute_resource_id = Some entry
    ∧ (∀ key, key ∈ metrics.*1
              ↔ key = "timestamp"
                ∨ key ∈ (IFService.aggregated_data (node_of entry)).*1)
    ∧ ∀ key m, (key, m) ∈ metrics →
        length (MetricsMapper.observations m)
        = length (IFService.outputs (node_of entry))
        ∧ ∀ j row, IFService.outputs (node_of entry) !! j = Some row →
            if decide (key ∈ ["timestamp"; "duration"])
            then MetricsMapper.observations m !! j = Some None
            else ∃ q, row !! key = Some (IF.Num q)
                      ∧ MetricsMapper.observations m !! j
                        = Some (Some (IFService.round4 q)).
Proof.
  unfold IFService.get_measurements_from_output, getitem.
  destruct (if_output !! compute_resource_id) as [entry|]; [|done].
  cbn [mbind result_bind mret result_ret]. intros Hrun. exists entry.
  split; [done|].
  apply measurements_rows in Hrun.
  destruct (initial_measurements (IFService.aggregated_data (node_of entry))
              [("timestamp",
                {| MetricsMapper.aggregated := None;
                   MetricsMapper.observations := [] |})]) as [Hnil Hkeys].
  { by repeat constructor. }
  cbv zeta in Hnil, Hkeys. set (metrics0 := foldl _ _ _) in *.
  split.
  - intros key. rewrite <- (list_elem_of_singleton key "timestamp").
    rewrite <- (Hkeys key).
    assert (metrics.*1 = metrics0.*1) as ->; [|done].
    apply list_eq_Forall2. apply Forall2_fmap.
    eapply Forall2_flip, Forall2_impl; [exact Hrun|]. by intros ?? [-> _].
  - intros key m Hin. apply list_elem_of_lookup in Hin as [i Hi].
    destruct (Forall2_lookup_r _ _ _ _ _ Hrun Hi)
      as ([key0 m0] & Hm0 & Hkey & os & Hlen & Hobs & Hrows).
    simpl in Hkey, Hobs, Hrows. subst key0.
    rewrite Forall_forall in Hnil.
    pose proof (Hnil (key, m0) (list_elem_of_lookup_2 _ _ _ Hm0)) as Hn.
    simpl in Hn. rewrite Hn in Hobs. simpl in Hobs. rewrite Hobs.
    split; [done|].
    intros j row Hrow. destruct (Hrows j row Hrow) as (o & Ho & Hj).
    unfold IFService.observation in Ho. case_decide.
    + injection Ho as <-. done.
    + unfold getitem in Ho. destruct (row !! key) as [[q|t]|]; try done.
      cbn in Ho. injection Ho as <-. by exists q.
Qed.

(** X11: when [get_measurements_from_output] returns, the resource has an
    entry in the output, the metrics are ["timestamp"] and the keys of the
    aggregated data, and every metric holds one observation per output row:
    [None] for ["timestamp"] and ["duration"], otherwise the number of the row
    under that key rounded to four decimals. *)
Theorem measurements_hold_one_observation_per_row {N : Type}
    (node_of : N → IFService.node_output) (if_output : gmap string N)
    (compute_resource_id : string)
    (metrics : list (string * MetricsMapper.measurement)) :
  IFService.get_measurements_from_output node_of if_output compute_resource_id
  = inr metrics →
  ∃ entry,
    if_output !! compute_resource_id = Some entry
    ∧ (∀ key, key ∈ metrics.*1
              ↔ key = "timestamp"
                ∨ key ∈ (IFService.aggregated_data (node_of entry)).*1)
    ∧ ∀ key m, (key, m) ∈ metrics →
        length (MetricsMapper.observations m)
        = length (IFService.outputs (node_of entry))
        ∧ ∀ j row, IFService.outputs (node_of entry) !! j = Some row →
            if decide (key ∈ ["timestamp"; "duration"])
            then MetricsMapper.observations m !! j = Some None
            else ∃ q, row !! key = Some (IF.Num q)
                      ∧ MetricsMapper.observations m !! j
                        = Some (Some (IFService.round4 q)).
Proof. apply measurements_hold_rows. Qed.

Lemma measurements_hold_one_observation_per_row_witness :
  ∃ metrics entry,
    IFService.get_measurements_from_output IFService.node
      (list_to_map [("vm", example_node)]) "vm" = inr metrics
    ∧ (list_to_map [("vm", example_node)] : gmap string IFService.tree_node)
        !! "vm" = Some entry
    ∧ ∀ key m, (key, m) ∈ metrics →
        length (MetricsMapper.observations m)
        = length (IFService.outputs (IFService.node entry)).
Proof.
  destruct (IFService.get_measurements_from_output IFService.node
              (list_to_map [("vm", example_node)]) "vm")
    as [e|metrics] eqn:R; [by vm_compute in R|].
  destruct (measurements_hold_one_observation_per_row _ _ _ _ R)
    as (entry & Hentry & _ & Hrows).
  exists metrics, entry. split; [done|]. split; [done|].
  intros key m Hin. by destruct (Hrows key m Hin).
Defined.

Lemma aggregate_app_level_success {A : Type} `{IsResource A}
    (if_output : gmap string IFService.tree_node) (l : list A) :
  ∀ l', IFService.aggregate_app_level l if_output = (l', inr ()) →
        Forall2 (λ x x',
                   ∃ metrics r,
                     IFService.get_measurements_from_output IFService.node
                       if_output (id (resource_of x)) = inr metrics
                     ∧ MetricsMapper.map_metrics_to_resource metrics
                         (resource_of x) = inr r
                     ∧ x' = with_resource r x) l l'.
Proof.
  induction l as [|x l IH]; intros l' Hrun; simpl in Hrun.
  - injection Hrun as <-. constructor.
  - destruct (IFService.get_measurements_from_output _ _ _) as [|metrics]
      eqn:Hm; [done|]. cbn [mbind result_bind] in Hrun.
    destruct (MetricsMapper.map_metrics_to_resource _ _) as [|r] eqn:Hr;
      [done|].
    destruct (IFService.aggregate_app_level l if_output) as [rest out].
    injection Hrun as <- ->. constructor; [|by apply IH].
    by exists metrics, r.
Qed.

Lemma assoc_elem_of {V} (d : list (string * V)) (key : string) :
  key ∈ d.*1 → ∃ v, MetricsMapper.assoc d key = Some v ∧ (key, v) ∈ d.
Proof.
  induction d as [|[k v] d IH]; [by intros ?%elem_of_nil|].
  rewrite fmap_cons. simpl fst. cbn [MetricsMapper.assoc].
  destruct (decide (k = key)) as [->|Hne].
  - intros _. exists v. split; [done|]. apply list_elem_of_here.
  - intros [?|Hin]%elem_of_cons; [congruence|].
    destruct (IH Hin) as (v' & Hv' & Hin'). exists v'.
    split; [done|]. by apply list_elem_of_further.
Qed.

Lemma omap_all_Some {B} (os : list (option B)) (vs : list B) :
  length os = length vs →
  (∀ j v, vs !! j = Some v → os !! j = Some (Some v)) →
  omap (λ o, o) os = vs.
Proof.
  revert vs. induction os as [|o os IH]; intros [|v vs] Hlen Hall;
    try done. simpl in Hlen.
  pose proof (Hall 0%nat v eq_refl) as H0. simpl in H0. injection H0 as ->.
  cbn [omap list_omap]. f_equal. apply IH; [lia|].
  intros j w Hj. apply (Hall (S j) w Hj).
Qed.

(** X12: after a successful [aggregate_app_level], for every entry of
    [METRICS_MAPPER] whose metric the evaluator aggregated, the observations
    attribute of a resource has one value per output row of the resource, the
    value of the row under that metric rounded to four decimals. *)
Theorem parsed_series_are_the_rounded_outputs {A : Type} `{IsResource A}
    (if_output : gmap string IFService.tree_node) (l l' : list A)
    (i : nat) (x x' : A) :
  IFService.aggregate_app_level l if_output = (l', inr ()) →
  l !! i = Some x → l' !! i = Some x' →
  ∃ entry : IFService.tree_node,
    let node := IFService.node entry in
    if_output !! id (resource_of x) = Some entry
    ∧ ∀ key obs agg,
        (key, (obs, agg)) ∈ MetricsMapper.METRICS_MAPPER →
        key ∈ (IFService.aggregated_data node).*1 →
        length (list_attr (resource_of x') obs)
        = length (IFService.outputs node)
        ∧ ∀ j row, IFService.outputs node !! j = Some row →
            ∃ q, row !! key = Some (IF.Num q)
                 ∧ list_attr (resource_of x') obs !! j
                   = Some (IFService.round4 q).
Proof.
  intros Hrun Hx Hx'. apply aggregate_app_level_success in Hrun.
  destruct (Forall2_lookup_l _ _ _ _ _ Hrun Hx)
    as (x0 & Hx0 & metrics & r & Hm & Hr & ->).
  rewrite Hx' in Hx0. injection Hx0 as ->.
  rewrite resource_of_with_resource.
  apply measurements_hold_rows in Hm as (entry & Hentry & Hkeys & Hrows).
  exists entry. cbv zeta. split; [done|]. intros key obs agg Hin Hkey.
  destruct (assoc_elem_of metrics key) as (m & Hassoc & Hm);
    [apply Hkeys; by right|].
  apply map_metrics_spec in Hr as (_ & _ & _ & Hset & _).
  destruct (Hset key obs agg m Hin Hassoc) as [-> _].
  destruct (Hrows key m Hm) as [Hlen Hobs].
  assert (key ∉ ["timestamp"; "duration"]) as Hnot.
  { unfold MetricsMapper.METRICS_MAPPER in Hin.
    repeat (apply elem_of_cons in Hin as [[= -> -> ->]|Hin];
            [by intros [?|[?|?%elem_of_nil]%elem_of_cons]%elem_of_cons|]).
    by inversion Hin. }
  set (vs := (λ row : gmap string IF.value,
                match row !! key with
                | Some (IF.Num q) => IFService.round4 q
                | _ => 0
                end) <$> IFService.outputs (IFService.node entry)).
  assert (omap (λ o, o) (MetricsMapper.observations m) = vs) as ->.
  { apply omap_all_Some; [by unfold vs; rewrite length_fmap|].
    intros j v Hj. unfold vs in Hj. rewrite list_lookup_fmap in Hj.
    destruct (IFService.outputs (IFService.node entry) !! j) as [row|]
      eqn:Hrow; [|done].
    simpl in Hj. injection Hj as <-.
    specialize (Hobs j row Hrow). rewrite decide_False in Hobs by done.
    destruct Hobs as (q & -> & ->). done. }
  split; [by unfold vs; rewrite length_fmap|].
  intros j row Hrow. specialize (Hobs j row Hrow).
  rewrite decide_False in Hobs by done. destruct Hobs as (q & Hq & _).
  exists q. split; [done|]. unfold vs.
  by rewrite list_lookup_fmap, Hrow; simpl; rewrite Hq.
Qed.

Lemma parsed_series_are_the_rounded_outputs_witness :
  ∃ x' (entry : IFService.tree_node),
    IFService.aggregate_app_level [vm_205 (Q2Qc 0.3)]
      (list_to_map [("vm", example_node)]) = ([x'], inr ())
    ∧ length (list_attr x' "carbon_emitted")
      = length (IFService.outputs (IFService.node entry)).
Proof.
  destruct (IFService.aggregate_app_level [vm_205 (Q2Qc 0.3)]
              (list_to_map [("vm", example_node)])) as [l' out] eqn:R.
  assert (out = inr ()) as -> by (vm_compute in R; by injection R as _ <-).
  destruct l' as [|x' [|y l']]; try (by vm_compute in R).
  destruct (parsed_series_are_the_rounded_outputs _ _ _ 0 _ x' R eq_refl
              eq_refl) as (entry & Hentry & Hattr).
  exists x', entry. split; [done|].
  destruct (Hattr "carbon" "carbon_emitted" (Some "total_carbon_emitted"))
    as [Hlen _]; [apply list_elem_of_here| |exact Hlen].
  vm_compute in Hentry. injection Hentry as <-. apply list_elem_of_here.
Defined.

(** ** The chunked executor when the evaluator fails *)

Lemma parse_if_output_failed_run {A : Type} `{IsResource A}
    (file : result IFService.if_output_file) (chunk : list A) (index : nat) :
  match file with
  | inl _ => True
  | inr f => IFService.execution_status f ≠ Some "success"
  end →
  (IFService.parse_if_output file chunk index).1 = chunk.
Proof.
  unfold IFService.parse_if_output. destruct file as [e|f]; [done|].
  intros Hs. destruct (IFService.execution_status f) as [status|]; [|done].
  case_decide as Hd; [done|]. exfalso. apply Hs. f_equal.
  by destruct (decide (status = "success")).
Qed.

Lemma run_engine_failed_runs {A : Type} `{IsResource A}
    (run_if : list A → nat → result IFService.if_output_file)
    (profile_chunk_size : nat) (vms : list A) (completion : list nat) :
  (0 <? profile_chunk_size)%nat = true →
  vms ≠ [] →
  (∀ chunk index,
     match run_if chunk index with
     | inl _ => True
     | inr f => IFService.execution_status f ≠ Some "success"
     end) →
  completion ≡ₚ seq 0 (number_of_chunks profile_chunk_size vms) →
  Executor.run_engine run_if profile_chunk_size completion vms
  = (completion, inr vms).
Proof.
  intros Hprofile Hne Hfail Hperm.
  assert (0 < length vms)%nat as Hlen by (destruct vms; [done|simpl; lia]).
  pose proof (min_profile_pos profile_chunk_size vms Hprofile Hne) as Hcs.
  destruct (run_engine_order run_if vms _ Hcs Hlen profile_chunk_size
              completion eq_refl Hperm)
    as (out & -> & Hout & Hpos & _).
  f_equal. f_equal. apply list_eq_same_length with (length vms); [done..|].
  intros i x y Hi Hx Hy.
  set (cs := Nat.min profile_chunk_size (length vms)) in *.
  pose proof (Nat.div_mod_eq i cs) as Hdm.
  pose proof (Nat.mod_upper_bound i cs) as Hm.
  rewrite Hdm, (Nat.mul_comm cs) in Hx, Hy.
  rewrite Hpos in Hx by lia.
  unfold Executor.compute_metrics in Hx.
  rewrite parse_if_output_failed_run in Hx by apply Hfail.
  rewrite lookup_take_lt, lookup_drop in Hx by lia. congruence.
Qed.

(** X13: when every evaluator run fails (it raises, or its output file does
    not report the status ["success"]), both chunked profiles raise nothing on
    a non-empty list: they return the input list, every resource as it was. *)
#[warnings="-abstract-large-number"]
Theorem run_engine_swallows_failed_runs {A : Type} `{IsResource A}
    (run_if : list A → nat → result IFService.if_output_file)
    (vms : list A) :
  vms ≠ [] →
  (∀ chunk index,
     match run_if chunk index with
     | inl _ => True
     | inr f => IFService.execution_status f ≠ Some "success"
     end) →
  (∀ completion,
     completion ≡ₚ seq 0 (number_of_chunks 430 vms) →
     Executor.IFVMService_run_engine run_if completion vms
     = (completion, inr vms))
  ∧ (∀ completion,
       completion ≡ₚ seq 0 (number_of_chunks 10000 vms) →
       Executor.IFStorageService_run_engine run_if completion vms
       = (completion, inr vms)).
Proof.
  intros Hne Hfail. split; intros completion Hperm.
  - by apply run_engine_failed_runs.
  - by apply run_engine_failed_runs.
Qed.

Lemma run_engine_swallows_failed_runs_witness :
  Executor.IFVMService_run_engine
    (λ _ _, inl (ValueError "Impact Framework command failed with exit code 1"))
    [0%nat] [vm_205 (Q2Qc 0.3); vm_205 (Q2Qc 0.5)]
  = ([0%nat], inr [vm_205 (Q2Qc 0.3); vm_205 (Q2Qc 0.5)]).
Proof.
  destruct (run_engine_swallows_failed_runs
              (λ _ _, inl (ValueError
                             "Impact Framework command failed with exit code 1"))
              [vm_205 (Q2Qc 0.3); vm_205 (Q2Qc 0.5)]) as [Hvm _];
    [done|done|].
  apply Hvm. reflexivity.
Defined.

(** ** The CPU chain on every utilization *)

Ltac Qc_field_to_Q :=
  unfold Qclt, Qcle, Qcdiv, Qcmult, Qcinv, Qcminus, Qcplus, Qcopp, Q2Qc in *;
  cbn [this] in *; rewrite ?Qred_correct in *.

Lemma teads_ratio_bounds (x : float) :
  let ratio :=
    np.interp_at x
      (zip [Q2Qc 0; Q2Qc 10; Q2Qc 50; Q2Qc 100]
           [Q2Qc 0.12; Q2Qc 0.32; Q2Qc 0.75; Q2Qc 1.02]) in
  Q2Qc 0.12 ≤ ratio ∧ ratio ≤ Q2Qc 1.02
  ∧ (x ≤ 0 → ratio = Q2Qc 0.12)
  ∧ (Q2Qc 100 ≤ x → ratio = Q2Qc 1.02).
Proof.
  intros ratio. subst ratio. unfold np.interp_at. simpl zip.
  cbn [np.interp_from fst snd].
  repeat case_decide; subst; repeat split; intros;
    try (apply Qc_is_canon); Qc_field_to_Q; try lra.
  all: repeat match goal with
       | |- context [(?a * / ?b)%Q] =>
           let c := eval vm_compute in (Qred (a * / b)) in
           let E := fresh in
           assert (a * / b == c)%Q as E by (vm_compute; reflexivity);
           rewrite E; clear E
       end; lra.
Qed.

Lemma evaluate_interpolation (row : gmap string IF.value) (x y : list float)
    (input output : string) (q : float) :
  row !! input = Some (IF.Num q) →
  length x = length y → x ≠ [] →
  IF.evaluate row (IF.Interpolation x y input output)
  = inr (<[output := IF.Num (np.interp_at q (zip x y))]> row).
Proof.
  intros Hq Hlen Hne. unfold IF.evaluate, getitem, np.interp. rewrite Hq.
  cbn [mbind result_bind mret result_ret IF.num].
  rewrite decide_False by (by intros ?). by rewrite decide_False.
Qed.

Lemma evaluate_multiply_2 (row : gmap string IF.value) (a b output : string)
    (divisor qa qb : float) :
  row !! a = Some (IF.Num qa) → row !! b = Some (IF.Num qb) →
  IF.evaluate row (IF.Multiply [a; b] output divisor)
  = inr (<[output := IF.Num (qa * qb / divisor)]> row).
Proof.
  intros Ha Hb. unfold IF.evaluate, for_each, IF.product, getitem.
  rewrite Ha, Hb. cbn [mbind result_bind mret result_ret IF.num].
  do 3 f_equal. unfold Qcdiv. ring.
Qed.

Lemma evaluate_multiply_3 (row : gmap string IF.value) (a b c output : string)
    (divisor qa qb qc : float) :
  row !! a = Some (IF.Num qa) → row !! b = Some (IF.Num qb) →
  row !! c = Some (IF.Num qc) →
  IF.evaluate row (IF.Multiply [a; b; c] output divisor)
  = inr (<[output := IF.Num (qa * qb * qc / divisor)]> row).
Proof.
  intros Ha Hb Hc. unfold IF.evaluate, for_each, IF.product, getitem.
  rewrite Ha, Hb, Hc. cbn [mbind result_bind mret result_ret IF.num].
  do 3 f_equal. unfold Qcdiv. ring.
Qed.

Lemma cpu_chain_outputs (r : Resource) (i : nat) (t : datetime) (u : float)
    (thermal_design_power duration : float) :
  time_points r !! i = Some t →
  cpu_util r !! i = Some u →
  let utilization := Py.min (u * Q2Qc 100) (Q2Qc 100) in
  let ratio :=
    np.interp_at utilization
      (zip [Q2Qc 0; Q2Qc 10; Q2Qc 50; Q2Qc 100]
           [Q2Qc 0.12; Q2Qc 0.32; Q2Qc 0.75; Q2Qc 1.02]) in
  let run := cpu_chain r i thermal_design_power duration in
  output run "cpu/utilization" = Some utilization
  ∧ output run "tdp-ratio" = Some ratio
  ∧ output run "cpu/power"
    = Some (ratio * thermal_design_power / Q2Qc 1000)
  ∧ output run "cpu/energy"
    = Some (ratio * thermal_design_power / Q2Qc 1000 * duration / Q2Qc 3600).
Proof.
  intros Ht Hu utilization ratio run. subst run. unfold cpu_chain.
  rewrite (fill_inputs_at r i t u Ht Hu). fold utilization.
  cbn [mbind result_bind]. unfold IF.run_pipeline.
  unfold TeadsCurve.config, PCpu.config, ECpu.config.
  cbn [for_each].
  rewrite (evaluate_interpolation _ _ _ _ _ utilization); [|by simplify_map_eq|done..].
  fold ratio. cbn [mbind result_bind].
  rewrite (evaluate_multiply_2 _ _ _ _ _ ratio thermal_design_power);
    [|by simplify_map_eq..].
  cbn [mbind result_bind].
  rewrite (evaluate_multiply_2 _ _ _ _ _
             (ratio * thermal_design_power / Q2Qc 1000) duration);
    [|by simplify_map_eq..].
  cbn [mbind result_bind mret result_ret]. unfold output.
  repeat split; by simplify_map_eq.
Qed.

(** X14: whatever the CPU utilization, the CPU chain yields a tdp ratio
    between 0.12 and 1.02 and the CPU energy ratio * tdp / 1000 * duration /
    3600; the ratio is 0.12 for a utilization of zero or less and 1.02 for a
    utilization of 1 or more, the input being capped at 100 percent. *)
Theorem cpu_chain_ratio_is_capped (r : Resource) (i : nat) (t : datetime)
    (u thermal_design_power duration : float) :
  time_points r !! i = Some t →
  cpu_util r !! i = Some u →
  let run := cpu_chain r i thermal_design_power duration in
  ∃ ratio,
    output run "tdp-ratio" = Some ratio
    ∧ output run "cpu/energy"
      = Some (ratio * thermal_design_power / Q2Qc 1000 * duration / Q2Qc 3600)
    ∧ Q2Qc 0.12 ≤ ratio ∧ ratio ≤ Q2Qc 1.02
    ∧ (u ≤ 0 → ratio = Q2Qc 0.12)
    ∧ (1 ≤ u → ratio = Q2Qc 1.02).
Proof.
  intros Ht Hu run.
  destruct (cpu_chain_outputs r i t u thermal_design_power duration Ht Hu)
    as (_ & Hratio & _ & Henergy).
  eexists. split; [exact Hratio|]. split; [exact Henergy|].
  destruct (teads_ratio_bounds (Py.min (u * Q2Qc 100) (Q2Qc 100)))
    as (Hlo & Hhi & Hzero & Hfull).
  split; [exact Hlo|]. split; [exact Hhi|]. split.
  - intros Hu0. apply Hzero. unfold Py.min. case_decide; Qc_field_to_Q; lra.
  - intros Hu1. apply Hfull. unfold Py.min. case_decide; Qc_field_to_Q; lra.
Qed.

Lemma cpu_chain_ratio_is_capped_witness :
  ∃ ratio,
    output (cpu_chain (vm_205 (Q2Qc 1.5)) 0 (Q2Qc 205) (Q2Qc 3600)) "tdp-ratio"
    = Some ratio
    ∧ ratio = Q2Qc 1.02.
Proof.
  destruct (cpu_chain_ratio_is_capped (vm_205 (Q2Qc 1.5)) 0 0 (Q2Qc 1.5)
              (Q2Qc 205) (Q2Qc 3600) eq_refl eq_refl)
    as (ratio & Hratio & _ & _ & _ & _ & Hfull).
  exists ratio. split; [exact Hratio|]. apply Hfull. by vm_compute.
Defined.

(** ** The input records of the manifest *)

Lemma for_each_collect {A B} (f : A → result B) (g : A → B) (l : list A) :
  ∀ acc, (∀ x, x ∈ l → f x = inr (g x)) →
         for_each (λ acc x, y ← f x; mret (acc ++ [y])%list) l acc
         = inr (acc ++ (g <$> l))%list.
Proof.
  induction l as [|x l IH]; intros acc Hf; simpl.
  - by rewrite app_nil_r.
  - rewrite (Hf x) by apply list_elem_of_here. cbn [mbind result_bind mret result_ret].
    rewrite IH by (intros y Hy; apply Hf; by apply list_elem_of_further).
    by rewrite <- app_assoc.
Qed.

Lemma for_each_collect_fails {A B} (f : A → result B) (e : exn) (l : list A) :
  ∀ acc, (∀ x, x ∈ l → f x = inl e ∨ ∃ y, f x = inr y) →
         (∃ x, x ∈ l ∧ f x = inl e) →
         for_each (λ acc x, y ← f x; mret (acc ++ [y])%list) l acc = inl e.
Proof.
  induction l as [|x l IH]; intros acc Hf (x0 & Hin & Hx0); simpl.
  - by inversion Hin.
  - destruct (Hf x (list_elem_of_here _ _)) as [->|[y Hy]]; [done|].
    rewrite Hy. cbn [mbind result_bind mret result_ret].
    apply IH; [intros z Hz; apply Hf; by apply list_elem_of_further|].
    apply elem_of_cons in Hin as [->|Hin]; [congruence|by exists x0].
Qed.

Lemma app_combined_inputs (pod : Pod) (i : nat) (t : datetime) :
  time_points pod !! i = Some t →
  IFService.combined_inputs
    ([ (λ r : Pod, TeadsCurve.fill_inputs (resource_of r));
       (λ r : Pod, SciO.fill_inputs (resource_of r));
       (λ r : Pod, SciEPue.fill_inputs (resource_of r)) ]
       ++ IFAppService.default_models) pod i
  = match cpu_util pod !! i, requested_cpu pod !! i,
          requested_memory pod !! i with
    | Some u, Some c, Some m => inr (app_record pod t u c m)
    | _, _, _ => inl (IndexError "list index out of range")
    end.
Proof.
  intros Ht. unfold IFService.combined_inputs, IFAppService.default_models.
  cbn [app for_each]. simpl.
  unfold TeadsCurve.fill_inputs, SciO.fill_inputs, SciEPue.fill_inputs,
    SciMcpu.fill_inputs, PMem.fill_inputs, getindex.
  rewrite Ht.
  destruct (cpu_util pod !! i) as [u|], (requested_cpu pod !! i) as [c|],
    (requested_memory pod !! i) as [m|];
    cbn [mbind result_bind mret result_ret raise]; try reflexivity.
Qed.

(** X15: [IFAppService.get_resource_inputs] with its default models returns
    one record per time point of the pod, holding the time point, the capped
    utilization, the carbon intensity, the pue, the requested cores, 66 total
    cores and the requested memory in GB, when the three series of the pod have
    at least as many values as it has time points; otherwise it raises
    [IndexError]. *)
Theorem app_inputs_one_record_per_time_point (pod : Pod) :
  let n := length (time_points pod) in
  let inputs :=
    IFAppService.get_resource_inputs pod IFAppService.default_models in
  if decide (n ≤ length (cpu_util pod) ∧ n ≤ length (requested_cpu pod)
             ∧ n ≤ length (requested_memory pod))%nat
  then ∃ rows,
         inputs = inr rows
         ∧ length rows = n
         ∧ ∀ i row, rows !! i = Some row →
             ∃ t u c m,
               time_points pod !! i = Some t ∧ cpu_util pod !! i = Some u
               ∧ requested_cpu pod !! i = Some c
               ∧ requested_memory pod !! i = Some m
               ∧ row = app_record pod t u c m
  else inputs = inl (IndexError "list index out of range").
Proof.
  intros n inputs. subst inputs.
  unfold IFAppService.get_resource_inputs, IFService.get_resource_inputs.
  cbv zeta. change (time_points (resource_of pod)) with (time_points pod).
  fold n.
  set (f := IFService.combined_inputs _ pod).
  assert (∀ i, (i < n)%nat →
            f i = match cpu_util pod !! i, requested_cpu pod !! i,
                        requested_memory pod !! i with
                  | Some u, Some c, Some m =>
                      inr (app_record pod (default 0 (time_points pod !! i))
                             u c m)
                  | _, _, _ => inl (IndexError "list index out of range")
                  end) as Hf.
  { intros i Hi. apply lookup_lt_is_Some_2 in Hi as [t Ht].
    unfold f. rewrite (app_combined_inputs pod i t Ht). by rewrite Ht. }
  case_decide as Hlen.
  - destruct Hlen as (Hu & Hc & Hm).
    set (g := λ i, app_record pod (default 0 (time_points pod !! i))
                     (default 0 (cpu_util pod !! i))
                     (default 0 (requested_cpu pod !! i))
                     (default 0 (requested_memory pod !! i))).
    exists (g <$> seq 0 n). split; [|split].
    + rewrite (for_each_collect f g); [done|].
      intros i [_ Hi]%elem_of_seq. rewrite Hf by lia. unfold g.
      destruct (lookup_lt_is_Some_2 (cpu_util pod) i) as [u ->]; [lia|].
      destruct (lookup_lt_is_Some_2 (requested_cpu pod) i) as [c ->]; [lia|].
      by destruct (lookup_lt_is_Some_2 (requested_memory pod) i) as [m ->];
        [lia|].
    + by rewrite length_fmap, length_seq.
    + intros i row Hrow. rewrite list_lookup_fmap in Hrow.
      destruct (seq 0 n !! i) as [i'|] eqn:Hi; [|done].
      apply lookup_seq in Hi as [-> Hi]. simpl in Hrow. injection Hrow as <-.
      destruct (lookup_lt_is_Some_2 (time_points pod) i) as [t Ht]; [done|].
      destruct (lookup_lt_is_Some_2 (cpu_util pod) i) as [u Hu']; [lia|].
      destruct (lookup_lt_is_Some_2 (requested_cpu pod) i) as [c Hc']; [lia|].
      destruct (lookup_lt_is_Some_2 (requested_memory pod) i) as [m Hm'];
        [lia|].
      exists t, u, c, m. unfold g. by rewrite Ht, Hu', Hc', Hm'.
  - apply for_each_collect_fails.
    + intros i [_ Hi]%elem_of_seq. rewrite Hf by lia.
      destruct (cpu_util pod !! i), (requested_cpu pod !! i),
        (requested_memory pod !! i); eauto.
    + assert (∃ i, (i < n)%nat
                   ∧ (cpu_util pod !! i = None ∨ requested_cpu pod !! i = None
                      ∨ requested_memory pod !! i = None)) as (i & Hi & Hnone).
      { destruct (decide (n ≤ length (cpu_util pod))%nat);
          [|exists (length (cpu_util pod)); split; [lia|];
            left; apply lookup_ge_None; lia].
        destruct (decide (n ≤ length (requested_cpu pod))%nat);
          [|exists (length (requested_cpu pod)); split; [lia|];
            right; left; apply lookup_ge_None; lia].
        exists (length (requested_memory pod)). split; [lia|].
        right; right. apply lookup_ge_None. lia. }
      exists i. split; [apply elem_of_seq; lia|]. rewrite Hf by done.
      destruct Hnone as [->|[->| ->]]; [done| |].
      * by destruct (cpu_util pod !! i).
      * by destruct (cpu_util pod !! i), (requested_cpu pod !! i).
Qed.

(** ** The storage profile: inputs and chain *)

Lemma storage_combined_inputs (s : StorageResource) (i : nat) :
  IFStorageService.combined_inputs s IFStorageService.default_models i
  = (timestamp ←
       (if decide (time_points s ≠ []) then getindex (time_points s) i
        else mret IFStorageService.DEFAULT_TIMESTAMP);
     mret (storage_record s timestamp)).
Proof.
  unfold IFStorageService.combined_inputs, IFStorageService.default_models.
  destruct (if decide (time_points s ≠ []) then _ else _) as [e|t]; [done|].
  cbn [mbind result_bind mret result_ret for_each].
  unfold PStorage.fill_inputs, EStorage.fill_inputs, MStorage.fill_inputs.
  change (getitem constants.STORAGE_POWER_COEFFICIENT_MAPPING "UNKNOWN")
    with (inr (Q2Qc 0.000000925) : result float).
  change (getitem constants.STORAGE_EMBODIED_COEFFICIENT_MAPPING "UNKNOWN")
    with (inr (Q2Qc 90) : result float).
  cbn [mbind result_bind mret result_ret]. reflexivity.
Qed.

Lemma storage_inputs_spec (s : StorageResource) :
  ∃ rows,
    IFStorageService.get_resource_inputs s IFStorageService.default_models
    = inr rows
    ∧ length rows = Nat.max 1 (length (time_points s))
    ∧ (time_points s = [] →
       rows = [storage_record s IFStorageService.DEFAULT_TIMESTAMP])
    ∧ (∀ i row, rows !! i = Some row →
         ∃ t, row = storage_record s t
              ∧ (time_points s ≠ [] → time_points s !! i = Some t)).
Proof.
  unfold IFStorageService.get_resource_inputs. cbv zeta.
  destruct (decide (time_points s ≠ [])) as [Hne|He].
  - set (g := λ i, storage_record s (default 0 (time_points s !! i))).
    exists (g <$> seq 0 (length (time_points s))).
    split; [|split; [|split]].
    + rewrite (for_each_collect _ g); [done|].
      intros i [_ Hi]%elem_of_seq. rewrite storage_combined_inputs.
      rewrite decide_True by done. unfold getindex, g.
      by destruct (lookup_lt_is_Some_2 (time_points s) i) as [t ->]; [lia|].
    + rewrite length_fmap, length_seq.
      destruct (time_points s); [done|simpl; lia].
    + done.
    + intros i row Hrow. rewrite list_lookup_fmap in Hrow.
      destruct (seq 0 _ !! i) as [i'|] eqn:Hi; [|done].
      apply lookup_seq in Hi as [-> Hi]. simpl in Hrow. injection Hrow as <-.
      destruct (lookup_lt_is_Some_2 (time_points s) i) as [t Ht]; [done|].
      exists t. unfold g. by rewrite Ht.
  - apply dec_stable in He. exists [storage_record s IFStorageService.DEFAULT_TIMESTAMP].
    split; [|split; [|split]].
    + simpl. rewrite storage_combined_inputs. rewrite decide_False; [done|].
      by intros ?.
    + by rewrite He.
    + done.
    + intros [|i] row Hrow; [|done]. injection Hrow as <-. by eexists.
Qed.

(** X16: [IFStorageService.get_resource_inputs] with its default models never
    raises; it returns one record per time point, and a single record stamped
    2025-01-01 for a resource without time points; every record holds the
    carbon intensity, the size times the replication factor, the power and
    embodied coefficients of the storage type and the duration. *)
Theorem storage_inputs_never_fail (s : StorageResource) :
  ∃ rows,
    IFStorageService.get_resource_inputs s IFStorageService.default_models
    = inr rows
    ∧ length rows = Nat.max 1 (length (time_points s))
    ∧ (time_points s = [] →
       rows = [storage_record s IFStorageService.DEFAULT_TIMESTAMP])
    ∧ (∀ i row, rows !! i = Some row →
         ∃ t, row = storage_record s t
              ∧ (time_points s ≠ [] → time_points s !! i = Some t)).
Proof. apply storage_inputs_spec. Qed.

(** X17: on every input record of a storage resource the nodes p-storage,
    e-storage and m-storage, evaluated in this order, yield the power
    size * factor * coefficient, the energy power * duration / 3600 and the
    embodied carbon size * factor * embodied coefficient * duration /
    126230400; the replication factor enters all three. *)
Theorem storage_chain_energy_and_embodied (s : StorageResource)
    (rows : list (gmap string IF.value)) (row : gmap string IF.value) :
  IFStorageService.get_resource_inputs s IFStorageService.default_models
  = inr rows →
  row ∈ rows →
  let run :=
    IF.run_pipeline [PStorage.config; EStorage.config; MStorage.config] row in
  let effective_size :=
    size_gb s
    * Q2Qc (inject_Z (Py.get constants.STORAGE_REPLICATION_FACTORS
                        (upper (replication_type s)) 1%Z)) in
  let power :=
    effective_size
    * Py.get constants.STORAGE_POWER_COEFFICIENT_MAPPING
        (upper (storage_type s)) (Q2Qc 0.000000925) in
  let seconds := Q2Qc (inject_Z (duration_seconds s)) in
  output run "storage/power" = Some power
  ∧ output run "energy" = Some (power * seconds / Q2Qc 3600)
  ∧ output run "carbon-embodied"
    = Some (effective_size
            * Py.get constants.STORAGE_EMBODIED_COEFFICIENT_MAPPING
                (upper (storage_type s)) (Q2Qc 90)
            * seconds / Q2Qc 126230400).
Proof.
  intros Hrows Hrow run effective_size power seconds.
  destruct (storage_inputs_spec s) as (rows' & Hrows' & _ & _ & Hall).
  rewrite Hrows in Hrows'. injection Hrows' as <-.
  apply list_elem_of_lookup in Hrow as [i Hi].
  destruct (Hall i row Hi) as (t & -> & _).
  subst run. unfold IF.run_pipeline, PStorage.config, EStorage.config,
    MStorage.config, storage_record. cbn [for_each].
  rewrite (evaluate_multiply_2 _ _ _ _ _ effective_size
             (Py.get constants.STORAGE_POWER_COEFFICIENT_MAPPING
                (upper (storage_type s)) (Q2Qc 0.000000925)));
    [|by simplify_map_eq..].
  cbn [mbind result_bind].
  rewrite (evaluate_multiply_2 _ _ _ _ _ (power / 1) seconds);
    [|by simplify_map_eq..].
  cbn [mbind result_bind].
  rewrite (evaluate_multiply_3 _ _ _ _ _ _ effective_size
             (Py.get constants.STORAGE_EMBODIED_COEFFICIENT_MAPPING
                (upper (storage_type s)) (Q2Qc 90)) seconds);
    [|by simplify_map_eq..].
  cbn [mbind result_bind mret result_ret]. unfold output, power.
  repeat split; simplify_map_eq; f_equal; unfold Qcdiv; try ring.
  - change (/ 1) with 1. ring.
  - change (/ 1) with 1. ring.
Qed.

Lemma storage_chain_energy_and_embodied_witness :
  ∃ row,
    IFStorageService.get_resource_inputs example_disk
      IFStorageService.default_models = inr [row]
    ∧ output (IF.run_pipeline
                [PStorage.config; EStorage.config; MStorage.config] row)
             "energy"
      = Some (size_gb example_disk
              * Q2Qc (inject_Z
                        (Py.get constants.STORAGE_REPLICATION_FACTORS
                           (upper (replication_type example_disk)) 1%Z))
              * Py.get constants.STORAGE_POWER_COEFFICIENT_MAPPING
                  (upper (storage_type example_disk)) (Q2Qc 0.000000925)
              * Q2Qc (inject_Z (duration_seconds example_disk))
              / Q2Qc 3600).
Proof.
  destruct (storage_inputs_spec example_disk) as (rows & R & _ & Hrows & _).
  rewrite (Hrows eq_refl) in R.
  exists (storage_record example_disk IFStorageService.DEFAULT_TIMESTAMP).
  split; [exact R|].
  pose proof (storage_chain_energy_and_embodied example_disk _ _ R
                (list_elem_of_here _ _)) as Hchain.
  cbv zeta in Hchain. destruct Hchain as (_ & Henergy & _). exact Henergy.
Defined.

(** ** Storage rows: the type and the replication read off the product name *)

Lemma append_cons (c : ascii) (s t : string) :
  String c s +:+ t = String c (s +:+ t).
Proof. reflexivity. Qed.

Lemma string_app_assoc (a b c : string) : (a +:+ b) +:+ c = a +:+ (b +:+ c).
Proof.
  induction a as [|x a IH]; [done|]. by rewrite !append_cons, IH.
Qed.

Lemma prefix_spec (needle s : string) :
  String.prefix needle s = true ↔ ∃ post, s = needle +:+ post.
Proof.
  revert s. induction needle as [|c needle IH]; intros s.
  - split; [intros _; exists s; reflexivity|by destruct s].
  - destruct s as [|c' s]; cbn [String.prefix].
    + split; [done|by intros [post ?]].
    + destruct (ascii_dec c c') as [->|Hne].
      * rewrite IH. split; intros [post Hs]; exists post.
        -- by rewrite append_cons, Hs.
        -- rewrite append_cons in Hs. by injection Hs.
      * split; [done|]. intros [post Hs]. rewrite append_cons in Hs.
        by injection Hs.
Qed.

Lemma contains_spec (needle s : string) :
  contains needle s = true ↔ ∃ pre post, s = pre +:+ (needle +:+ post).
Proof.
  induction s as [|c s IH]; cbn [contains].
  - rewrite prefix_spec. split.
    + intros [post Hs]. exists "", post. exact Hs.
    + intros (pre & post & Hs). destruct pre; [exists post; exact Hs|done].
  - rewrite orb_true_iff, prefix_spec, IH. split.
    + intros [[post Hs]|(pre & post & Hs)].
      * exists "", post. exact Hs.
      * exists (String c pre), post. by rewrite append_cons, Hs.
    + intros (pre & post & Hs). destruct pre as [|c' pre].
      * left. exists post. exact Hs.
      * right. exists pre, post. rewrite append_cons in Hs. by injection Hs.
Qed.

Lemma contains_needle_suffix (a b s : string) :
  contains (a +:+ b) s = true → contains b s = true.
Proof.
  rewrite !contains_spec. intros (pre & post & ->).
  exists (pre +:+ a), post. by rewrite !string_app_assoc.
Qed.

(** X18: the replication type that [get_replication_type] reads off a row is
    always a key of [STORAGE_REPLICATION_FACTORS], so the default factor 1 of
    the power node is never used for it: the factor is 6 when the product or
    meter name contains GZRS or GRS, and 3 otherwise. *)
Theorem replication_type_is_always_tabulated (row : gmap string string) :
  let text_to_search :=
    upper (Py.get row "ProductName" "") +:+ " "
    +:+ upper (Py.get row "MeterName" "") in
  constants.STORAGE_REPLICATION_FACTORS
    !! upper (storage_helpers.get_replication_type row)
  = Some (if contains "GZRS" text_to_search || contains "GRS" text_to_search
          then 6%Z else 3%Z).
Proof.
  intros text. unfold storage_helpers.get_replication_type. fold text.
  pose proof (contains_needle_suffix "RA-" "GZRS" text) as H1.
  pose proof (contains_needle_suffix "RA" "GZRS" text) as H2.
  pose proof (contains_needle_suffix "RA-" "GRS" text) as H3.
  pose proof (contains_needle_suffix "RA" "GRS" text) as H4.
  change ("RA-" +:+ "GZRS") with "RA-GZRS" in H1.
  change ("RA" +:+ "GZRS") with "RAGZRS" in H2.
  change ("RA-" +:+ "GRS") with "RA-GRS" in H3.
  change ("RA" +:+ "GRS") with "RAGRS" in H4.
  destruct (contains "RA-GZRS" text), (contains "RAGZRS" text),
    (contains "GZRS" text), (contains "RA-GRS" text), (contains "RAGRS" text),
    (contains "GRS" text), (contains "ZRS" text), (contains "LRS" text);
    simpl; try reflexivity;
    try (by specialize (H1 eq_refl)); try (by specialize (H2 eq_refl));
    try (by specialize (H3 eq_refl)); try (by specialize (H4 eq_refl)).
Qed.

(** X19: [get_storage_type] answers SSD when the product name contains
    "ssd", "ultra disk" or "premium page blob" (whatever the case), else HDD
    when it contains "hdd", else Unknown; the power and embodied coefficients
    that the storage nodes then select are the table entries of SSD, HDD and
    UNKNOWN. *)
Theorem storage_type_selects_a_tabulated_coefficient
    (row : gmap string string) (r : Resource) (replication : string)
    (size : float) (duration : Z) (time_index : nat) :
  let product_name := lower (Py.get row "ProductName" "") in
  let solid_state :=
    contains "ssd" product_name || contains "ultra disk" product_name
    || contains "premium page blob" product_name in
  let s :=
    mkStorageResource r (storage_helpers.get_storage_type row) replication
      size duration in
  storage_helpers.get_storage_type row
  = (if solid_state then "SSD"
     else if contains "hdd" product_name then "HDD" else "Unknown")
  ∧ output (PStorage.fill_inputs s time_index) "power/coefficient"
    = constants.STORAGE_POWER_COEFFICIENT_MAPPING
        !! upper (storage_helpers.get_storage_type row)
  ∧ output (PStorage.fill_inputs s time_index) "power/coefficient"
    = Some (if solid_state then Q2Qc 0.0000012
            else if contains "hdd" product_name then Q2Qc 0.00000065
            else Q2Qc 0.000000925)
  ∧ output (MStorage.fill_inputs s time_index) "storage/embodied-coefficient"
    = Some (if solid_state then Q2Qc 160
            else if contains "hdd" product_name then Q2Qc 20
            else Q2Qc 90).
Proof.
  intros product_name solid_state s. subst s.
  unfold storage_helpers.get_storage_type. fold product_name.
  fold solid_state.
  destruct solid_state; [by repeat split|].
  destruct (contains "hdd" product_name); by repeat split.
Qed.

(** ** The daemon: unknown regions and the creation of a VM *)

Lemma missing_regions_snoc (regions : list string) (region r : string) :
  let count rs := length (filter (λ x, x = r) rs) in
  let dict rs :=
    foldl daemon_helpers.calculate_vm_count_for_missing_regions ∅ rs in
  (dict regions !! r
   = if decide (constants.REGION_TO_COUNTRY_CARBON_INTENSITY !! r = None
                ∧ count regions ≠ 0%nat)
     then Some (count regions) else None) →
  dict (regions ++ [region])%list !! r
  = if decide (constants.REGION_TO_COUNTRY_CARBON_INTENSITY !! r = None
               ∧ count (regions ++ [region])%list ≠ 0%nat)
    then Some (count (regions ++ [region])%list) else None.
Proof.
  intros count dict IH. unfold dict, count in *.
  rewrite foldl_app, filter_app, length_app. simpl foldl.
  unfold daemon_helpers.calculate_vm_count_for_missing_regions at 1.
  destruct (decide (region = r)) as [->|Hne].
  - rewrite filter_cons_True, filter_nil by done. simpl length.
    destruct (decide (constants.REGION_TO_COUNTRY_CARBON_INTENSITY !! r
                      = None)) as [Ht|Ht].
    + rewrite (decide_True (P := _ ∧ _)) by (split; [done|lia]).
      destruct (foldl _ _ _ !! r) as [n|] eqn:E; rewrite lookup_insert_eq;
        f_equal.
      * destruct (decide (_ ∧ _)) in IH; [|done]. injection IH as ->. done.
      * destruct (decide (_ ∧ _)) as [|Hn] in IH; [done|].
        destruct (length (filter (λ x, x = r) regions)); [done|].
        exfalso. apply Hn. split; [done|lia].
    + rewrite IH. rewrite !decide_False; [done|..]; by intros [? _].
  - rewrite filter_cons_False, filter_nil by done. simpl length.
    rewrite Nat.add_0_r.
    destruct (decide (constants.REGION_TO_COUNTRY_CARBON_INTENSITY !! region
                      = None)); [|exact IH].
    destruct (foldl _ _ _ !! region);
      rewrite lookup_insert_ne by done; exact IH.
Qed.

(** X20: after [calculate_vm_count_for_missing_regions] was called from the
    empty dict for a sequence of regions, the dict holds a region exactly when
    it occurs in the sequence and is not in the carbon-intensity table, and
    then with the number of its occurrences. *)
Theorem missing_regions_are_counted (regions : list string) (r : string) :
  foldl daemon_helpers.calculate_vm_count_for_missing_regions ∅ regions !! r
  = if decide (constants.REGION_TO_COUNTRY_CARBON_INTENSITY !! r = None
               ∧ length (filter (λ x, x = r) regions) ≠ 0%nat)
    then Some (length (filter (λ x, x = r) regions)) else None.
Proof.
  induction regions as [|region regions IH] using rev_ind.
  - cbn [foldl]. rewrite lookup_empty, filter_nil.
    rewrite decide_False; [done|]. intros [_ Hn]. by apply Hn.
  - by apply missing_regions_snoc.
Qed.

(** X21: on a row with all its columns [create_vm] raises exactly when the
    region is "francesouth"; otherwise the VM carries the carbon intensity
    that [calculate_ci] gives for the region, or for "germanywestcentral" when
    the region is "-" or empty, the pue of Azure, the region as the row has it,
    and no time points or utilization yet. *)
Theorem create_vm_carbon_intensity (row : gmap string string)
    (vm_id vm_size region : string) :
  row !! "Region" = Some region →
  (∀ column, column ∈ ["Service"; "Component"; "Subscription"; "Name";
                        "Instance"; "Environment"; "Partition"] →
             is_Some (row !! column)) →
  let zone :=
    if decide (region ≠ "-" ∧ region ≠ "") then region
    else "germanywestcentral" in
  if decide (region = "francesouth")
  then daemon_helpers.create_vm row vm_id vm_size
       = inl (KeyError "carbon_intensity")
  else ∃ vm ci,
         daemon_helpers.create_vm row vm_id vm_size = inr vm
         ∧ PaasCiMapper.calculate_ci (Some zone) = inr (constants.Int ci)
         ∧ carbon_intensity (virtual_machine.vm_resource vm)
           = Q2Qc (inject_Z ci)
         ∧ pue (virtual_machine.vm_resource vm) = constants.PUE_AZURE
         ∧ virtual_machine.region vm = Some region
         ∧ id (virtual_machine.vm_resource vm) = vm_id
         ∧ time_points (virtual_machine.vm_resource vm) = []
         ∧ cpu_util (virtual_machine.vm_resource vm) = [].
Proof.
  intros Hregion Hcolumns zone.
  unfold daemon_helpers.create_vm, getitem. rewrite Hregion.
  cbn [mbind result_bind mret result_ret].
  repeat match goal with
         | |- context [row !! ?c] =>
             let v := fresh "v" in
             destruct (Hcolumns c) as [v ->]; [set_solver|];
             cbn [mbind result_bind mret result_ret]
         end.
  fold zone.
  pose proof (calculate_ci_other_zones (Some zone)) as Hci.
  case_decide as Hfs.
  - subst region. by vm_compute.
  - assert (Some zone ≠ Some "francesouth") as Hz.
    { intros [= Hz]. unfold zone in Hz.
      destruct (decide (region ≠ "-" ∧ region ≠ "")); [contradiction|].
      discriminate Hz. }
    specialize (Hci Hz).
    destruct (Some zone ≫= _) as [entry|].
    + destruct Hci as (ci & _ & ->). cbn [mbind result_bind mret result_ret].
      eexists _, ci. repeat split.
    + rewrite Hci. cbn [mbind result_bind mret result_ret].
      eexists _, 281%Z. repeat split.
Qed.

Lemma create_vm_carbon_intensity_witness :
  ∃ vm,
    daemon_helpers.create_vm
      (list_to_map
         [("Region", "-"); ("Service", "svc"); ("Component", "-");
          ("Subscription", "sub"); ("Name", "vm-1"); ("Instance", "-");
          ("Environment", "prod"); ("Partition", "-")]) "id-1" "Standard_D2"
    = inr vm
    ∧ carbon_intensity (virtual_machine.vm_resource vm) = Q2Qc 344.
Proof.
  set (row := list_to_map _).
  assert (row !! "Region" = Some "-") as Hregion by (vm_compute; reflexivity).
  pose proof (create_vm_carbon_intensity row "id-1" "Standard_D2" "-" Hregion)
    as Hvm.
  rewrite decide_False in Hvm by done.
  destruct Hvm as (vm & ci & Hvm & Hci & Hcarbon & _).
  { intros column Hcolumn.
    repeat (apply elem_of_cons in Hcolumn as [->|Hcolumn];
            [by vm_compute; eexists|]).
    by inversion Hcolumn. }
  exists vm. split; [exact Hvm|]. rewrite Hcarbon.
  vm_compute in Hci. by injection Hci as <-.
Defined.
